(** * Document outline extraction and persona-driven section ranking

    A shallow embedding of the two pipelines of the repository:
    [Round1A/process_pdfs.py] (class [PDFStructureExtractor]) and
    [Round1B/process_pdfs.py] (classes [PersonaAnalyzer],
    [DocumentProcessor], [SectionRanker]).

    Conventions of the embedding.
    - A Python [str] is a list of characters; a character is a code point
      below 256 held in an [ascii], and the character classes below are
      the ones Python gives to these code points (Latin-1).
    - A Python [float] is an exact rational ([Q]); the decimal literals
      of the source are written as fractions.
    - [list.sort] and [sorted] are stable; they are embedded as a stable
      insertion sort that, like Python, only asks whether one key is
      less than another.
    - A raised exception is the value [None] of an [option]. *)

From Stdlib Require Import Ascii String QArith Qminmax Lqa.
From stdpp Require Import gmap strings list fin_maps sorting.

Open Scope list_scope.

(** ** Python strings *)

Module PyStr.

Definition chars (s : string) : list ascii := list_ascii_of_string s.

Definition code (c : ascii) : N := N_of_ascii c.

Definition between (lo hi : N) (c : ascii) : bool :=
  ((lo <=? code c) && (code c <=? hi))%N.

(** [str.isspace] on one character, also the class [\s] of [re]. *)
Definition isspace (c : ascii) : bool :=
  between 9 13 c || between 28 32 c || (code c =? 133)%N || (code c =? 160)%N.

(** [\d] of [re]: the decimal digits. *)
Definition isdecimal (c : ascii) : bool := between 48 57 c.

(** The range [A-Z] and the range [a-z]. *)
Definition is_AZ (c : ascii) : bool := between 65 90 c.
Definition is_az (c : ascii) : bool := between 97 122 c.

(** [str.isupper] and [str.islower] on one character. *)
Definition char_isupper (c : ascii) : bool :=
  is_AZ c || between 192 214 c || between 216 222 c.

Definition char_islower (c : ascii) : bool :=
  is_az c || (code c =? 170)%N || (code c =? 181)%N || (code c =? 186)%N
  || between 223 246 c || between 248 255 c.

(** [\w] of [re]: alphanumeric characters and the underscore. *)
Definition isword (c : ascii) : bool :=
  isdecimal c || char_isupper c || char_islower c || (code c =? 95)%N
  || (code c =? 178)%N || (code c =? 179)%N || (code c =? 185)%N
  || between 188 190 c.

(** [str.lower]. *)
Definition lower_char (c : ascii) : ascii :=
  if char_isupper c then ascii_of_N (code c + 32) else c.

Definition lower (s : list ascii) : list ascii := map lower_char s.

(** The uppercase form of one character, where it is a code point
    below 256. *)
Definition upper_char (c : ascii) : ascii :=
  if is_az c || between 224 246 c || between 248 254 c
  then ascii_of_N (code c - 32) else c.

(** [str.strip], [str.lstrip], [str.rstrip] without argument. *)
Fixpoint lstrip (s : list ascii) : list ascii :=
  match s with
  | c :: s' => if isspace c then lstrip s' else s
  | [] => []
  end.

Definition rstrip (s : list ascii) : list ascii := rev (lstrip (rev s)).

Definition strip (s : list ascii) : list ascii := rstrip (lstrip s).

(** [str.split] without argument: the maximal runs of characters that
    are not whitespace.  [cur] is the word being read, reversed. *)
Fixpoint split_aux (cur : list ascii) (s : list ascii) : list (list ascii) :=
  match s with
  | [] => match cur with [] => [] | _ => [rev cur] end
  | c :: s' =>
      if isspace c
      then match cur with
           | [] => split_aux [] s'
           | _ => rev cur :: split_aux [] s'
           end
      else split_aux (c :: cur) s'
  end.

Definition split (s : list ascii) : list (list ascii) := split_aux [] s.

(** [sep.join(words)]. *)
Fixpoint join (sep : list ascii) (ws : list (list ascii)) : list ascii :=
  match ws with
  | [] => []
  | [w] => w
  | w :: ws' => w ++ sep ++ join sep ws'
  end.

(** [str.isupper]: no lowercase character and at least one uppercase
    one. *)
Definition isupper (s : list ascii) : bool :=
  forallb (fun c => negb (char_islower c)) s && existsb char_isupper s.

(** [str.istitle]: uppercase characters only follow uncased ones,
    lowercase characters only follow cased ones, and there is a cased
    character.  [prev] tells whether the previous character is cased,
    [seen] whether a cased character was met. *)
Fixpoint istitle_aux (prev seen : bool) (s : list ascii) : bool :=
  match s with
  | [] => seen
  | c :: s' =>
      if char_isupper c then
        if prev then false else istitle_aux true true s'
      else if char_islower c then
        if prev then istitle_aux true true s' else false
      else istitle_aux false seen s'
  end.

Definition istitle (s : list ascii) : bool := istitle_aux false false s.

Definition beq (s t : list ascii) : bool := bool_decide (s = t).

(** [str.startswith] and [str.endswith]. *)
Fixpoint startswith (s p : list ascii) : bool :=
  match p, s with
  | [], _ => true
  | a :: p', c :: s' => bool_decide (a = c) && startswith s' p'
  | _ :: _, [] => false
  end.

Definition endswith (s p : list ascii) : bool := startswith (rev s) (rev p).

(** A word as [split] yields it: not empty, without whitespace. *)
Definition is_token (w : list ascii) : Prop :=
  w <> [] /\ Forall (fun c => isspace c = false) w.

End PyStr.

(** ** Regular expressions of [re]

    The patterns of the source are written as terms of [regex].  [run]
    is a backtracking matcher in continuation-passing style: it tries
    the alternatives in the order of [re] (left branch first, one more
    iteration before stopping) and hands the rest of the text to the
    continuation.  [prev] is the character before the current position,
    which the word boundary needs. *)

Module Re.
Import PyStr.

Inductive regex : Type :=
| Eps                                  (* the empty pattern *)
| Chr (f : ascii -> bool)              (* one character of a class *)
| Seq (r1 r2 : regex)                  (* r1 r2 *)
| Alt (r1 r2 : regex)                  (* r1|r2 *)
| Star (r : regex)                     (* r*, greedy *)
| Bol                                  (* ^ *)
| Eol                                  (* $ *)
| WordB.                               (* \b *)

Definition Plus (r : regex) : regex := Seq r (Star r).
Definition Opt (r : regex) : regex := Alt r Eps.

(** One literal character, and a literal word. *)
Definition Lit (a : ascii) : regex := Chr (fun c => bool_decide (c = a)).

Fixpoint Str (s : list ascii) : regex :=
  match s with
  | [] => Eps
  | [a] => Lit a
  | a :: s' => Seq (Lit a) (Str s')
  end.

Definition Word (s : string) : regex := Str (chars s).

Fixpoint Alts (rs : list regex) : regex :=
  match rs with
  | [] => Eps
  | [r] => r
  | r :: rs' => Alt r (Alts rs')
  end.

Fixpoint Seqs (rs : list regex) : regex :=
  match rs with
  | [] => Eps
  | [r] => r
  | r :: rs' => Seq r (Seqs rs')
  end.

(** [r{n}] and [r{n,}]. *)
Fixpoint Repeat (n : nat) (r : regex) : regex :=
  match n with
  | O => Eps
  | S n' => Seq r (Repeat n' r)
  end.

Definition AtLeast (n : nat) (r : regex) : regex := Seq (Repeat n r) (Star r).

(** The pattern [r] compiled with the flag [re.I]: a character is in a
    class when one of its case variants is. *)
Fixpoint ignore_case (r : regex) : regex :=
  match r with
  | Chr f => Chr (fun c => f c || f (lower_char c) || f (upper_char c))
  | Seq r1 r2 => Seq (ignore_case r1) (ignore_case r2)
  | Alt r1 r2 => Alt (ignore_case r1) (ignore_case r2)
  | Star r1 => Star (ignore_case r1)
  | Eps | Bol | Eol | WordB => r
  end.

Definition is_word_at (c : option ascii) : bool :=
  match c with Some x => isword x | None => false end.

Section Run.
Context {A : Type}.

Fixpoint run (r : regex) (prev : option ascii) (s : list ascii)
    (k : option ascii -> list ascii -> option A) {struct r} : option A :=
  match r with
  | Eps => k prev s
  | Chr f =>
      match s with
      | c :: s' => if f c then k (Some c) s' else None
      | [] => None
      end
  | Seq r1 r2 => run r1 prev s (fun p s' => run r2 p s' k)
  | Alt r1 r2 =>
      match run r1 prev s k with
      | Some x => Some x
      | None => run r2 prev s k
      end
  | Star r1 =>
      (fix loop (n : nat) (prev : option ascii) (s : list ascii) : option A :=
         match n with
         | O => k prev s
         | S n' =>
             match run r1 prev s
                     (fun p s' =>
                        if (length s' <? length s)%nat then loop n' p s'
                        else None) with
             | Some x => Some x
             | None => k prev s
             end
         end) (length s) prev s
  | Bol => match prev with None => k prev s | Some _ => None end
  | Eol =>
      match s with
      | [] => k prev s
      | [c] => if bool_decide (c = "010"%char) then k prev s else None
      | _ => None
      end
  | WordB =>
      if xorb (is_word_at prev) (is_word_at (head s)) then k prev s else None
  end.

End Run.

(** The text left after the first match of [r] at the current
    position. *)
Definition match_here (r : regex) (prev : option ascii) (s : list ascii)
  : option (list ascii) :=
  run r prev s (fun _ rest => Some rest).

(** [re.match(r, s)] as a truth value. *)
Definition re_match (r : regex) (s : list ascii) : bool :=
  bool_decide (is_Some (match_here r None s)).

(** [re.search(r, s)] as a truth value: a match at some position. *)
Fixpoint search_from (r : regex) (prev : option ascii) (s : list ascii) : bool :=
  match match_here r prev s with
  | Some _ => true
  | None =>
      match s with
      | [] => false
      | c :: s' => search_from r (Some c) s'
      end
  end.

Definition re_search (r : regex) (s : list ascii) : bool := search_from r None s.

(** [re.findall(r, s)] for a pattern without groups: the matches from
    left to right, none overlapping.  [skip] counts the characters of
    the last match still to pass. *)
Fixpoint findall_from (r : regex) (skip : nat) (prev : option ascii)
    (s : list ascii) : list (list ascii) :=
  match skip with
  | S skip' =>
      match s with
      | [] => []
      | c :: s' => findall_from r skip' (Some c) s'
      end
  | O =>
      match match_here r prev s with
      | Some rest =>
          let n := (length s - length rest)%nat in
          take n s ::
            match s with
            | [] => []
            | c :: s' => findall_from r (pred n) (Some c) s'
            end
      | None =>
          match s with
          | [] => []
          | c :: s' => findall_from r O (Some c) s'
          end
      end
  end.

Definition re_findall (r : regex) (s : list ascii) : list (list ascii) :=
  findall_from r O None s.

(** The classes used by the patterns of the source. *)
Definition d : regex := Chr isdecimal.                       (* \d *)
Definition sp : regex := Chr isspace.                        (* \s *)
Definition dot : regex := Lit "."%char.                      (* \. *)
Definition AZ : regex := Chr is_AZ.                          (* [A-Z] *)
Definition azAZ : regex := Chr (fun c => is_az c || is_AZ c). (* [a-zA-Z] *)

End Re.

(** ** Numbers and sorting *)

Module Py.

Definition Qltb (x y : Q) : bool := negb (Qle_bool y x).
Definition Qleb (x y : Q) : bool := Qle_bool x y.

(** [a / b] on floats: division by zero raises [ZeroDivisionError]. *)
Definition div (a b : Q) : option Q :=
  if Qeq_bool b 0 then None else Some (a / b)%Q.

(** [max(a, b)] and [min(a, b)]: the first argument wins a tie. *)
Definition max2 (a b : Q) : Q := if Qltb a b then b else a.
Definition min2 (a b : Q) : Q := if Qltb b a then b else a.

(** [max(l)] of a non-empty list, [first] being its head. *)
Definition max_list (first : Q) (rest : list Q) : Q := fold_left max2 rest first.

Section Sort.
Context {A K : Type} (lt : K -> K -> bool) (key : A -> K).

(** [x] stood before every element of [l] in the list being sorted: it
    goes behind exactly those whose key is less than its own. *)
Fixpoint insert (x : A) (l : list A) : list A :=
  match l with
  | [] => [x]
  | y :: l' => if lt (key y) (key x) then y :: insert x l' else x :: l
  end.

(** [l.sort(key=key)], [sorted(l, key=key)]. *)
Definition sort (l : list A) : list A := foldr insert [] l.

(** [x] may stand before [y] in a list sorted by [key]: the key of [y]
    is not less than the key of [x]. *)
Definition precedes (x y : A) : Prop := lt (key y) (key x) = false.

End Sort.

(** [l.sort(key=key, reverse=True)]: descending keys, elements with
    equal keys in their original order. *)
Definition sort_reverse {A K : Type} (lt : K -> K -> bool) (key : A -> K)
  : list A -> list A :=
  sort (fun a b => lt b a) key.

(** [<] on the tuples [(page, -confidence)]. *)
Definition pair_ltb (a b : nat * Q) : bool :=
  if (fst a =? fst b)%nat then Qltb (snd a) (snd b) else (fst a <? fst b)%nat.

(** [collections.Counter] over floats, keys in insertion order. *)
Fixpoint counter_add (x : Q) (c : list (Q * nat)) : list (Q * nat) :=
  match c with
  | [] => [(x, 1%nat)]
  | (y, n) :: c' =>
      if Qeq_bool y x then (y, S n) :: c' else (y, n) :: counter_add x c'
  end.

Definition Counter (l : list Q) : list (Q * nat) :=
  fold_left (fun c x => counter_add x c) l [].

(** [c.most_common(1)(0)]: the first entry with the greatest count,
    [best] being the first entry. *)
Definition most_common1 (best : Q * nat) (rest : list (Q * nat)) : Q * nat :=
  fold_left (fun b e => if (snd b <? snd e)%nat then e else b) rest best.

(** The number of elements of [l] equal to [x]. *)
Definition occurrences (x : Q) (l : list Q) : nat :=
  length (List.filter (fun y => Qeq_bool y x) l).

(** [c(x)]: the count of [x] in the counter [c]. *)
Fixpoint counter_get (c : list (Q * nat)) (x : Q) : nat :=
  match c with
  | [] => 0
  | (y, n) :: c' => if Qeq_bool y x then n else counter_get c' x
  end.

(** [set(l)] over floats, listed by first occurrence. *)
Fixpoint distinct (l : list Q) : list Q :=
  match l with
  | [] => []
  | x :: l' => x :: List.filter (fun y => negb (Qeq_bool x y)) (distinct l')
  end.

End Py.

(** ** Round 1A: [PDFStructureExtractor] *)

Module Round1A.
Import PyStr Re Py.

Local Open Scope Q_scope.

(** One line of text as [extract_formatted_text] builds it.  The
    bounding box is carried by the source but read by no function. *)
Module TextElement.
Record t : Type := mk {
  text : list ascii;
  page : nat;
  avg_size : Q;
  max_size : Q;
  is_bold : bool;
  is_italic : bool
}.
End TextElement.

Record Thresholds : Type := { h1 : Q; h2 : Q; h3 : Q }.

(** The statistics dictionary; its entries [all_sizes] and
    [size_distribution] are read by no function and left out. *)
Record DocStats : Type := {
  dominant_size : Q;
  size_thresholds : Thresholds
}.

(** A heading with its confidence, as [extract_document_outline]
    appends it. *)
Module Candidate.
Record t : Type := mk {
  level : string;
  text : list ascii;
  page : nat;
  confidence : Q
}.
End Candidate.

(** A heading once [confidence] is popped. *)
Module OutlineEntry.
Record t : Type := mk {
  level : string;
  text : list ascii;
  page : nat
}.
End OutlineEntry.

Record Result : Type := {
  title : list ascii;
  outline : list OutlineEntry.t
}.

Definition Document : list ascii := chars "Document".

(** *** analyze_document_statistics *)

Definition analyze_document_statistics (text_elements : list TextElement.t)
  : DocStats :=
  match map TextElement.max_size text_elements with
  | [] =>
      {| dominant_size := 12;
         size_thresholds := {| h1 := 18; h2 := 15; h3 := 13 |} |}
  | first :: rest =>
      let font_sizes := first :: rest in
      let size_counter := Counter font_sizes in
      let dominant_size :=
        match size_counter with
        | e :: c => fst (most_common1 e c)
        | [] => first
        end in
      let unique_sizes := sort_reverse Qltb id (distinct font_sizes) in
      let thresholds :=
        match unique_sizes with
        | u0 :: u1 :: u2 :: _ =>
            (* len(unique_sizes) >= 3, so the tests len > 1 and len > 2
               of the source hold *)
            {| h1 := u0; h2 := u1; h3 := u2 |}
        | _ =>
            {| h1 := max2 (dominant_size * 1.5) (max_list first rest * 0.9);
               h2 := dominant_size * 1.3;
               h3 := dominant_size * 1.1 |}
        end in
      {| dominant_size := dominant_size; size_thresholds := thresholds |}
  end.

(** *** Title extraction *)

Definition calculate_size_score (elem : TextElement.t) (doc_stats : DocStats)
  : option Q :=
  size_ratio ← div (TextElement.max_size elem) (dominant_size doc_stats);
  Some (if Qleb 2.5 size_ratio then 1.0
        else if Qleb 2.0 size_ratio then 0.9
        else if Qleb 1.8 size_ratio then 0.8
        else if Qleb 1.5 size_ratio then 0.7
        else if Qleb 1.3 size_ratio then 0.5
        else 0.2).

Definition calculate_position_score (position : nat) : Q :=
  if (position =? 0)%nat then 1.0
  else if (position <=? 2)%nat then 0.8
  else if (position <=? 5)%nat then 0.6
  else 0.3.

(** [^\d+\.] *)
Definition re_numbered_item : regex := Seq Bol (Seq (Plus d) dot).

Definition calculate_content_score (text : list ascii) : Q :=
  let word_count := length (split text) in
  let score := 0.0 in
  let score :=
    if (3 <=? word_count)%nat && (word_count <=? 20)%nat then score + 0.5
    else if (word_count <=? 30)%nat then score + 0.3
    else score in
  let score :=
    if istitle text then score + 0.2
    else if isupper text && (word_count <=? 12)%nat then score + 0.3
    else score in
  let score :=
    if re_match re_numbered_item text
       || startswith (lower text) (chars "page ")
       || startswith (lower text) (chars "figure ")
    then score - 0.5
    else score in
  max2 0 score.

Definition calculate_style_score (elem : TextElement.t) : Q :=
  let score := 0.0 in
  let score := if TextElement.is_bold elem then score + 0.6 else score in
  let score := if TextElement.is_italic elem then score + 0.2 else score in
  score.

(** [re.sub(r'\s+', ' ', title)]: every maximal run of whitespace
    becomes one space.  [in_run] tells whether the previous character
    was whitespace. *)
Fixpoint collapse_whitespace_aux (in_run : bool) (s : list ascii) : list ascii :=
  match s with
  | [] => []
  | c :: s' =>
      if isspace c then
        if in_run then collapse_whitespace_aux true s'
        else " "%char :: collapse_whitespace_aux true s'
      else c :: collapse_whitespace_aux false s'
  end.

Definition collapse_whitespace (s : list ascii) : list ascii :=
  collapse_whitespace_aux false s.

(** [words(:-1)]: all but the last element. *)
Definition drop_last {A : Type} (l : list A) : list A := take (length l - 1) l.

Definition clean_title (title : list ascii) : list ascii :=
  let title := strip (collapse_whitespace title) in
  let title :=
    if (100 <? length title)%nat then
      let words := split (take 100 title) in
      if (1 <? length words)%nat then join (chars " ") (drop_last words)
      else title
    else title in
  if (3 <=? length title)%nat then title else Document.

(** The loop of [extract_document_title] over
    [enumerate(first_page_elements)], from index [i] on. *)
Fixpoint title_candidates (i : nat) (first_page_elements : list TextElement.t)
    (doc_stats : DocStats) : option (list (Q * list ascii)) :=
  match first_page_elements with
  | [] => Some []
  | elem :: rest =>
      let text := strip (TextElement.text elem) in
      if (length text <? 3)%nat then title_candidates (S i) rest doc_stats
      else
        size_score ← calculate_size_score elem doc_stats;
        let position_score := calculate_position_score i in
        let content_score := calculate_content_score text in
        let style_score := calculate_style_score elem in
        let total_score :=
          size_score * 0.4 + position_score * 0.2
          + content_score * 0.2 + style_score * 0.2 in
        more ← title_candidates (S i) rest doc_stats;
        Some ((total_score, text) :: more)
  end.

(** The elements [extract_document_title] looks at: the first 15 of
    page 0. *)
Definition first_page_elements (text_elements : list TextElement.t)
  : list TextElement.t :=
  take 15 (filter (fun elem => TextElement.page elem = 0%nat) text_elements).

Definition extract_document_title (text_elements : list TextElement.t)
    (doc_stats : DocStats) : option (list ascii) :=
  match text_elements with
  | [] => Some Document
  | _ =>
      let first_page_elements := first_page_elements text_elements in
      title_candidates ← title_candidates 0 first_page_elements doc_stats;
      match sort_reverse Qltb fst title_candidates with
      | (_, best_title) :: _ => Some (clean_title best_title)
      | [] => Some Document
      end
  end.

(** An element whose text can be a title: at least 3 characters once
    trimmed. *)
Definition title_text_valid (elem : TextElement.t) : Prop :=
  (3 <= length (strip (TextElement.text elem)))%nat.

(** Sample statistics and lines: a line of 26 words that ends with a
    period, a bold one-letter line in twice the dominant size, and a
    document with the sizes 24, 16, 12, 12. *)
Definition plain_stats : DocStats :=
  {| dominant_size := 12; size_thresholds := {| h1 := 18; h2 := 15; h3 := 13 |} |}.

Definition long_sentence : TextElement.t :=
  TextElement.mk
    (chars "aa aa aa aa aa aa aa aa aa aa aa aa aa aa aa aa aa aa aa aa aa aa aa aa aa aa.")
    0 12 12 false false.

Definition one_letter : TextElement.t :=
  TextElement.mk (chars "A") 0 24 24 true false.

Definition sample_document : list TextElement.t :=
  [TextElement.mk (chars "Annual Report 2023") 0 24 24 true false;
   TextElement.mk (chars "1. Introduction") 0 16 16 false false;
   TextElement.mk (chars "This report covers the year.") 0 12 12 false false;
   TextElement.mk (chars "It has two parts.") 1 12 12 false false].

(** A line made of one word of 101 letters. *)
Definition one_long_word : TextElement.t :=
  TextElement.mk (repeat "a"%char 101) 0 12 12 false false.

(** *** Heading scoring *)

(** [^\d+\.\d+\.?\s+] *)
Definition re_multi_level : regex :=
  Seqs [Bol; Plus d; dot; Plus d; Opt dot; Plus sp].
(** [^\d+\.?\s+] *)
Definition re_single_level : regex := Seqs [Bol; Plus d; Opt dot; Plus sp].
(** [^[A-Z]\.?\s+] *)
Definition re_lettered : regex := Seqs [Bol; AZ; Opt dot; Plus sp].
(** [^(Chapter|Section|Part)\s+\d+] *)
Definition re_chapter_section_part : regex :=
  Seqs [Bol; Alts [Word "Chapter"; Word "Section"; Word "Part"];
        Plus sp; Plus d].
(** [^(Appendix|Abstract|Introduction|Conclusion)] *)
Definition re_front_matter : regex :=
  Seq Bol (Alts [Word "Appendix"; Word "Abstract"; Word "Introduction";
                 Word "Conclusion"]).

Definition calculate_heading_score (elem : TextElement.t) (doc_stats : DocStats)
  : option Q :=
  let text := strip (TextElement.text elem) in
  let score := 0.0 in
  (* Font size factor *)
  size_ratio ← div (TextElement.max_size elem) (dominant_size doc_stats);
  let score :=
    if Qleb 2.0 size_ratio then score + 0.5
    else if Qleb 1.8 size_ratio then score + 0.45
    else if Qleb 1.5 size_ratio then score + 0.4
    else if Qleb 1.3 size_ratio then score + 0.3
    else if Qleb 1.2 size_ratio then score + 0.2
    else if Qleb 1.1 size_ratio then score + 0.1
    else score in
  (* Style factors *)
  let score := if TextElement.is_bold elem then score + 0.25 else score in
  (* Pattern factors *)
  let score :=
    if re_match re_multi_level text then score + 0.3
    else if re_match re_single_level text then score + 0.25
    else if re_match re_lettered text then score + 0.2
    else if re_match (ignore_case re_chapter_section_part) text then score + 0.35
    else if re_match (ignore_case re_front_matter) text then score + 0.3
    else score in
  (* Case patterns *)
  let word_count := length (split text) in
  let score :=
    if isupper text && (2 <=? word_count)%nat && (word_count <=? 8)%nat
    then score + 0.2
    else if istitle text && (2 <=? word_count)%nat && (word_count <=? 12)%nat
    then score + 0.15
    else score in
  (* Length considerations *)
  let score :=
    if (1 <=? word_count)%nat && (word_count <=? 15)%nat then score + 0.1
    else if (25 <? word_count)%nat then score - 0.3
    else score in
  (* Punctuation *)
  let score :=
    if endswith text (chars ":") then score + 0.15
    else if endswith text (chars ".") && (10 <? word_count)%nat then score - 0.2
    else score in
  Some (min2 score 1.0).

(** [^(Chapter|Part)\s+\d+] *)
Definition re_chapter_part : regex :=
  Seqs [Bol; Alts [Word "Chapter"; Word "Part"]; Plus sp; Plus d].
(** [^Section\s+\d+] *)
Definition re_section : regex := Seqs [Bol; Word "Section"; Plus sp; Plus d].
(** [^\d+\.\d+] *)
Definition re_dotted : regex := Seqs [Bol; Plus d; dot; Plus d].

Definition determine_heading_level (elem : TextElement.t)
    (thresholds : Thresholds) (text : list ascii) : string :=
  let size := TextElement.max_size elem in
  (* Primary classification by size *)
  let base_level :=
    if Qleb (h1 thresholds) size then "H1"%string
    else if Qleb (h2 thresholds) size then "H2"%string
    else "H3"%string in
  (* Pattern-based adjustments *)
  if re_match (ignore_case re_chapter_part) text then "H1"%string
  else if re_match (ignore_case re_section) text then "H2"%string
  else if re_match re_dotted text then "H3"%string
  else if re_match re_single_level text
          && negb (bool_decide (base_level = "H3"%string))
  then "H2"%string
  else if bool_decide (lower text ∈ [chars "abstract"; chars "introduction";
                                     chars "conclusion"; chars "references"])
  then "H1"%string
  else base_level.

(** *** post_process_outline *)

Definition dedup_key (item : Candidate.t) : list ascii * nat :=
  (strip (lower (Candidate.text item)), Candidate.page item).

(** The loop that removes duplicates; [seen] is the set of keys met. *)
Fixpoint remove_duplicates (seen : gset (list ascii * nat))
    (outline : list Candidate.t) : list Candidate.t :=
  match outline with
  | [] => []
  | item :: rest =>
      let key := dedup_key item in
      if decide (key ∈ seen) then remove_duplicates seen rest
      else item :: remove_duplicates ({[key]} ∪ seen) rest
  end.

Definition max_per_page : nat := 5.

(** The loop that applies the limit per page; [page_counts] is the
    [defaultdict(int)] of the entries kept on each page. *)
Fixpoint apply_limits (page_counts : gmap nat nat)
    (unique_outline : list Candidate.t) : list Candidate.t :=
  match unique_outline with
  | [] => []
  | item :: rest =>
      let page := Candidate.page item in
      if (page_counts !!! page <? max_per_page)%nat
         && Qleb 0.7 (Candidate.confidence item)
      then item :: apply_limits (<[page := (page_counts !!! page + 1)%nat]> page_counts) rest
      else apply_limits page_counts rest
  end.

Definition sort_key (x : Candidate.t) : nat * Q :=
  (Candidate.page x, - Candidate.confidence x).

(** The last step of [post_process_outline], the global limit. *)
Definition global_limit (filtered_outline : list Candidate.t)
  : list Candidate.t :=
  if (20 <? length filtered_outline)%nat then
    let filtered_outline :=
      sort_reverse Qltb Candidate.confidence filtered_outline in
    let filtered_outline := take 20 filtered_outline in
    sort Nat.ltb Candidate.page filtered_outline
  else filtered_outline.

Definition post_process_outline (outline : list Candidate.t) : list Candidate.t :=
  match outline with
  | [] => outline
  | _ =>
      (* Remove duplicates *)
      let unique_outline := remove_duplicates ∅ outline in
      (* Sort by page and confidence *)
      let unique_outline := sort pair_ltb sort_key unique_outline in
      (* Apply limits for precision *)
      let filtered_outline := apply_limits ∅ unique_outline in
      (* Global limit *)
      global_limit filtered_outline
  end.

(** The entries of [l] on page [p]. *)
Definition on_page (p : nat) (l : list Candidate.t) : list Candidate.t :=
  filter (fun c => Candidate.page c = p) l.

(** *** extract_document_outline *)

(** The loop of [extract_document_outline]: the headings appended to
    [outline] before post-processing. *)
Fixpoint heading_candidates (text_elements : list TextElement.t)
    (doc_stats : DocStats) : option (list Candidate.t) :=
  match text_elements with
  | [] => Some []
  | elem :: rest =>
      let text := strip (TextElement.text elem) in
      if (length text <? 2)%nat then heading_candidates rest doc_stats
      else
        heading_score ← calculate_heading_score elem doc_stats;
        if Qleb 0.7 heading_score then
          let level :=
            determine_heading_level elem (size_thresholds doc_stats) text in
          more ← heading_candidates rest doc_stats;
          Some (Candidate.mk level text (TextElement.page elem) heading_score
                  :: more)
        else heading_candidates rest doc_stats
  end.

(** [item.pop("confidence", None)] *)
Definition pop_confidence (item : Candidate.t) : OutlineEntry.t :=
  OutlineEntry.mk (Candidate.level item) (Candidate.text item)
    (Candidate.page item).

Definition extract_document_outline (text_elements : list TextElement.t)
    (doc_stats : DocStats) : option (list OutlineEntry.t) :=
  outline ← heading_candidates text_elements doc_stats;
  let outline := post_process_outline outline in
  Some (map pop_confidence outline).

(** *** The batch *)

Definition fallback : Result := {| title := Document; outline := [] |}.

(** [s.replace(old, new)]: the occurrences of [old] from left to right,
    none overlapping.  [skip] counts the characters of the last
    occurrence still to pass; [old] is not empty. *)
Fixpoint replace_aux (old new : list ascii) (skip : nat) (s : list ascii)
  : list ascii :=
  match s with
  | [] => []
  | c :: s' =>
      match skip with
      | S skip' => replace_aux old new skip' s'
      | O =>
          if startswith s old
          then new ++ replace_aux old new (length old - 1) s'
          else c :: replace_aux old new O s'
      end
  end.

Definition replace (s old new : list ascii) : list ascii :=
  replace_aux old new O s.

(** A result is well formed when every level of its outline is one of
    H1, H2, H3. *)
Definition well_formed (result : Result) : Prop :=
  Forall (fun e => OutlineEntry.level e ∈ ["H1"; "H2"; "H3"]%string)
    (outline result).

Section Batch.

(** The layout extraction, which the pipeline takes as given:
    [fitz.open] followed by [extract_formatted_text], on the file of a
    given name.  [None] stands for a raised exception. *)
Variable extract_formatted_text : list ascii -> option (list TextElement.t).

Definition extract_document_structure (pdf_path : list ascii) : option Result :=
  text_elements ← extract_formatted_text pdf_path;
  let doc_stats := analyze_document_statistics text_elements in
  title ← extract_document_title text_elements doc_stats;
  outline ← extract_document_outline text_elements doc_stats;
  Some {| title := title; outline := outline |}.

(** The body of the loop of [process_all_pdfs]: the file written for
    one document, as a pair of its name and its content. *)
Definition process_pdf (pdf_file : list ascii) : list ascii * Result :=
  let output_file := replace pdf_file (chars ".pdf") (chars ".json") in
  match extract_document_structure pdf_file with
  | Some result => (output_file, result)
  | None => (output_file, fallback)
  end.

(** [process_all_pdfs]: [listing] is [os.listdir(input_dir)], the
    result is the sequence of files written, in order. *)
Definition process_all_pdfs (listing : list (list ascii))
  : list (list ascii * Result) :=
  let pdf_files := List.filter (fun f => endswith f (chars ".pdf")) listing in
  map process_pdf pdf_files.

(** What is to be written for the document [pdf_file]: the structure
    extracted from it, or the fallback when the extraction raises, in
    the file named after it. *)
Definition written_for (pdf_file : list ascii) (written : list ascii * Result)
  : Prop :=
  written.1 = replace pdf_file (chars ".pdf") (chars ".json")
  /\ well_formed written.2
  /\ match extract_document_structure pdf_file with
     | Some result => written.2 = result
     | None => written.2 = fallback
     end.

End Batch.

End Round1A.

(** ** Round 1B: persona-driven section ranking *)

Module Round1B.
Import PyStr Re Py.

Local Open Scope Q_scope.

(** One line of text as [extract_pdf_content] builds it (the bounding
    box is read by no function). *)
Module Element.
Record t : Type := mk {
  text : list ascii;
  avg_size : Q;
  is_bold : bool;
  is_italic : bool;
  page : nat
}.
End Element.

Record DocAnalysis : Type := {
  primary_size : Q;
  heading_threshold : Q
}.

(** A section; [rank] is absent until [rank_and_select] sets it. *)
Module Section_.
Record t : Type := mk {
  title : list ascii;
  content : list ascii;
  document : string;
  page : nat;
  section_type : string;
  relevance_score : Q;
  rank : option nat
}.
End Section_.

(** *** PersonaAnalyzer.extract_expertise_areas *)

(** [computational biology|drug discovery] *)
Definition re_biology : regex :=
  Alt (Word "computational biology") (Word "drug discovery").
(** [investment|financial|analyst] *)
Definition re_finance : regex :=
  Alts [Word "investment"; Word "financial"; Word "analyst"].
(** [chemistry|organic|student] *)
Definition re_chemistry : regex :=
  Alts [Word "chemistry"; Word "organic"; Word "student"].
(** [\b[a-zA-Z]{4,}\b] *)
Definition re_long_word : regex := Seqs [WordB; AtLeast 4 azAZ; WordB].

Definition common_words : list (list ascii) :=
  map chars ["the"; "and"; "for"; "are"; "but"; "not"; "you"; "all"; "can";
             "had"]%string.

(** The domain-specific extraction of [extract_expertise_areas]: the
    keywords its three tests add to [expertise_keywords]. *)
Definition domain_keywords (persona : list ascii) : list (list ascii) :=
  let expertise_keywords := [] in
  let expertise_keywords :=
    if re_search (ignore_case re_biology) persona
    then expertise_keywords
         ++ map chars ["computational"; "biology"; "drug"; "discovery";
                       "methodology"; "datasets"]%string
    else expertise_keywords in
  let expertise_keywords :=
    if re_search (ignore_case re_finance) persona
    then expertise_keywords
         ++ map chars ["financial"; "investment"; "revenue"; "market";
                       "analysis"]%string
    else expertise_keywords in
  let expertise_keywords :=
    if re_search (ignore_case re_chemistry) persona
    then expertise_keywords
         ++ map chars ["chemistry"; "organic"; "reaction"; "kinetics";
                       "mechanisms"]%string
    else expertise_keywords in
  expertise_keywords.

(** The list [expertise_keywords] before it is turned into a set. *)
Definition expertise_keywords (persona : list ascii) : list (list ascii) :=
  (* Domain-specific extraction *)
  let expertise_keywords := domain_keywords persona in
  (* General keyword extraction *)
  let words := re_findall re_long_word (lower persona) in
  expertise_keywords
  ++ List.filter (fun w => negb (bool_decide (w ∈ common_words))) words.

(** [extract_expertise_areas] returns [list(set(expertise_keywords))],
    a list whose order Python leaves open: the result is the set. *)
Definition extract_expertise_areas (persona : list ascii) : gset (list ascii) :=
  list_to_set (expertise_keywords persona).

(** *** DocumentProcessor *)

Definition analyze_document_structure
    (pages_content : list (nat * list Element.t)) : DocAnalysis :=
  let all_elements := concat (map snd pages_content) in
  match map Element.avg_size all_elements with
  | [] => {| primary_size := 12; heading_threshold := 14 |}
  | first :: rest =>
      let sizes := first :: rest in
      let size_counter := Counter sizes in
      let primary_size :=
        match size_counter with
        | e :: c => fst (most_common1 e c)
        | [] => first
        end in
      {| primary_size := primary_size;
         heading_threshold := primary_size * 1.2 |}
  end.

(** [^\d+\.?\s+[A-Z]] *)
Definition re_numbered_start : regex := Seqs [Bol; Plus d; Opt dot; Plus sp; AZ].
(** [^[A-Z][A-Z\s]+$] *)
Definition re_all_caps : regex :=
  Seqs [Bol; AZ; Plus (Chr (fun c => is_AZ c || isspace c)); Eol].
(** [^(Chapter|Section|Abstract|Introduction|Conclusion|Methodology)$] *)
Definition re_keyword_line : regex :=
  Seqs [Bol;
        Alts [Word "Chapter"; Word "Section"; Word "Abstract";
              Word "Introduction"; Word "Conclusion"; Word "Methodology"];
        Eol].

Definition patterns : list regex :=
  [re_numbered_start; re_all_caps; re_keyword_line].

Definition is_section_heading (elem : Element.t) (doc_analysis : DocAnalysis)
  : bool :=
  let text := strip (Element.text elem) in
  (* Size check *)
  if Qleb (heading_threshold doc_analysis) (Element.avg_size elem) then true
  (* Style check *)
  else if Element.is_bold elem && (length (split text) <=? 15)%nat then true
  (* Pattern check *)
  else existsb (fun pattern => re_match (ignore_case pattern) text) patterns.

(** The heading test as the specification words it: the first two
    patterns as they are written, the keyword pattern alone without
    regard to case. *)
Definition heading_test_as_stated (elem : Element.t) (doc_analysis : DocAnalysis)
  : bool :=
  let text := strip (Element.text elem) in
  Qleb (heading_threshold doc_analysis) (Element.avg_size elem)
  || (Element.is_bold elem && (length (split text) <=? 15)%nat)
  || re_match re_numbered_start text
  || re_match re_all_caps text
  || re_match (ignore_case re_keyword_line) text.

(** *** SectionRanker.rank_and_select *)

Definition max_sections : nat := 10.
Definition min_score : Q := 0.3.
Definition max_per_doc : nat := 3.

(** The selection loop; [selected] and [doc_counts] are its two
    variables.  Leaving the recursion is the [break]. *)
Fixpoint select (ranked_sections : list Section_.t) (selected : list Section_.t)
    (doc_counts : gmap string nat) : list Section_.t :=
  match ranked_sections with
  | [] => selected
  | section :: rest =>
      if (max_sections <=? length selected)%nat then selected
      else if Qltb (Section_.relevance_score section) min_score
      then select rest selected doc_counts
      else
        let doc_name := Section_.document section in
        if (max_per_doc <=? doc_counts !!! doc_name)%nat
        then select rest selected doc_counts
        else select rest (selected ++ [section])
               (<[doc_name := (doc_counts !!! doc_name + 1)%nat]> doc_counts)
  end.

(** [section("rank") = i + 1] *)
Definition set_rank (i : nat) (section : Section_.t) : Section_.t :=
  Section_.mk (Section_.title section) (Section_.content section)
    (Section_.document section) (Section_.page section)
    (Section_.section_type section) (Section_.relevance_score section)
    (Some (i + 1)%nat).

(** The scored sections are the copies [score_sections] makes, one
    dictionary each, so the assignment of a rank reaches each selected
    section once. *)
Definition rank_and_select (scored_sections : list Section_.t)
  : list Section_.t :=
  match scored_sections with
  | [] => []
  | _ =>
      (* Sort by relevance score *)
      let ranked_sections :=
        sort_reverse Qltb Section_.relevance_score scored_sections in
      (* Select with diversity *)
      let selected := select ranked_sections [] ∅ in
      (* Add ranking *)
      imap set_rank selected
  end.

(** A document of two lines in size 10, neither of them bold. *)
Definition hello_world : Element.t :=
  Element.mk (chars "hello world") 10 false false 0.

Definition plain_page : list (nat * list Element.t) :=
  [(0%nat, [hello_world;
            Element.mk (chars "Some body text, with a comma.") 10 false false 0])].

(** The names of the documents of [l] that equal [doc]. *)
Definition from_document (doc : string) (l : list Section_.t) : list string :=
  filter (fun name => name = doc) (Section_.document <$> l).

End Round1B.

(** ** Round 1A: the lines [extract_document_outline] scores *)

Module Round1AMore.
Import PyStr Py.

(** An element whose text can be a heading: at least 2 characters once
    trimmed. *)
Definition heading_text_valid (elem : Round1A.TextElement.t) : Prop :=
  (2 <= length (strip (Round1A.TextElement.text elem)))%nat.

Global Instance heading_text_valid_dec elem : Decision (heading_text_valid elem).
Proof. unfold heading_text_valid. apply _. Defined.

(** A document of a bold one-letter line in size 24 above two lines of
    body text in size 12: its dominant size is 12. *)
Definition one_letter_document : list Round1A.TextElement.t :=
  [Round1A.one_letter;
   Round1A.TextElement.mk (chars "This report covers the year.") 0 12 12
     false false;
   Round1A.TextElement.mk (chars "It has two parts.") 0 12 12 false false].


(** Two lines with the same text, the second one larger and bold. *)
Definition numbered_heading : Round1A.TextElement.t :=
  Round1A.TextElement.mk (chars "1. Introduction") 0 16 16 false false.

Definition numbered_heading_bold : Round1A.TextElement.t :=
  Round1A.TextElement.mk (chars "1. Introduction") 0 18 18 true false.

(** The title candidates of the sample document, with their scores. *)
Definition sample_title_candidates : list (Q * list ascii) :=
  Eval vm_compute in
    default []
      (Round1A.title_candidates 0 Round1A.sample_document
         (Round1A.analyze_document_statistics Round1A.sample_document)).

(** The outline of the sample document. *)
Definition sample_outline : list Round1A.OutlineEntry.t :=
  [Round1A.OutlineEntry.mk "H1" (chars "Annual Report 2023") 0;
   Round1A.OutlineEntry.mk "H2" (chars "1. Introduction") 0].

End Round1AMore.

(** ** Layout extraction: [extract_formatted_text], [extract_pdf_content]

    The dictionaries PyMuPDF returns for a page: a span with its text,
    size and flags, each of which [span.get] may find missing; a line
    with its spans; a block, which has lines or, for an image, none.
    The bounding boxes are left out: no function reads them. *)

Module Layout.
Import PyStr Py.

Local Open Scope Q_scope.

Record Span : Type := {
  span_text : option (list ascii);
  span_size : option Q;
  span_flags : option Z
}.

Record Line : Type := { spans : list Span }.

(** A block is [Some lines] when the key "lines" is in it. *)
Definition Block : Type := option (list Line).

(** A page is the list [blocks.get("blocks", (empty list))]. *)
Definition Page : Type := list Block.

(** [span.get("text", "").strip()], [span.get("size", 12)],
    [span.get("flags", 0)]. *)
Definition text_of (span : Span) : list ascii :=
  strip (default [] (span_text span)).
Definition size_of (span : Span) : Q := default 12 (span_size span).
Definition flags_of (span : Span) : Z := default 0%Z (span_flags span).

(** The loop over the spans of a line: the text of the line, the font
    sizes and the style flags of the spans whose text is not blank. *)
Fixpoint read_spans (spans : list Span) : list ascii * list Q * list Z :=
  match spans with
  | [] => ([], [], [])
  | span :: rest =>
      let '(line_text, font_sizes, style_flags) := read_spans rest in
      let text := text_of span in
      match text with
      | [] => (line_text, font_sizes, style_flags)
      | _ => (text ++ chars " " ++ line_text,
              size_of span :: font_sizes,
              flags_of span :: style_flags)
      end
  end.

(** [statistics.mean] of a non-empty list. *)
Definition mean (first : Q) (rest : list Q) : Q :=
  fold_left Qplus rest first / inject_Z (Z.of_nat (S (length rest))).

(** [any(flag & 2**n for flag in style_flags)] *)
Definition any_flag (n : Z) (style_flags : list Z) : bool :=
  existsb (fun flag => negb (Z.land flag (2 ^ n) =? 0)%Z) style_flags.

(** The element [extract_formatted_text] appends for one line, if any. *)
Definition line_element (page_num : nat) (line : Line)
  : option Round1A.TextElement.t :=
  let '(line_text, font_sizes, style_flags) := read_spans (spans line) in
  match strip line_text with
  | [] => None
  | text =>
      Some (Round1A.TextElement.mk text page_num
              match font_sizes with
              | first :: rest => mean first rest
              | [] => 12
              end
              match font_sizes with
              | first :: rest => max_list first rest
              | [] => 12
              end
              (any_flag 4 style_flags)
              (any_flag 6 style_flags))
  end.

(** The spans of a line whose text is not blank. *)
Definition nonblank_spans (line : Line) : list Span :=
  List.filter (fun span => negb (bool_decide (text_of span = []))) (spans line).

(** The text of the line as the loop over the spans builds it. *)
Definition spaced (texts : list (list ascii)) : list ascii :=
  concat (map (fun text => text ++ chars " ") texts).

(** The lines of a page, block after block. *)
Definition page_lines (page : Page) : list Line :=
  concat (map (fun block => default [] block) page).

(** [extract_formatted_text]: [doc] is the list of the pages. *)
Definition extract_formatted_text (doc : list Page)
  : list Round1A.TextElement.t :=
  concat (imap (fun page_num page =>
                  omap (line_element page_num) (page_lines page)) doc).

(** The element [extract_pdf_content] appends for one line, if any. *)
Definition page_element (page_num : nat) (line : Line)
  : option Round1B.Element.t :=
  let '(line_text, font_sizes, style_flags) := read_spans (spans line) in
  match strip line_text with
  | [] => None
  | text =>
      Some (Round1B.Element.mk text
              match font_sizes with
              | first :: rest => mean first rest
              | [] => 12
              end
              (any_flag 4 style_flags)
              (any_flag 6 style_flags)
              page_num)
  end.

(** [extract_pdf_content]: the entry "pages" of its result, a page
    number with the elements of the page. *)
Definition extract_pdf_content (doc : list Page)
  : list (nat * list Round1B.Element.t) :=
  imap (fun page_num page =>
          (page_num, omap (page_element page_num) (page_lines page))) doc.

(** A line of Round 1A as Round 1B holds it. *)
Definition to_element (elem : Round1A.TextElement.t) : Round1B.Element.t :=
  Round1B.Element.mk (Round1A.TextElement.text elem)
    (Round1A.TextElement.avg_size elem) (Round1A.TextElement.is_bold elem)
    (Round1A.TextElement.is_italic elem) (Round1A.TextElement.page elem).

(** A document of two pages: a bold title in size 24 and a line of
    body text, then a line of two spans around a blank one. *)
Definition sample_pdf : list Page :=
  [[Some [{| spans := [{| span_text := Some (chars "Annual Report 2023");
                          span_size := Some 24; span_flags := Some 16%Z |}] |};
          {| spans := [{| span_text := Some (chars "This report covers the year.");
                          span_size := Some 12; span_flags := Some 0%Z |}] |}];
     None];
    [Some [{| spans := [{| span_text := Some (chars " It has");
                           span_size := Some 12; span_flags := None |};
                        {| span_text := Some (chars "  ");
                           span_size := Some 30; span_flags := None |};
                        {| span_text := Some (chars "two parts. ");
                           span_size := None; span_flags := Some 2%Z |}] |}]]].

(** The structure extracted from [sample_pdf]. *)
Definition sample_result : Round1A.Result :=
  {| Round1A.title := chars "Annual Report 2023";
     Round1A.outline :=
       [Round1A.OutlineEntry.mk "H1" (chars "Annual Report 2023") 0] |}.

End Layout.

(** ** Round 1B: the rest of [PersonaAnalyzer] *)

Module PersonaAnalyzer.
Import PyStr Re Py.

Local Open Scope Q_scope.

(** [sub in s] on strings. *)
Fixpoint contains (s sub : list ascii) : bool :=
  startswith s sub
  || match s with
     | [] => false
     | _ :: s' => contains s' sub
     end.

(** [any(term in s for term in terms)] *)
Definition any_in (s : list ascii) (terms : list string) : bool :=
  existsb (fun term => contains s (chars term)) terms.

Definition classify_persona_type (persona : list ascii) : string :=
  let persona_lower := lower persona in
  if any_in persona_lower ["researcher"; "phd"; "scientist"; "academic"]%string
  then "academic_researcher"%string
  else if any_in persona_lower
            ["analyst"; "investment"; "financial"; "business"]%string
  then "business_analyst"%string
  else if any_in persona_lower ["student"; "undergraduate"; "graduate"]%string
  then "student"%string
  else if any_in persona_lower ["engineer"; "developer"; "technical"]%string
  then "technical_professional"%string
  else "general_professional"%string.

(** The first match of a pattern [pre(grp)] at the current position:
    the text from the start of the group on, and the text left after
    the match. *)
Definition match_group_here (pre grp : regex) (prev : option ascii)
    (s : list ascii) : option (list ascii * list ascii) :=
  run pre prev s (fun p s1 => run grp p s1 (fun _ s2 => Some (s1, s2))).

(** [re.findall] for a pattern [pre(grp)] with its one group at the
    end: the text of the group in each match. *)
Fixpoint findall_group_from (pre grp : regex) (skip : nat)
    (prev : option ascii) (s : list ascii) : list (list ascii) :=
  match skip with
  | S skip' =>
      match s with
      | [] => []
      | c :: s' => findall_group_from pre grp skip' (Some c) s'
      end
  | O =>
      match match_group_here pre grp prev s with
      | Some (s1, s2) =>
          take (length s1 - length s2) s1 ::
            match s with
            | [] => []
            | c :: s' =>
                findall_group_from pre grp (pred (length s - length s2))
                  (Some c) s'
            end
      | None =>
          match s with
          | [] => []
          | c :: s' => findall_group_from pre grp O (Some c) s'
          end
      end
  end.

Definition re_findall_group (pre grp : regex) (s : list ascii)
  : list (list ascii) :=
  findall_group_from pre grp O None s.

Definition w : regex := Chr isword.                              (* \w *)

(** [analyze?\s+(\w+)], [identify\s+(\w+)], [prepare\s+(\w+)]: the
    part before the group; the group is [\w+] in each. *)
Definition action_patterns : list regex :=
  [Seqs [Word "analyz"; Opt (Lit "e"%char); Plus sp];
   Seqs [Word "identify"; Plus sp];
   Seqs [Word "prepare"; Plus sp]].

(** The list [priorities] before it is turned into a set. *)
Definition job_priorities_list (job_description : list ascii)
  : list (list ascii) :=
  let priorities := [] in
  let job_lower := lower job_description in
  let priorities :=
    if contains job_lower (chars "literature review")
    then priorities
         ++ map chars ["methodology"; "datasets"; "performance";
                       "benchmarks"]%string
    else priorities in
  let priorities :=
    if contains job_lower (chars "revenue trends")
    then priorities
         ++ map chars ["revenue"; "trends"; "financial"; "analysis"]%string
    else priorities in
  let priorities :=
    if contains job_lower (chars "exam preparation")
    then priorities
         ++ map chars ["concepts"; "mechanisms"; "key"; "important"]%string
    else priorities in
  (* Extract action keywords *)
  fold_left
    (fun priorities pattern =>
       priorities
       ++ re_findall_group (ignore_case pattern) (ignore_case (Plus w))
            job_description)
    action_patterns priorities.

(** [analyze_job_priorities] returns [list(set(priorities))]: the set. *)
Definition analyze_job_priorities (job_description : list ascii)
  : gset (list ascii) :=
  list_to_set (job_priorities_list job_description).

Record ContentPreferences : Type := {
  technical_depth : Q;
  quantitative_focus : Q;
  summary_preference : Q;
  detail_preference : Q
}.

Definition infer_content_preferences (persona job : list ascii)
  : ContentPreferences :=
  let preferences :=
    {| technical_depth := 0.5; quantitative_focus := 0.5;
       summary_preference := 0.5; detail_preference := 0.5 |} in
  if contains (lower persona) (chars "researcher")
     || contains (lower persona) (chars "phd")
  then {| technical_depth := 0.9;
          quantitative_focus := quantitative_focus preferences;
          summary_preference := summary_preference preferences;
          detail_preference := 0.8 |}
  else if contains (lower persona) (chars "student")
  then {| technical_depth := 0.4;
          quantitative_focus := quantitative_focus preferences;
          summary_preference := 0.8;
          detail_preference := detail_preference preferences |}
  else if contains (lower persona) (chars "analyst")
  then {| technical_depth := technical_depth preferences;
          quantitative_focus := 0.9;
          summary_preference := summary_preference preferences;
          detail_preference := detail_preference preferences |}
  else preferences.

Record Weights : Type := {
  keyword_match : Q;
  section_type : Q;
  content_depth : Q;
  quantitative_content : Q;
  position_importance : Q
}.

Definition calculate_relevance_weights (persona_type : string) : Weights :=
  let base_weights :=
    {| keyword_match := 0.3; section_type := 0.2; content_depth := 0.2;
       quantitative_content := 0.15; position_importance := 0.15 |} in
  if bool_decide (persona_type = "academic_researcher"%string)
  then {| keyword_match := 0.25;
          section_type := section_type base_weights;
          content_depth := 0.3;
          quantitative_content := quantitative_content base_weights;
          position_importance := position_importance base_weights |}
  else if bool_decide (persona_type = "business_analyst"%string)
  then {| keyword_match := 0.3;
          section_type := section_type base_weights;
          content_depth := content_depth base_weights;
          quantitative_content := 0.35;
          position_importance := position_importance base_weights |}
  else base_weights.

Record Profile : Type := {
  persona_type : string;
  expertise_areas : gset (list ascii);
  job_priorities : gset (list ascii);
  content_preferences : ContentPreferences;
  relevance_weights : Weights
}.

Definition create_persona_profile (persona job_to_be_done : list ascii)
  : Profile :=
  let persona_type := classify_persona_type persona in
  let expertise_areas := Round1B.extract_expertise_areas persona in
  let job_priorities := analyze_job_priorities job_to_be_done in
  let content_preferences :=
    infer_content_preferences persona job_to_be_done in
  {| persona_type := persona_type;
     expertise_areas := expertise_areas;
     job_priorities := job_priorities;
     content_preferences := content_preferences;
     relevance_weights := calculate_relevance_weights persona_type |}.

End PersonaAnalyzer.

(** ** Round 1B: the rest of [DocumentProcessor] *)

Module DocumentProcessor.
Import PyStr Re Py PersonaAnalyzer.

Local Open Scope Q_scope.

(** A section as [extract_document_sections] builds it; the relevance
    score and the rank are added later. *)
Module RawSection.
Record t : Type := mk {
  title : list ascii;
  content : list ascii;
  document : string;
  page : nat;
  section_type : string
}.
End RawSection.

(** A document as [extract_documents] builds it: its name and the
    pages of its content. *)
Record Doc : Type := {
  name : string;
  pages : list (nat * list Round1B.Element.t)
}.

Definition classify_section_type (text : list ascii) : string :=
  let text_lower := lower text in
  if any_in text_lower ["abstract"; "summary"]%string then "abstract"%string
  else if any_in text_lower ["introduction"; "background"]%string
  then "introduction"%string
  else if any_in text_lower ["methodology"; "methods"]%string
  then "methodology"%string
  else if any_in text_lower ["results"; "findings"]%string
  then "results"%string
  else if any_in text_lower ["discussion"; "analysis"]%string
  then "discussion"%string
  else if any_in text_lower ["conclusion"]%string then "conclusion"%string
  else "general"%string.

(** [current_section and current_section("content").strip()] *)
Definition has_content (current_section : option RawSection.t) : bool :=
  match current_section with
  | Some section =>
      negb (bool_decide (strip (RawSection.content section) = []))
  | None => false
  end.

(** [current_section("content") += text + " "] *)
Definition add_content (section : RawSection.t) (text : list ascii)
  : RawSection.t :=
  RawSection.mk (RawSection.title section)
    (RawSection.content section ++ text ++ chars " ")
    (RawSection.document section) (RawSection.page section)
    (RawSection.section_type section).

(** [if current_section and current_section("content").strip():
    sections.append(current_section)], which saves the previous section
    at a heading and adds the final section after the loops. *)
Definition add_section (sections : list RawSection.t)
    (current_section : option RawSection.t) : list RawSection.t :=
  match current_section with
  | Some section =>
      if has_content current_section then sections ++ [section] else sections
  | None => sections
  end.

(** The two nested loops of [extract_document_sections], over the
    elements with their page numbers; [sections] and [current_section]
    are the two variables. *)
Fixpoint scan (doc_name : string) (doc_analysis : Round1B.DocAnalysis)
    (elements : list (nat * Round1B.Element.t))
    (sections : list RawSection.t) (current_section : option RawSection.t)
  : list RawSection.t * option RawSection.t :=
  match elements with
  | [] => (sections, current_section)
  | (page_num, elem) :: rest =>
      let text := strip (Round1B.Element.text elem) in
      match text with
      | [] => scan doc_name doc_analysis rest sections current_section
      | _ =>
          if Round1B.is_section_heading elem doc_analysis then
            (* Save previous section *)
            let sections := add_section sections current_section in
            (* Start new section *)
            scan doc_name doc_analysis rest sections
              (Some (RawSection.mk text [] doc_name page_num
                       (classify_section_type text)))
          else
            (* Add to current section *)
            scan doc_name doc_analysis rest sections
              (option_map (fun section => add_content section text)
                 current_section)
      end
  end.

(** The elements of the pages, each with the number of its page. *)
Definition page_elements (pages_content : list (nat * list Round1B.Element.t))
  : list (nat * Round1B.Element.t) :=
  concat (map (fun page => map (pair (fst page)) (snd page)) pages_content).

Definition extract_document_sections (document : Doc) : list RawSection.t :=
  let doc_name := name document in
  let pages_content := pages document in
  (* Analyze document structure *)
  let doc_analysis := Round1B.analyze_document_structure pages_content in
  (* Extract sections *)
  let '(sections, current_section) :=
    scan doc_name doc_analysis (page_elements pages_content) [] None in
  (* Add final section *)
  add_section sections current_section.

(** An element that starts a section: its text is not blank and it
    passes [is_section_heading]. *)
Definition starts_section (doc_analysis : Round1B.DocAnalysis)
    (elem : nat * Round1B.Element.t) : bool :=
  negb (bool_decide (strip (Round1B.Element.text elem.2) = []))
  && Round1B.is_section_heading elem.2 doc_analysis.

(** The content gathered from the elements after a heading: the text
    of each one that is not blank, followed by a space. *)
Definition gathered (body : list (nat * Round1B.Element.t)) : list ascii :=
  concat (map (fun elem =>
                 match strip (Round1B.Element.text elem.2) with
                 | [] => []
                 | text => text ++ chars " "
                 end) body).

(** The elements [after] a section are none, or begin with the element
    that starts the next section. *)
Definition next_starts (doc_analysis : Round1B.DocAnalysis)
    (after : list (nat * Round1B.Element.t)) : Prop :=
  match after with
  | [] => True
  | elem :: _ => starts_section doc_analysis elem = true
  end.

(** The section of the heading [heading] on page [page_num] followed
    by the elements [body]. *)
Definition section_of (doc_name : string) (page_num : nat)
    (heading : Round1B.Element.t) (body : list (nat * Round1B.Element.t))
  : RawSection.t :=
  let text := strip (Round1B.Element.text heading) in
  RawSection.mk text (gathered body) doc_name page_num
    (classify_section_type text).

(** The section open at some point of the loops, once the elements
    [body] are added to it. *)
Definition extended (section : RawSection.t)
    (body : list (nat * Round1B.Element.t)) : RawSection.t :=
  RawSection.mk (RawSection.title section)
    (RawSection.content section ++ gathered body)
    (RawSection.document section) (RawSection.page section)
    (RawSection.section_type section).

(** What the loops and the final step give from a state: the sections
    already saved, the open section closed at the next heading, and
    the sections of the headings still to come. *)
Definition closes (doc_name : string) (doc_analysis : Round1B.DocAnalysis)
    (elements : list (nat * Round1B.Element.t))
    (sections : list RawSection.t) (current_section : option RawSection.t)
    (s : RawSection.t) : Prop :=
  s ∈ sections
  \/ (exists section body after,
        current_section = Some section
        /\ elements = body ++ after
        /\ Forall (fun elem => starts_section doc_analysis elem = false) body
        /\ next_starts doc_analysis after
        /\ s = extended section body
        /\ strip (RawSection.content s) <> [])
  \/ (exists before page_num heading body after,
        elements = before ++ (page_num, heading) :: body ++ after
        /\ starts_section doc_analysis (page_num, heading) = true
        /\ Forall (fun elem => starts_section doc_analysis elem = false) body
        /\ next_starts doc_analysis after
        /\ s = section_of doc_name page_num heading body
        /\ strip (RawSection.content s) <> []).

End DocumentProcessor.

(** ** Round 1B: [RelevanceScorer] *)

Module RelevanceScorer.
Import PyStr Re Py PersonaAnalyzer DocumentProcessor.

Local Open Scope Q_scope.

(** [sum(1 for keyword in keywords if keyword.lower() in text)], the
    keywords being the list of a set. *)
Definition count_matches (keywords : gset (list ascii)) (text : list ascii)
  : nat :=
  length (List.filter (fun keyword => contains text (lower keyword))
            (elements keywords)).

(** [n / m] on integers, [m] not zero. *)
Definition ratio (n m : nat) : Q :=
  inject_Z (Z.of_nat n) / inject_Z (Z.of_nat m).

Definition calculate_keyword_score (section : RawSection.t) (profile : Profile)
  : Q :=
  let expertise_areas := expertise_areas profile in
  let job_priorities := job_priorities profile in
  let text :=
    lower (RawSection.title section ++ chars " " ++ RawSection.content section) in
  let expertise_matches := count_matches expertise_areas text in
  let priority_matches := count_matches job_priorities text in
  let expertise_score :=
    min2 (ratio expertise_matches (Nat.max (size expertise_areas) 1)) 1.0 in
  let priority_score :=
    min2 (ratio priority_matches (Nat.max (size job_priorities) 1)) 1.0 in
  expertise_score * 0.4 + priority_score * 0.6.

(** [type_preferences.get(persona_type, (empty)).get(section_type, 0.5)] *)
Definition type_preferences : list (string * list (string * Q)) :=
  [("academic_researcher",
    [("methodology", 0.9); ("results", 0.9); ("discussion", 0.8);
     ("abstract", 0.7); ("introduction", 0.6)]);
   ("business_analyst",
    [("results", 0.9); ("discussion", 0.8); ("abstract", 0.7)]);
   ("student",
    [("introduction", 0.9); ("methodology", 0.7); ("abstract", 0.8)])]%string.

Fixpoint dict_get {V : Type} (d : list (string * V)) (key : string)
    (default : V) : V :=
  match d with
  | [] => default
  | (k, v) :: d' => if bool_decide (k = key) then v else dict_get d' key default
  end.

Definition calculate_section_type_score (section : RawSection.t)
    (profile : Profile) : Q :=
  let section_type := RawSection.section_type section in
  let persona_type := persona_type profile in
  let preferences := dict_get type_preferences persona_type [] in
  dict_get preferences section_type 0.5.

Definition calculate_content_depth_score (section : RawSection.t) : Q :=
  let word_count := length (split (RawSection.content section)) in
  if (word_count <? 50)%nat then 0.3
  else if (word_count <? 200)%nat then 0.6
  else if (word_count <? 500)%nat then 0.8
  else 1.0.

(** [\b\d+(?:\.\d+)?%?\b] *)
Definition re_number : regex :=
  Seqs [WordB; Plus d; Opt (Seq dot (Plus d)); Opt (Lit "%"%char); WordB].
(** [\b(?:mean|median|average|analysis)\b] *)
Definition re_statistical_term : regex :=
  Seqs [WordB;
        Alts [Word "mean"; Word "median"; Word "average"; Word "analysis"];
        WordB].

Definition calculate_quantitative_score (section : RawSection.t) : Q :=
  let content :=
    RawSection.title section ++ chars " " ++ RawSection.content section in
  let numbers := length (re_findall re_number content) in
  let statistical_terms :=
    length (re_findall (ignore_case re_statistical_term) content) in
  let quant_indicators := (numbers + statistical_terms * 2)%nat in
  min2 (inject_Z (Z.of_nat quant_indicators) / 5.0) 1.0.

Definition calculate_position_score (section : RawSection.t) : Q :=
  let page := RawSection.page section in
  if (page =? 0)%nat then 1.0
  else if (page <=? 2)%nat then 0.8
  else if (page <=? 5)%nat then 0.6
  else 0.4.

Definition calculate_relevance_score (section : RawSection.t)
    (persona_profile : Profile) : Q :=
  let weights := relevance_weights persona_profile in
  let keyword_score := calculate_keyword_score section persona_profile in
  let section_type_score :=
    calculate_section_type_score section persona_profile in
  let content_depth_score := calculate_content_depth_score section in
  let quantitative_score := calculate_quantitative_score section in
  let position_score := calculate_position_score section in
  let total_score :=
    keyword_score * keyword_match weights
    + section_type_score * section_type weights
    + content_depth_score * content_depth weights
    + quantitative_score * quantitative_content weights
    + position_score * position_importance weights in
  min2 total_score 1.0.

(** [section.copy()] with the entry [relevance_score] added. *)
Definition with_score (section : RawSection.t) (relevance_score : Q)
  : Round1B.Section_.t :=
  Round1B.Section_.mk (RawSection.title section) (RawSection.content section)
    (RawSection.document section) (RawSection.page section)
    (RawSection.section_type section) relevance_score None.

Definition score_sections (sections : list RawSection.t)
    (persona_profile : Profile) : list Round1B.Section_.t :=
  map (fun section =>
         let relevance_score :=
           calculate_relevance_score section persona_profile in
         with_score section relevance_score)
    sections.

End RelevanceScorer.

(** ** Round 1B: [PersonaDrivenAnalyzer] *)

Module PersonaDrivenAnalyzer.
Import PyStr Re Py PersonaAnalyzer DocumentProcessor RelevanceScorer.

Local Open Scope Q_scope.

(** The configuration: the names of the documents, the persona and the
    job to be done. *)
Record Config : Type := {
  documents : list string;
  persona : list ascii;
  job_to_be_done : list ascii
}.

Record Metadata : Type := {
  input_documents : list string;
  metadata_persona : list ascii;
  metadata_job_to_be_done : list ascii;
  processing_timestamp : string
}.

Module ExtractedSection.
Record t : Type := mk {
  document : string;
  page_number : nat;
  section_title : list ascii;
  importance_rank : nat
}.
End ExtractedSection.

Module SubSection.
Record t : Type := mk {
  document : string;
  refined_text : list ascii;
  page_number : nat
}.
End SubSection.

Record Output : Type := {
  metadata : Metadata;
  extracted_sections : list ExtractedSection.t;
  sub_section_analysis : list SubSection.t
}.

(** One entry of [extracted_sections]; reading the rank of a section
    that has none raises [KeyError]. *)
Definition extracted_section (section : Round1B.Section_.t)
  : option ExtractedSection.t :=
  rank ← Round1B.Section_.rank section;
  Some (ExtractedSection.mk (Round1B.Section_.document section)
          (Round1B.Section_.page section) (Round1B.Section_.title section)
          rank).

(** [content(:500) + "..." if len(content) > 500 else content] *)
Definition refine (content : list ascii) : list ascii :=
  if (500 <? length content)%nat then take 500 content ++ chars "..."
  else content.

Definition sub_section (section : Round1B.Section_.t) : SubSection.t :=
  SubSection.mk (Round1B.Section_.document section)
    (refine (Round1B.Section_.content section))
    (Round1B.Section_.page section).

Section Analyzer.

(** [datetime.now().isoformat()] *)
Variable now : string.

Definition generate_output (config : Config)
    (selected_sections : list Round1B.Section_.t) : option Output :=
  extracted ← mapM extracted_section selected_sections;
  Some {| metadata :=
            {| input_documents := documents config;
               metadata_persona := persona config;
               metadata_job_to_be_done := job_to_be_done config;
               processing_timestamp := now |};
          extracted_sections := extracted;
          sub_section_analysis := map sub_section (take 5 selected_sections) |}.

Definition create_fallback_output : Output :=
  {| metadata :=
       {| input_documents := [];
          metadata_persona := chars "General User";
          metadata_job_to_be_done := chars "Document Analysis";
          processing_timestamp := now |};
     extracted_sections := [];
     sub_section_analysis := [] |}.

(** The file system and PyMuPDF, which the analyzer takes as given:
    [load_configuration] with the reading of its three entries, [None]
    when one of them raises; [os.path.exists] on the path of a
    document; [extract_pdf_content], [None] when it raises. *)
Variable load_configuration : option Config.
Variable path_exists : string -> bool.
Variable extract_pdf_content :
  string -> option (list (nat * list Round1B.Element.t)).

(** [extract_documents]: a document that is missing, that is no PDF or
    whose extraction raises is left out. *)
Fixpoint extract_documents (document_list : list string) : list Doc :=
  match document_list with
  | [] => []
  | doc_name :: rest =>
      if path_exists doc_name && endswith (chars doc_name) (chars ".pdf")
      then match extract_pdf_content doc_name with
           | Some doc_content =>
               {| name := doc_name; pages := doc_content |}
                 :: extract_documents rest
           | None => extract_documents rest
           end
      else extract_documents rest
  end.

(** The test a name passes in [extract_documents]: its path exists, it
    ends with .pdf and its extraction does not raise. *)
Definition readable (doc_name : string) : bool :=
  path_exists doc_name && endswith (chars doc_name) (chars ".pdf")
  && bool_decide (is_Some (extract_pdf_content doc_name)).

(** The body of the [try] of [process_document_collection], up to the
    result to save. *)
Definition analyze : option Output :=
  (* Load configuration *)
  config ← load_configuration;
  (* Extract documents *)
  let documents := extract_documents (documents config) in
  (* Create persona profile *)
  let persona_profile :=
    create_persona_profile (persona config) (job_to_be_done config) in
  (* Extract sections *)
  let all_sections := concat (map extract_document_sections documents) in
  (* Score relevance *)
  let scored_sections := score_sections all_sections persona_profile in
  (* Rank and select *)
  let selected_sections := Round1B.rank_and_select scored_sections in
  (* Generate output *)
  generate_output config selected_sections.

(** [process_document_collection]: the content written to
    [challenge1b_output.json]. *)
Definition process_document_collection : Output :=
  match analyze with
  | Some result => result
  | None => create_fallback_output
  end.

End Analyzer.

(** A configuration with one document. *)
Definition sample_config : Config :=
  {| documents := ["report.pdf"%string];
     persona := chars "PhD researcher";
     job_to_be_done := chars "Prepare a literature review" |}.

(** Two scored sections of one document, the second below the minimum
    score. *)
Definition sample_sections : list Round1B.Section_.t :=
  [Round1B.Section_.mk (chars "Methods") (chars "We measure 3 samples. ")
     "report.pdf" 0 "methodology" 0.5 None;
   Round1B.Section_.mk (chars "Notes") (chars "Thanks. ")
     "report.pdf" 1 "general" 0.2 None].

End PersonaDrivenAnalyzer.

(** ** Round 1B: the analysis on the configuration as [json.load]
    returns it

    [load_configuration] returns whatever JSON value the configuration
    file holds: the analysis reads it without checking it, and an entry
    of the wrong type raises where it is used.  The functions below
    are the ones of [PersonaDrivenAnalyzer] that touch the
    configuration, on such a value; the rest of the analysis is the
    one above. *)

Module JsonConfig.
Import PyStr Py.

(** A value of [json.load]; a dict holds each key once, in the order
    of insertion. *)
#[local] Unset Elimination Schemes.
Inductive json : Type :=
| JNull
| JBool (b : bool)
| JNumber (x : Q)
| JString (s : string)
| JArray (items : list json)
| JObject (entries : list (string * json)).
#[local] Set Elimination Schemes.

Fixpoint lookup_entry (entries : list (string * json)) (key : string)
  : option json :=
  match entries with
  | [] => None
  | (k, v) :: rest =>
      if bool_decide (k = key) then Some v else lookup_entry rest key
  end.

(** [value(key)] for a string [key]: [KeyError] when a dict has no
    such key, [TypeError] when the value is no dict. *)
Definition subscript (value : json) (key : string) : option json :=
  match value with
  | JObject entries => lookup_entry entries key
  | _ => None
  end.

(** [for item in value]: the items of a list, the characters of a
    string, the keys of a dict; [TypeError] for a value that is not
    iterable. *)
Definition iterate (value : json) : option (list json) :=
  match value with
  | JArray items => Some items
  | JString s =>
      Some (map (fun c => JString (String c EmptyString))
              (list_ascii_of_string s))
  | JObject entries => Some (map (fun entry => JString entry.1) entries)
  | JNull | JBool _ | JNumber _ => None
  end.

Record Metadata : Type := {
  input_documents : json;
  metadata_persona : json;
  metadata_job_to_be_done : json;
  processing_timestamp : string
}.

Record Output : Type := {
  metadata : Metadata;
  extracted_sections : list PersonaDrivenAnalyzer.ExtractedSection.t;
  sub_section_analysis : list PersonaDrivenAnalyzer.SubSection.t
}.

(** [create_persona_profile]: [persona.lower()] and
    [job_description.lower()] raise [AttributeError] unless the value
    is a string. *)
Definition create_persona_profile (persona job_to_be_done : json)
  : option PersonaAnalyzer.Profile :=
  match persona with
  | JString persona =>
      match job_to_be_done with
      | JString job_to_be_done =>
          Some (PersonaAnalyzer.create_persona_profile (chars persona)
                  (chars job_to_be_done))
      | _ => None
      end
  | _ => None
  end.

Section Analyzer.

(** [datetime.now().isoformat()] *)
Variable now : string.

(** The file system and PyMuPDF, as above; [load_configuration] is
    [None] when reading or parsing the file raises. *)
Variable load_configuration : option json.
Variable path_exists : string -> bool.
Variable extract_pdf_content :
  string -> option (list (nat * list Round1B.Element.t)).

(** The loop of [extract_documents]: [os.path.join(input_dir,
    doc_name)], which stands before the [try], raises [TypeError]
    unless [doc_name] is a string. *)
Fixpoint extract_items (items : list json)
  : option (list DocumentProcessor.Doc) :=
  match items with
  | [] => Some []
  | item :: rest =>
      match item with
      | JString doc_name =>
          let extracted :=
            if path_exists doc_name && endswith (chars doc_name) (chars ".pdf")
            then match extract_pdf_content doc_name with
                 | Some doc_content =>
                     [{| DocumentProcessor.name := doc_name;
                         DocumentProcessor.pages := doc_content |}]
                 | None => []
                 end
            else [] in
          documents ← extract_items rest;
          Some (extracted ++ documents)
      | _ => None
      end
  end.

Definition extract_documents (document_list : json)
  : option (list DocumentProcessor.Doc) :=
  items ← iterate document_list;
  extract_items items.

Definition generate_output (config : json)
    (selected_sections : list Round1B.Section_.t) : option Output :=
  documents ← subscript config "documents";
  persona ← subscript config "persona";
  job_to_be_done ← subscript config "job_to_be_done";
  extracted ← mapM PersonaDrivenAnalyzer.extracted_section selected_sections;
  Some {| metadata :=
            {| input_documents := documents;
               metadata_persona := persona;
               metadata_job_to_be_done := job_to_be_done;
               processing_timestamp := now |};
          extracted_sections := extracted;
          sub_section_analysis :=
            map PersonaDrivenAnalyzer.sub_section (take 5 selected_sections) |}.

Definition create_fallback_output : Output :=
  {| metadata :=
       {| input_documents := JArray [];
          metadata_persona := JString "General User";
          metadata_job_to_be_done := JString "Document Analysis";
          processing_timestamp := now |};
     extracted_sections := [];
     sub_section_analysis := [] |}.

(** The body of the [try] of [process_document_collection], up to the
    result to save. *)
Definition analyze : option Output :=
  (* Load configuration *)
  config ← load_configuration;
  (* Extract documents *)
  document_list ← subscript config "documents";
  documents ← extract_documents document_list;
  (* Create persona profile *)
  persona ← subscript config "persona";
  job_to_be_done ← subscript config "job_to_be_done";
  persona_profile ← create_persona_profile persona job_to_be_done;
  (* Extract sections *)
  let all_sections :=
    concat (map DocumentProcessor.extract_document_sections documents) in
  (* Score relevance *)
  let scored_sections :=
    RelevanceScorer.score_sections all_sections persona_profile in
  (* Rank and select *)
  let selected_sections := Round1B.rank_and_select scored_sections in
  (* Generate output *)
  generate_output config selected_sections.

(** [process_document_collection]: the content written to
    [challenge1b_output.json]. *)
Definition process_document_collection : Output :=
  match analyze with
  | Some result => result
  | None => create_fallback_output
  end.

End Analyzer.

(** The strings among [items]. *)
Definition strings (items : list json) : list string :=
  omap (fun item => match item with JString s => Some s | _ => None end) items.

(** The names [extract_documents] goes through in [document_list]. *)
Definition names (document_list : json) : list string :=
  strings (default [] (iterate document_list)).

Definition is_string (value : json) : Prop := exists s, value = JString s.

(** A configuration the analysis can read: a dict whose entry
    "documents" is a list of strings, a string or a dict, and whose
    entries "persona" and "job_to_be_done" are strings. *)
Definition readable_config (config : json) : Prop :=
  exists entries documents persona job_to_be_done,
    config = JObject entries
    /\ lookup_entry entries "documents" = Some documents
    /\ lookup_entry entries "persona" = Some (JString persona)
    /\ lookup_entry entries "job_to_be_done" = Some (JString job_to_be_done)
    /\ match documents with
       | JArray items => Forall is_string items
       | JString _ | JObject _ => True
       | JNull | JBool _ | JNumber _ => False
       end.

(** The configuration [config] once its entries are read. *)
Definition typed (config : json) : PersonaDrivenAnalyzer.Config :=
  {| PersonaDrivenAnalyzer.documents :=
       names (default JNull (subscript config "documents"));
     PersonaDrivenAnalyzer.persona :=
       match subscript config "persona" with
       | Some (JString persona) => chars persona
       | _ => []
       end;
     PersonaDrivenAnalyzer.job_to_be_done :=
       match subscript config "job_to_be_done" with
       | Some (JString job_to_be_done) => chars job_to_be_done
       | _ => []
       end |}.

(** Configurations: one whose persona is [null], and a well-formed
    one. *)
Definition null_persona_config : json :=
  JObject [("documents"%string, JArray []); ("persona"%string, JNull);
           ("job_to_be_done"%string, JString "Summarize")].

Definition sample_json_config : json :=
  JObject [("documents"%string, JArray [JString "report.pdf"]);
           ("persona"%string, JString "PhD researcher");
           ("job_to_be_done"%string, JString "Prepare a literature review")].

End JsonConfig.

(** * Properties of the embedding *)

(** ** Numbers and sorting *)

Module PyFacts.
Import Py.
Local Open Scope Q_scope.

Lemma Qltb_lt (x y : Q) : Qltb x y = true <-> x < y.
Proof.
  unfold Qltb. rewrite negb_true_iff. split; intros H.
  - apply Qnot_le_lt. intros Hle. apply Qle_bool_iff in Hle. congruence.
  - destruct (Qle_bool y x) eqn:E; [|reflexivity].
    apply Qle_bool_iff in E. lra.
Qed.

Lemma Qltb_ge (x y : Q) : Qltb x y = false <-> y <= x.
Proof. unfold Qltb. rewrite negb_false_iff. apply Qle_bool_iff. Qed.

Lemma Qleb_le (x y : Q) : Qleb x y = true <-> x <= y.
Proof. apply Qle_bool_iff. Qed.

Lemma div_Some (a b : Q) : ~ b == 0 -> div a b = Some (a / b).
Proof.
  intros Hb. unfold div. destruct (Qeq_bool b 0) eqn:E; [|reflexivity].
  apply Qeq_bool_iff in E. contradiction.
Qed.

Lemma div_None (a b : Q) : b == 0 -> div a b = None.
Proof.
  intros Hb. unfold div. apply Qeq_bool_iff in Hb. now rewrite Hb.
Qed.

Lemma min2_spec (a b : Q) :
  (min2 a b = a /\ a <= b) \/ (min2 a b = b /\ b < a).
Proof.
  unfold min2. destruct (Qltb b a) eqn:E.
  - apply Qltb_lt in E. now right.
  - apply Qltb_ge in E. now left.
Qed.

Section Sort.
Context {A K : Type} (lt : K -> K -> bool) (key : A -> K).

Lemma insert_Permutation (x : A) (l : list A) : insert lt key x l ≡ₚ x :: l.
Proof.
  induction l as [|y l IH]; simpl; [done|].
  destruct (lt (key y) (key x)); [|done].
  rewrite IH. apply Permutation_swap.
Qed.

Lemma sort_Permutation (l : list A) : sort lt key l ≡ₚ l.
Proof.
  induction l as [|x l IH]; simpl; [done|].
  rewrite insert_Permutation. by rewrite IH.
Qed.

Lemma sort_sorted_id (l : list A) :
  StronglySorted (precedes lt key) l -> sort lt key l = l.
Proof.
  induction 1 as [|x l Hl IH Hx]; simpl; [done|].
  rewrite IH. destruct Hx as [|y l Hy _]; simpl; [done|].
  unfold precedes in Hy. by rewrite Hy.
Qed.

Hypothesis lt_asym : forall a b, lt a b = true -> lt b a = false.
Hypothesis le_trans : forall a b c,
  lt b a = false -> lt c b = false -> lt c a = false.

Lemma insert_sorted (x : A) (l : list A) :
  StronglySorted (precedes lt key) l ->
  StronglySorted (precedes lt key) (insert lt key x l).
Proof.
  induction 1 as [|y l Hl IH Hy]; simpl.
  - repeat constructor.
  - destruct (lt (key y) (key x)) eqn:E.
    + constructor; [done|].
      rewrite insert_Permutation. constructor; [|done].
      by apply lt_asym.
    + constructor; [by constructor|].
      constructor; [done|].
      eapply Forall_impl; [exact Hy|]. intros z Hz.
      unfold precedes in *. by eapply le_trans.
Qed.

Lemma sort_sorted (l : list A) : StronglySorted (precedes lt key) (sort lt key l).
Proof.
  induction l as [|x l IH]; simpl; [constructor|by apply insert_sorted].
Qed.

End Sort.

Lemma StronglySorted_sublist {A : Type} (R : relation A) (l k : list A) :
  l `sublist_of` k -> StronglySorted R k -> StronglySorted R l.
Proof.
  induction 1 as [|x l k Hs IH|x l k Hs IH]; intros Hk.
  - constructor.
  - apply StronglySorted_inv in Hk as [Hk Hx]. constructor; [by apply IH|].
    eapply Forall_forall. intros y Hy. rewrite Forall_forall in Hx.
    apply Hx. by eapply elem_of_sublist.
  - apply StronglySorted_inv in Hk as [Hk _]. by apply IH.
Qed.

End PyFacts.

(** ** The steps of [post_process_outline] *)

Module OutlineFacts.
Import PyStr Py PyFacts Round1A.
Local Open Scope Q_scope.

Lemma remove_duplicates_sublist seen l :
  remove_duplicates seen l `sublist_of` l.
Proof.
  revert seen. induction l as [|c l IH]; intros seen; simpl; [done|].
  destruct (decide _); [by apply sublist_cons|by apply sublist_skip].
Qed.

Lemma remove_duplicates_fresh seen l c :
  c ∈ remove_duplicates seen l -> dedup_key c ∉ seen.
Proof.
  revert seen. induction l as [|x l IH]; intros seen; simpl.
  - by intros ?%elem_of_nil.
  - destruct (decide _) as [|Hx]; [by apply IH|].
    intros [->|Hc]%elem_of_cons; [done|].
    apply IH in Hc. intros Hin. by apply Hc, elem_of_union_r.
Qed.

Lemma remove_duplicates_NoDup seen l :
  NoDup (dedup_key <$> remove_duplicates seen l).
Proof.
  revert seen. induction l as [|x l IH]; intros seen; simpl.
  - constructor.
  - destruct (decide _) as [|Hx]; [by apply IH|].
    rewrite fmap_cons. constructor; [|by apply IH].
    intros (c & Hk & Hc)%list_elem_of_fmap.
    apply remove_duplicates_fresh in Hc.
    apply Hc. rewrite <- Hk. by apply elem_of_union_l, elem_of_singleton.
Qed.

Lemma remove_duplicates_id seen l :
  NoDup (dedup_key <$> l) ->
  (forall c, c ∈ l -> dedup_key c ∉ seen) ->
  remove_duplicates seen l = l.
Proof.
  revert seen. induction l as [|x l IH]; intros seen Hnd Hseen; simpl; [done|].
  rewrite fmap_cons in Hnd. apply NoDup_cons in Hnd as [Hx Hnd].
  destruct (decide _) as [Hin|_].
  - exfalso. eapply Hseen; [apply list_elem_of_here|done].
  - f_equal. apply IH; [done|].
    intros c Hc [Heq%elem_of_singleton|Hin]%elem_of_union.
    + apply Hx, list_elem_of_fmap. by exists c.
    + eapply Hseen; [by apply list_elem_of_further|done].
Qed.

Lemma apply_limits_sublist counts l : apply_limits counts l `sublist_of` l.
Proof.
  revert counts. induction l as [|c l IH]; intros counts; simpl; [done|].
  destruct (_ && _); [by apply sublist_skip|by apply sublist_cons].
Qed.

Lemma apply_limits_confidence counts l c :
  c ∈ apply_limits counts l -> 0.7 <= Candidate.confidence c.
Proof.
  revert counts. induction l as [|x l IH]; intros counts; simpl.
  - by intros ?%elem_of_nil.
  - destruct (_ && _) eqn:E; [|by apply IH].
    intros [->|Hc]%elem_of_cons; [|by eapply IH].
    apply andb_true_iff in E as [_ E]. by apply Qleb_le.
Qed.

Lemma apply_limits_page counts l p :
  (counts !!! p <= max_per_page)%nat ->
  (counts !!! p + length (on_page p (apply_limits counts l)) <= max_per_page)%nat.
Proof.
  unfold on_page.
  revert counts. induction l as [|x l IH]; intros counts Hp; simpl; [lia|].
  destruct (_ && _) eqn:E; [|by apply IH].
  apply andb_true_iff in E as [E _]. apply Nat.ltb_lt in E.
  destruct (decide (Candidate.page x = p)) as [<-|Hne].
  - rewrite filter_cons_True by done. simpl.
    specialize (IH (<[Candidate.page x:=(counts !!! Candidate.page x + 1)%nat]> counts)).
    rewrite lookup_total_insert_eq in IH. lia.
  - rewrite filter_cons_False by done.
    specialize (IH (<[Candidate.page x:=(counts !!! Candidate.page x + 1)%nat]> counts)).
    rewrite lookup_total_insert_ne in IH by done. by apply IH.
Qed.

Lemma apply_limits_id counts l :
  (forall p, (counts !!! p + length (on_page p l) <= max_per_page)%nat) ->
  (forall c, c ∈ l -> 0.7 <= Candidate.confidence c) ->
  apply_limits counts l = l.
Proof.
  unfold on_page.
  revert counts. induction l as [|x l IH]; intros counts Hp Hc; simpl; [done|].
  assert ((counts !!! Candidate.page x <? max_per_page)%nat = true) as ->.
  { apply Nat.ltb_lt. specialize (Hp (Candidate.page x)).
    rewrite filter_cons_True in Hp by done. simpl in Hp. lia. }
  assert (Qleb 0.7 (Candidate.confidence x) = true) as ->.
  { apply Qleb_le, Hc, list_elem_of_here. }
  simpl. f_equal. apply IH.
  - intros p. specialize (Hp p).
    destruct (decide (Candidate.page x = p)) as [<-|Hne].
    + rewrite lookup_total_insert_eq.
      rewrite filter_cons_True in Hp by done. simpl in Hp. lia.
    + rewrite lookup_total_insert_ne by done.
      by rewrite filter_cons_False in Hp by done.
  - intros c Hin. by apply Hc, list_elem_of_further.
Qed.

End OutlineFacts.

(** ** [post_process_outline]: limits and idempotence *)

Module OutlineProofs.
Import PyStr Py PyFacts Round1A OutlineFacts.
Local Open Scope Q_scope.

Lemma submseteq_NoDup {A : Type} (l k : list A) : l ⊆+ k -> NoDup k -> NoDup l.
Proof.
  intros (m & Hs & Hp)%submseteq_sublist_l Hk.
  eapply sublist_NoDup; [|exact Hs]. by rewrite Hp.
Qed.

Lemma submseteq_filter {A : Type} (P : A -> Prop) `{!forall x, Decision (P x)}
    (l k : list A) :
  l ⊆+ k -> filter P l ⊆+ filter P k.
Proof.
  induction 1 as [|x l k _ IH|x y l|x l k _ IH|l k m _ IH1 _ IH2].
  - done.
  - rewrite !filter_cons. destruct (decide (P x)); [by constructor|done].
  - rewrite !filter_cons.
    destruct (decide (P x)), (decide (P y)); try done. by constructor.
  - rewrite filter_cons. destruct (decide (P x)); [by constructor|done].
  - by etrans.
Qed.

(** What [pair_ltb] says, on the keys [(page, -confidence)]. *)
Lemma pair_ltb_false (a b : nat * Q) :
  pair_ltb b a = false <->
  (fst a < fst b)%nat \/ (fst a = fst b /\ snd a <= snd b).
Proof.
  unfold pair_ltb. destruct (Nat.eqb_spec (fst b) (fst a)) as [E|E].
  - rewrite Qltb_ge. split; [intros; right; split; [done|lra]|].
    intros [?|[_ ?]]; [lia|lra].
  - rewrite Nat.ltb_ge. split; [intros; left; lia|].
    intros [?|[? _]]; [lia|congruence].
Qed.

Lemma pair_ltb_total (a b : nat * Q) : pair_ltb a b = true -> pair_ltb b a = false.
Proof.
  intros H. apply pair_ltb_false.
  destruct (pair_ltb b a) eqn:E; [|by apply pair_ltb_false].
  unfold pair_ltb in *.
  destruct (Nat.eqb_spec (fst a) (fst b)) as [E1|E1],
           (Nat.eqb_spec (fst b) (fst a)) as [E2|E2]; try congruence.
  - apply Qltb_lt in H, E. lra.
  - apply Nat.ltb_lt in H, E. lia.
Qed.

Lemma pair_ltb_trans (a b c : nat * Q) :
  pair_ltb b a = false -> pair_ltb c b = false -> pair_ltb c a = false.
Proof.
  rewrite !pair_ltb_false.
  intros [?|[? ?]] [?|[? ?]]; [left; lia|left; lia|left; lia|right].
  split; [congruence|lra].
Qed.

Lemma precedes_sort_key (x y : Candidate.t) :
  precedes pair_ltb sort_key x y <->
  (Candidate.page x < Candidate.page y)%nat
  \/ (Candidate.page x = Candidate.page y
      /\ Candidate.confidence y <= Candidate.confidence x).
Proof.
  unfold precedes. rewrite pair_ltb_false. simpl.
  split; (intros [?|[? ?]]; [by left|right; split; [done|lra]]).
Qed.

(** Sorting by page a list in descending order of confidence gives a
    list sorted by page, then by descending confidence. *)
Lemma insert_page_lex (x : Candidate.t) (l : list Candidate.t) :
  StronglySorted (precedes pair_ltb sort_key) l ->
  Forall (fun y => Candidate.confidence y <= Candidate.confidence x) l ->
  StronglySorted (precedes pair_ltb sort_key) (insert Nat.ltb Candidate.page x l).
Proof.
  induction 1 as [|y l Hl IH Hy]; intros Hx; simpl.
  - repeat constructor.
  - apply Forall_cons in Hx as [Hxy Hx].
    destruct (Nat.ltb_spec (Candidate.page y) (Candidate.page x)) as [Hlt|Hge].
    + constructor; [by apply IH|].
      rewrite insert_Permutation. constructor; [|done].
      apply precedes_sort_key. by left.
    + constructor; [by constructor|].
      assert (forall z, precedes pair_ltb sort_key y z ->
                Candidate.confidence z <= Candidate.confidence x ->
                precedes pair_ltb sort_key x z) as Hstep.
      { intros z Hyz Hzx. apply precedes_sort_key.
        apply precedes_sort_key in Hyz.
        destruct (decide (Candidate.page x = Candidate.page z));
          [by right|left]. destruct Hyz as [?|[? _]]; lia. }
      constructor.
      * apply precedes_sort_key.
        destruct (decide (Candidate.page x = Candidate.page y));
          [by right|left; lia].
      * rewrite Forall_forall in Hy, Hx. apply Forall_forall.
        intros z Hz. apply Hstep; [by apply Hy|by apply Hx].
Qed.

Lemma sort_page_lex (l : list Candidate.t) :
  StronglySorted (precedes (fun a b => Qltb b a) Candidate.confidence) l ->
  StronglySorted (precedes pair_ltb sort_key) (sort Nat.ltb Candidate.page l).
Proof.
  induction 1 as [|x l Hl IH Hx]; simpl; [constructor|].
  apply insert_page_lex; [done|].
  rewrite sort_Permutation. eapply Forall_impl; [exact Hx|].
  intros y Hy. unfold precedes in Hy. by apply Qltb_ge in Hy.
Qed.

Lemma confidence_desc_sorted (l : list Candidate.t) :
  StronglySorted (precedes (fun a b => Qltb b a) Candidate.confidence)
    (sort_reverse Qltb Candidate.confidence l).
Proof.
  apply sort_sorted.
  - intros a b Hab. apply Qltb_lt in Hab. apply Qltb_ge. lra.
  - intros a b c Hab Hbc. apply Qltb_ge in Hab, Hbc. apply Qltb_ge. lra.
Qed.

(** The steps of [post_process_outline] before the global limit. *)
Abbreviation limited outline :=
  (apply_limits ∅ (sort pair_ltb sort_key (remove_duplicates ∅ outline))).

Lemma post_process_outline_unfold (outline : list Candidate.t) :
  post_process_outline outline = global_limit (limited outline).
Proof. by destruct outline. Qed.

Lemma global_limit_submseteq l : global_limit l ⊆+ l.
Proof.
  unfold global_limit. destruct (20 <? length l)%nat; [|done].
  rewrite sort_Permutation. etrans; [apply submseteq_take|].
  apply Permutation_submseteq, sort_Permutation.
Qed.

Lemma limited_submseteq l : limited l ⊆+ remove_duplicates ∅ l.
Proof.
  etrans; [apply sublist_submseteq, apply_limits_sublist|].
  apply Permutation_submseteq, sort_Permutation.
Qed.

Lemma global_limit_length l : (length (global_limit l) <= 20)%nat.
Proof.
  unfold global_limit. destruct (Nat.ltb_spec 20 (length l)); [|done].
  rewrite sort_Permutation, length_take. lia.
Qed.

Lemma global_limit_sorted l :
  StronglySorted (precedes pair_ltb sort_key) l ->
  StronglySorted (precedes pair_ltb sort_key) (global_limit l).
Proof.
  intros Hl. unfold global_limit. destruct (20 <? length l)%nat; [|done].
  apply sort_page_lex.
  eapply StronglySorted_sublist; [apply sublist_take|].
  apply confidence_desc_sorted.
Qed.

Lemma limited_sorted l : StronglySorted (precedes pair_ltb sort_key) (limited l).
Proof.
  eapply StronglySorted_sublist; [apply apply_limits_sublist|].
  apply sort_sorted; [apply pair_ltb_total|apply pair_ltb_trans].
Qed.

Lemma post_process_page (outline : list Candidate.t) (p : nat) :
  (length (on_page p (post_process_outline outline)) <= 5)%nat.
Proof.
  rewrite post_process_outline_unfold.
  etrans; [apply submseteq_length, submseteq_filter, global_limit_submseteq|].
  pose proof (apply_limits_page ∅
    (sort pair_ltb sort_key (remove_duplicates ∅ outline)) p) as H.
  rewrite lookup_total_empty in H. unfold max_per_page in H. simpl in H.
  apply H. lia.
Qed.

Lemma post_process_length (outline : list Candidate.t) :
  (length (post_process_outline outline) <= 20)%nat.
Proof. rewrite post_process_outline_unfold. apply global_limit_length. Qed.

Lemma post_process_confidence (outline : list Candidate.t) (c : Candidate.t) :
  c ∈ post_process_outline outline -> 0.7 <= Candidate.confidence c.
Proof.
  rewrite post_process_outline_unfold. intros Hc.
  eapply apply_limits_confidence, elem_of_submseteq;
    [exact Hc|apply global_limit_submseteq].
Qed.

Lemma post_process_NoDup (outline : list Candidate.t) :
  NoDup (dedup_key <$> post_process_outline outline).
Proof.
  rewrite post_process_outline_unfold.
  eapply submseteq_NoDup; [|apply (remove_duplicates_NoDup ∅ outline)].
  apply fmap_submseteq. etrans; [apply global_limit_submseteq|].
  apply limited_submseteq.
Qed.

Lemma post_process_sorted (outline : list Candidate.t) :
  StronglySorted (precedes pair_ltb sort_key) (post_process_outline outline).
Proof.
  rewrite post_process_outline_unfold. apply global_limit_sorted, limited_sorted.
Qed.

(** A list that already meets every limit is left as it is. *)
Lemma post_process_fixed (l : list Candidate.t) :
  NoDup (dedup_key <$> l) ->
  StronglySorted (precedes pair_ltb sort_key) l ->
  (forall p, (length (on_page p l) <= 5)%nat) ->
  (forall c, c ∈ l -> 0.7 <= Candidate.confidence c) ->
  (length l <= 20)%nat ->
  post_process_outline l = l.
Proof.
  intros Hnd Hs Hp Hc Hlen.
  rewrite post_process_outline_unfold.
  rewrite remove_duplicates_id; [|done|intros; apply not_elem_of_empty].
  rewrite sort_sorted_id by done.
  rewrite apply_limits_id; [|intros p; rewrite lookup_total_empty; apply Hp|done].
  unfold global_limit. by destruct (Nat.ltb_spec 20 (length l)); [lia|].
Qed.

(** C3.  The outline returned by [post_process_outline] holds at most
    5 entries of any page and at most 20 entries in all, holds no entry
    of confidence below 0.7, and holds no two entries with the same
    pair of lowercased, trimmed text and page. *)
Theorem post_process_outline_limits (outline : list Candidate.t) :
  let result := post_process_outline outline in
  (forall p, (length (on_page p result) <= 5)%nat)
  /\ (length result <= 20)%nat
  /\ (forall c, c ∈ result -> 0.7 <= Candidate.confidence c)
  /\ NoDup (dedup_key <$> result).
Proof.
  simpl. split; [apply post_process_page|].
  split; [apply post_process_length|].
  split; [apply post_process_confidence|apply post_process_NoDup].
Qed.

(** C8.  [post_process_outline] is idempotent: applied to its own
    output, entries still carrying their confidence, it returns that
    output unchanged, hence the same set of entries. *)
Theorem post_process_outline_idempotent (outline : list Candidate.t) :
  post_process_outline (post_process_outline outline)
  = post_process_outline outline.
Proof.
  apply post_process_fixed.
  - apply post_process_NoDup.
  - apply post_process_sorted.
  - apply post_process_page.
  - apply post_process_confidence.
  - apply post_process_length.
Qed.

End OutlineProofs.

(** ** Strings: [split], [join] and the collapse of whitespace *)

Module PyStrFacts.
Import PyStr Round1A.

Lemma rstrip_snoc (s : list ascii) (c : ascii) :
  rstrip (s ++ [c]) = if isspace c then rstrip s else s ++ [c].
Proof.
  unfold rstrip. rewrite rev_app_distr. simpl.
  destruct (isspace c); [done|]. simpl. by rewrite rev_involutive.
Qed.

Lemma rstrip_word (pre w : list ascii) : is_token w -> rstrip (pre ++ w) = pre ++ w.
Proof.
  intros [Hne Hw]. destruct (rev w) as [|c w'] eqn:E.
  { apply (f_equal (@rev ascii)) in E. rewrite rev_involutive in E. done. }
  assert (w = rev w' ++ [c]) as ->.
  { rewrite <- (rev_involutive w), E. done. }
  rewrite app_assoc, rstrip_snoc.
  apply Forall_app in Hw as [_ Hc]. apply Forall_cons in Hc as [-> _]. done.
Qed.

Lemma rstrip_word_space (pre w : list ascii) :
  is_token w -> rstrip (pre ++ w ++ [" "%char]) = pre ++ w.
Proof.
  intros Hw. rewrite app_assoc, rstrip_snoc. simpl. by apply rstrip_word.
Qed.

Lemma is_token_rev_cons (c : ascii) (cur : list ascii) :
  isspace c = false -> Forall (fun c => isspace c = false) cur ->
  is_token (rev (c :: cur)).
Proof.
  intros Hc Hcur. split.
  - simpl. by destruct (rev cur).
  - apply Forall_forall. intros x Hx%list_elem_of_In%in_rev.
    apply list_elem_of_In in Hx. revert x Hx. apply Forall_forall.
    by constructor.
Qed.

Lemma split_aux_nonempty (c : ascii) (cur s : list ascii) :
  split_aux (c :: cur) s <> [].
Proof.
  revert c cur. induction s as [|d s IH]; intros c cur; simpl; [done|].
  destruct (isspace d); [done|apply IH].
Qed.

Lemma join_cons (sep w : list ascii) (ws : list (list ascii)) :
  ws <> [] -> join sep (w :: ws) = w ++ sep ++ join sep ws.
Proof. by destruct ws. Qed.

(** The two states of [collapse_whitespace_aux] against [split_aux]:
    inside a word, and after the space that closed a word. *)
Lemma collapse_split (s : list ascii) :
  (forall pre c cur,
      isspace c = false -> Forall (fun c => isspace c = false) cur ->
      rstrip (pre ++ rev (c :: cur) ++ collapse_whitespace_aux false s)
      = pre ++ join (chars " ") (split_aux (c :: cur) s))
  /\ (forall pre w,
      is_token w ->
      rstrip (pre ++ w ++ " "%char :: collapse_whitespace_aux true s)
      = pre ++ join (chars " ") (w :: split_aux [] s)).
Proof.
  induction s as [|d s [IH1 IH2]].
  - split.
    + intros pre c cur Hc Hcur. cbn [collapse_whitespace_aux split_aux join].
      rewrite app_nil_r. by apply rstrip_word, is_token_rev_cons.
    + intros pre w Hw. cbn [collapse_whitespace_aux split_aux join].
      by apply rstrip_word_space.
  - split.
    + intros pre c cur Hc Hcur. cbn [collapse_whitespace_aux split_aux].
      destruct (isspace d) eqn:Hd.
      * rewrite IH2 by (by apply is_token_rev_cons). done.
      * rewrite <- (IH1 pre d (c :: cur) Hd) by (by constructor).
        f_equal. f_equal. cbn [rev]. by rewrite <- !app_assoc.
    + intros pre w Hw. cbn [collapse_whitespace_aux split_aux].
      destruct (isspace d) eqn:Hd; [by apply IH2|].
      rewrite join_cons by apply split_aux_nonempty.
      specialize (IH1 (pre ++ w ++ chars " ") d [] Hd ltac:(constructor)).
      cbn [rev app] in IH1. rewrite <- !app_assoc in IH1. exact IH1.
Qed.

Lemma split_aux_lstrip (s : list ascii) : split_aux [] (lstrip s) = split_aux [] s.
Proof.
  induction s as [|c s IH]; simpl; [done|].
  destruct (isspace c) eqn:Hc; [done|]. simpl. by rewrite Hc.
Qed.

Lemma collapse_lstrip (s : list ascii) (b : bool) :
  lstrip (collapse_whitespace_aux b s) = collapse_whitespace_aux false (lstrip s).
Proof.
  revert b. induction s as [|c s IH]; intros b; simpl; [done|].
  destruct (isspace c) eqn:Hc.
  - destruct b; [apply IH|]. simpl. apply IH.
  - simpl. by rewrite Hc.
Qed.

(** [re.sub(r'\s+', ' ', s).strip()] is [' '.join(s.split())]. *)
Lemma strip_collapse_whitespace (s : list ascii) :
  strip (collapse_whitespace s) = join (chars " ") (split s).
Proof.
  unfold strip, collapse_whitespace, split.
  rewrite collapse_lstrip, <- split_aux_lstrip.
  destruct (lstrip s) as [|c u] eqn:E; [done|].
  assert (isspace c = false) as Hc.
  { clear -E. induction s as [|d s IH]; simpl in E; [done|].
    destruct (isspace d) eqn:Hd; [by apply IH|]. by injection E as <- _. }
  cbn [collapse_whitespace_aux split_aux]. rewrite Hc.
  destruct (collapse_split u) as [H1 _].
  specialize (H1 [] c [] Hc ltac:(constructor)). exact H1.
Qed.

Lemma split_aux_app_word (cur w s : list ascii) :
  Forall (fun c => isspace c = false) w ->
  split_aux cur (w ++ s) = split_aux (rev w ++ cur) s.
Proof.
  revert cur. induction w as [|c w IH]; intros cur Hw; simpl; [done|].
  apply Forall_cons in Hw as [-> Hw]. rewrite IH by done.
  by rewrite <- app_assoc.
Qed.

Lemma split_word (w : list ascii) : is_token w -> split w = [w].
Proof.
  intros [Hne Hw]. unfold split.
  rewrite <- (app_nil_r w) at 1. rewrite split_aux_app_word by done.
  rewrite app_nil_r. simpl. destruct (rev w) eqn:E.
  - apply (f_equal (@rev ascii)) in E. by rewrite rev_involutive in E.
  - by rewrite <- E, rev_involutive.
Qed.

Lemma split_word_space (w s : list ascii) :
  is_token w -> split (w ++ " "%char :: s) = w :: split s.
Proof.
  intros [Hne Hw]. unfold split. rewrite split_aux_app_word by done.
  rewrite app_nil_r. simpl. destruct (rev w) eqn:E.
  - apply (f_equal (@rev ascii)) in E. by rewrite rev_involutive in E.
  - by rewrite <- E, rev_involutive.
Qed.

Lemma split_aux_words (cur s : list ascii) :
  Forall (fun c => isspace c = false) cur ->
  Forall is_token (split_aux cur s).
Proof.
  revert cur. induction s as [|c s IH]; intros cur Hcur; simpl.
  - destruct cur as [|d cur]; [constructor|].
    apply Forall_cons in Hcur as [Hd Hcur].
    constructor; [by apply is_token_rev_cons|constructor].
  - destruct (isspace c) eqn:Hc; [|apply IH; by constructor].
    destruct cur as [|d cur]; [by apply IH|].
    apply Forall_cons in Hcur as [Hd Hcur].
    constructor; [by apply is_token_rev_cons|by apply IH].
Qed.

Lemma split_words (s : list ascii) : Forall is_token (split s).
Proof. by apply split_aux_words. Qed.

Lemma split_take_word (w : list ascii) (n : nat) :
  is_token w -> drop_last (split (take n w)) = [].
Proof.
  intros [Hne Hw]. destruct n as [|n]; [done|].
  rewrite split_word; [done|]. split.
  - by destruct w.
  - by apply Forall_take.
Qed.

Lemma drop_last_cons {A : Type} (x : A) (l : list A) :
  l <> [] -> drop_last (x :: l) = x :: drop_last l.
Proof.
  unfold drop_last. destruct l as [|y l]; [done|]. intros _. simpl.
  by rewrite Nat.sub_0_r.
Qed.

(** The words of a prefix of joined words, without the last of them,
    are leading words of the whole. *)
Lemma split_take_join (ws : list (list ascii)) (n : nat) :
  Forall is_token ws ->
  drop_last (split (take n (join (chars " ") ws)))
  = take (length (split (take n (join (chars " ") ws))) - 1) ws.
Proof.
  intros Hws. revert n. induction Hws as [|w ws Hw Hws IH]; intros n.
  - simpl. by rewrite take_nil.
  - destruct ws as [|w2 ws].
    { cbn [join]. rewrite split_take_word by done. unfold drop_last.
      destruct n as [|n]; [done|].
      rewrite split_word; [done|]. destruct Hw as [Hne Hw]. split.
      - by destruct w.
      - by apply Forall_take. }
    rewrite join_cons by done.
    destruct (Nat.le_gt_cases n (length w)) as [Hn|Hn].
    { rewrite take_app_le by done. rewrite split_take_word by done.
      destruct n as [|n]; [done|].
      rewrite split_word; [done|]. destruct Hw as [Hne Hw]. split.
      - by destruct w.
      - by apply Forall_take. }
    rewrite take_app_ge by lia.
    destruct (n - length w) as [|m] eqn:Em; [lia|].
    change (chars " " ++ join (chars " ") (w2 :: ws))
      with (" "%char :: join (chars " ") (w2 :: ws)).
    rewrite firstn_cons.
    rewrite split_word_space by done.
    specialize (IH m).
    destruct (split (take m (join (chars " ") (w2 :: ws)))) as [|v vs] eqn:E.
    + done.
    + rewrite drop_last_cons by done. rewrite IH. simpl.
      by rewrite Nat.sub_0_r.
Qed.

Lemma length_join_split_aux (cur s : list ascii) :
  length (join (chars " ") (split_aux cur s)) <= length cur + length s.
Proof.
  revert cur. induction s as [|c s IH]; intros cur; simpl.
  - destruct cur; simpl; [lia|]. rewrite length_app, length_rev. simpl. lia.
  - destruct (isspace c).
    + destruct cur as [|d cur]; [specialize (IH []); simpl in IH; lia|].
      specialize (IH []). simpl in IH.
      destruct (split_aux [] s) eqn:E.
      * cbn [join]. rewrite length_rev. simpl. lia.
      * rewrite join_cons by done. rewrite !length_app, length_rev. simpl in *. lia.
    + specialize (IH (c :: cur)). simpl in IH. lia.
Qed.

Lemma length_join_split (s : list ascii) :
  length (join (chars " ") (split s)) <= length s.
Proof. apply (length_join_split_aux [] s). Qed.

Lemma length_join_drop_last_cons (w : list ascii) (ws : list (list ascii)) :
  ws <> [] ->
  length (join (chars " ") (drop_last (w :: ws))) + 1
  <= length (join (chars " ") (w :: ws)).
Proof.
  revert w. induction ws as [|w2 ws IH]; intros w Hne; [done|].
  rewrite drop_last_cons by done. rewrite (join_cons _ w (w2 :: ws)) by done.
  destruct ws as [|w3 ws].
  - unfold drop_last. cbn [length Nat.sub take join].
    rewrite !length_app. simpl. lia.
  - specialize (IH w2 ltac:(done)).
    rewrite join_cons by (by rewrite drop_last_cons).
    rewrite !length_app. lia.
Qed.

Lemma length_join_drop_last (ws : list (list ascii)) :
  1 < length ws ->
  length (join (chars " ") (drop_last ws)) + 1 <= length (join (chars " ") ws).
Proof.
  intros Hlen. destruct ws as [|w [|w2 ws]]; [simpl in Hlen; lia..|].
  by apply length_join_drop_last_cons.
Qed.

End PyStrFacts.

(** ** [analyze_document_statistics] *)

Module StatisticsProofs.
Import PyStr Py PyFacts Round1A.
Local Open Scope Q_scope.

Lemma max2_spec (a b : Q) :
  (max2 a b = a /\ b <= a) \/ (max2 a b = b /\ a < b).
Proof.
  unfold max2. destruct (Qltb a b) eqn:E.
  - apply Qltb_lt in E. by right.
  - apply Qltb_ge in E. by left.
Qed.

Lemma max_list_spec (first : Q) (rest : list Q) :
  max_list first rest ∈ first :: rest
  /\ forall x, x ∈ first :: rest -> x <= max_list first rest.
Proof.
  unfold max_list. revert first.
  induction rest as [|y rest IH]; intros first; simpl.
  - split; [apply list_elem_of_here|].
    intros x ->%list_elem_of_singleton. lra.
  - destruct (IH (max2 first y)) as [Hin Hmax]. split.
    + apply elem_of_cons in Hin as [Hin|Hin].
      * rewrite Hin. destruct (max2_spec first y) as [[-> _]|[-> _]].
        -- apply list_elem_of_here.
        -- apply list_elem_of_further, list_elem_of_here.
      * by do 2 apply list_elem_of_further.
    + intros x Hx.
      assert (max2 first y <= fold_left max2 rest (max2 first y)) as Hm
        by apply Hmax, list_elem_of_here.
      apply elem_of_cons in Hx as [->|Hx].
      * destruct (max2_spec first y) as [[E ?]|[E ?]]; rewrite E in *; lra.
      * apply elem_of_cons in Hx as [->|Hx].
        -- destruct (max2_spec first y) as [[E ?]|[E ?]]; rewrite E in *; lra.
        -- by apply Hmax, list_elem_of_further.
Qed.

(** The keys of a counter are among the values counted. *)
Lemma counter_add_keys (x : Q) (c : list (Q * nat)) (e : Q * nat) :
  e ∈ counter_add x c -> e.1 = x \/ exists e', e' ∈ c /\ e'.1 = e.1.
Proof.
  induction c as [|[y n] c IH]; simpl.
  - intros ->%list_elem_of_singleton. by left.
  - destruct (Qeq_bool y x).
    + intros [->|He]%elem_of_cons.
      * right. exists (y, n). split; [apply list_elem_of_here|done].
      * right. exists e. split; [by apply list_elem_of_further|done].
    + intros [->|He]%elem_of_cons.
      * right. exists (y, n). split; [apply list_elem_of_here|done].
      * destruct (IH He) as [?|(e' & He' & ?)]; [by left|].
        right. exists e'. split; [by apply list_elem_of_further|done].
Qed.

Lemma counter_fold_keys (l : list Q) (c : list (Q * nat)) (e : Q * nat) :
  e ∈ fold_left (fun c x => counter_add x c) l c ->
  e.1 ∈ l \/ exists e', e' ∈ c /\ e'.1 = e.1.
Proof.
  revert c. induction l as [|x l IH]; intros c; simpl.
  - intros He. right. by exists e.
  - intros [He|(e' & He' & Heq)]%IH.
    + left. by apply list_elem_of_further.
    + apply counter_add_keys in He' as [Hx|(e'' & ? & ?)].
      * left. rewrite <- Heq, Hx. apply list_elem_of_here.
      * right. exists e''. split; [done|congruence].
Qed.

Lemma Counter_keys (l : list Q) (e : Q * nat) : e ∈ Counter l -> e.1 ∈ l.
Proof.
  intros [?|(e' & He' & _)]%counter_fold_keys; [done|].
  by apply elem_of_nil in He'.
Qed.

Lemma most_common1_elem (best : Q * nat) (rest : list (Q * nat)) :
  most_common1 best rest ∈ best :: rest.
Proof.
  unfold most_common1. revert best.
  induction rest as [|e rest IH]; intros best; simpl.
  - apply list_elem_of_here.
  - specialize (IH (if (best.2 <? e.2)%nat then e else best)).
    apply elem_of_cons in IH as [IH|IH].
    + rewrite IH. destruct (_ <? _)%nat.
      * apply list_elem_of_further, list_elem_of_here.
      * apply list_elem_of_here.
    + by do 2 apply list_elem_of_further.
Qed.

(** A counter counts the occurrences. *)
Lemma counter_get_add (x z : Q) (c : list (Q * nat)) :
  counter_get (counter_add x c) z
  = if Qeq_bool x z then S (counter_get c z) else counter_get c z.
Proof.
  induction c as [|[y n] c IH]; simpl; [done|].
  destruct (Qeq_bool y x) eqn:Eyx; simpl.
  - apply Qeq_bool_iff in Eyx.
    destruct (Qeq_bool y z) eqn:Eyz, (Qeq_bool x z) eqn:Exz; try done.
    + apply Qeq_bool_iff in Eyz. apply Qeq_bool_neq in Exz.
      exfalso. apply Exz. by rewrite <- Eyx.
    + apply Qeq_bool_iff in Exz. apply Qeq_bool_neq in Eyz.
      exfalso. apply Eyz. by rewrite Eyx.
  - rewrite IH.
    destruct (Qeq_bool y z) eqn:Eyz, (Qeq_bool x z) eqn:Exz; try done.
    apply Qeq_bool_iff in Eyz, Exz. apply Qeq_bool_neq in Eyx.
    exfalso. apply Eyx. by rewrite Eyz, Exz.
Qed.

Lemma counter_get_fold (l : list Q) (c : list (Q * nat)) (z : Q) :
  counter_get (fold_left (fun c x => counter_add x c) l c) z
  = (counter_get c z + occurrences z l)%nat.
Proof.
  unfold occurrences. revert c. induction l as [|x l IH]; intros c; simpl.
  - lia.
  - rewrite IH, counter_get_add. destruct (Qeq_bool x z); simpl; lia.
Qed.

Lemma counter_get_Counter (l : list Q) (z : Q) :
  counter_get (Counter l) z = occurrences z l.
Proof. unfold Counter. by rewrite counter_get_fold. Qed.

Lemma counter_add_NoDup (x : Q) (c : list (Q * nat)) :
  NoDup (Qred <$> c.*1) -> NoDup (Qred <$> (counter_add x c).*1).
Proof.
  induction c as [|[y n] c IH]; cbn [counter_add].
  - intros _. simpl. apply NoDup_singleton.
  - intros H. rewrite !fmap_cons in H. cbn [fst] in H.
    apply NoDup_cons in H as [Hy Hc].
    destruct (Qeq_bool y x) eqn:Eyx; rewrite !fmap_cons; cbn [fst].
    + by constructor.
    + constructor; [|by apply IH].
      intros (k & Hk & (e & -> & He)%list_elem_of_fmap)%list_elem_of_fmap.
      apply counter_add_keys in He as [Hx|(e' & He' & Heq)].
      * apply Qeq_bool_neq in Eyx. apply Eyx, Qred_eq_iff. by rewrite Hk, Hx.
      * apply Hy. rewrite Hk, <- Heq.
        by apply list_elem_of_fmap_2, list_elem_of_fmap_2.
Qed.

Lemma Counter_NoDup (l : list Q) : NoDup (Qred <$> (Counter l).*1).
Proof.
  unfold Counter.
  assert (NoDup (Qred <$> ([] : list (Q * nat)).*1)) as H by constructor.
  revert H. generalize ([] : list (Q * nat)).
  induction l as [|x l IH]; intros c Hc; simpl; [done|].
  by apply IH, counter_add_NoDup.
Qed.

Lemma counter_get_entry (c : list (Q * nat)) (e : Q * nat) :
  NoDup (Qred <$> c.*1) -> e ∈ c -> counter_get c e.1 = e.2.
Proof.
  induction c as [|[y n] c IH]; [by intros _ ?%elem_of_nil|].
  intros H. rewrite !fmap_cons in H. cbn [fst] in H.
  apply NoDup_cons in H as [Hy Hc].
  intros [->|He]%elem_of_cons; simpl.
  - by rewrite Qeq_bool_refl.
  - destruct (Qeq_bool y e.1) eqn:E; [|by apply IH].
    exfalso. apply Hy. apply Qeq_bool_iff, Qred_complete in E. rewrite E.
    by apply list_elem_of_fmap_2, list_elem_of_fmap_2.
Qed.

Lemma counter_get_le (c : list (Q * nat)) (x : Q) (n : nat) :
  (forall e, e ∈ c -> (e.2 <= n)%nat) -> (counter_get c x <= n)%nat.
Proof.
  induction c as [|[y m] c IH]; intros Hc; simpl; [lia|].
  destruct (Qeq_bool y x).
  - apply (Hc (y, m)), list_elem_of_here.
  - apply IH. intros e He. by apply Hc, list_elem_of_further.
Qed.

Lemma most_common1_max (best : Q * nat) (rest : list (Q * nat)) (e : Q * nat) :
  e ∈ best :: rest -> (e.2 <= (most_common1 best rest).2)%nat.
Proof.
  unfold most_common1. revert best e.
  induction rest as [|r rest IH]; intros best e; simpl.
  - by intros ->%list_elem_of_singleton.
  - intros He.
    assert ((best.2 <= (if (best.2 <? r.2)%nat then r else best).2)%nat
            /\ (r.2 <= (if (best.2 <? r.2)%nat then r else best).2)%nat)
      as [Hb Hr] by (destruct (Nat.ltb_spec best.2 r.2); simpl; lia).
    pose proof (IH (if (best.2 <? r.2)%nat then r else best) _
                  (list_elem_of_here _ _)) as Hacc.
    apply elem_of_cons in He as [->|He]; [lia|].
    apply elem_of_cons in He as [->|He]; [lia|].
    by apply IH, list_elem_of_further.
Qed.





Lemma dominant_size_elem (text_elements : list TextElement.t) :
  text_elements <> [] ->
  dominant_size (analyze_document_statistics text_elements)
  ∈ TextElement.max_size <$> text_elements.
Proof.
  destruct text_elements as [|e0 l]; [done|]. intros _.
  change (TextElement.max_size <$> e0 :: l)
    with (TextElement.max_size e0 :: map TextElement.max_size l).
  unfold analyze_document_statistics. cbn [map dominant_size].
  destruct (Counter _) as [|e c] eqn:E; [apply list_elem_of_here|].
  apply Counter_keys. rewrite E. apply most_common1_elem.
Qed.

(** The dominant size is a most frequent maximum size. *)
Lemma dominant_size_mode (text_elements : list TextElement.t) (x : Q) :
  text_elements <> [] ->
  let sizes := TextElement.max_size <$> text_elements in
  (occurrences x sizes
   <= occurrences (dominant_size (analyze_document_statistics text_elements))
        sizes)%nat.
Proof.
  destruct text_elements as [|e0 l]; [done|]. intros _. cbn zeta.
  change (TextElement.max_size <$> e0 :: l)
    with (TextElement.max_size e0 :: map TextElement.max_size l).
  unfold analyze_document_statistics. cbn [map dominant_size].
  set (sizes := TextElement.max_size e0 :: map TextElement.max_size l).
  rewrite <- !counter_get_Counter.
  pose proof (Counter_NoDup sizes) as Hnd.
  destruct (Counter sizes) as [|e c] eqn:E; [simpl; lia|].
  rewrite (counter_get_entry (e :: c) (most_common1 e c) Hnd)
    by apply most_common1_elem.
  apply counter_get_le. intros e' He'. by apply most_common1_max.
Qed.




End StatisticsProofs.

(** ** [calculate_heading_score] and the heading candidates *)

Module HeadingProofs.
Import PyStr Re Py PyFacts Round1A.
Local Open Scope Q_scope.

Ltac split_ifs :=
  repeat match goal with |- context [if ?b then _ else _] => destruct b end.

Ltac stage x lo hi :=
  assert (lo <= x /\ x <= hi)%Q by (subst x; split_ifs; lra);
  clearbody x.

Lemma heading_score_range (elem : TextElement.t) (doc_stats : DocStats) (s : Q) :
  calculate_heading_score elem doc_stats = Some s -> -0.5 <= s /\ s <= 1.
Proof.
  unfold calculate_heading_score.
  destruct (div _ _) as [size_ratio|]; [|discriminate].
  change (Some size_ratio ≫= ?f) with (f size_ratio). cbv beta zeta.
  set (text := strip (TextElement.text elem)).
  set (word_count := length (split text)).
  set (s1 := if Qleb 2.0 size_ratio then _ else _). stage s1 0 0.5.
  set (s2 := if TextElement.is_bold elem then _ else _). stage s2 0 0.75.
  set (s3 := if re_match re_multi_level text then _ else _). stage s3 0 1.1.
  set (s4 := if isupper text && _ && _ then _ else _). stage s4 0 1.3.
  set (s5 := if (1 <=? word_count)%nat && _ then _ else _). stage s5 (-0.3) 1.4.
  set (s6 := if endswith text (chars ":") then _ else _). stage s6 (-0.5) 1.55.
  intros [= <-]. destruct (min2_spec s6 1.0) as [[-> ?] | [-> ?]]; lra.
Qed.

Lemma heading_score_defined (elem : TextElement.t) (doc_stats : DocStats) :
  ~ dominant_size doc_stats == 0 ->
  is_Some (calculate_heading_score elem doc_stats).
Proof.
  intros Hdom. unfold calculate_heading_score.
  rewrite (div_Some _ _ Hdom). by eexists.
Qed.

(** C1, as the code has it.  When the dominant size is not zero the
    heading score is defined and lies between -0.5 and 1: it is capped
    at 1 and has no floor at 0. *)
Theorem heading_score_bounds (elem : TextElement.t) (doc_stats : DocStats) :
  ~ dominant_size doc_stats == 0 ->
  exists score,
    calculate_heading_score elem doc_stats = Some score
    /\ -0.5 <= score /\ score <= 1.
Proof.
  intros Hdom.
  destruct (heading_score_defined elem doc_stats Hdom) as [score Hscore].
  exists score. split; [done|]. by eapply heading_score_range.
Qed.

Lemma heading_score_bounds_witness :
  ~ dominant_size plain_stats == 0
  /\ exists score,
       calculate_heading_score long_sentence plain_stats = Some score
       /\ -0.5 <= score /\ score <= 1.
Proof.
  assert (~ dominant_size plain_stats == 0) as H by (simpl; lra).
  split; [exact H|exact (heading_score_bounds long_sentence plain_stats H)].
Defined.

(** The score of [long_sentence] is -0.5, below 0. *)
Lemma heading_score_negative :
  exists score,
    calculate_heading_score long_sentence plain_stats = Some score
    /\ score == -0.5 /\ ~ (0 <= score <= 1).
Proof.
  eexists. split; [vm_compute; reflexivity|]. split; [reflexivity|].
  intros [H _]. revert H. apply Qlt_not_le. reflexivity.
Qed.

(** The heading candidates are the elements whose trimmed text has at
    least 2 characters and whose score is at least 0.7. *)
Lemma heading_candidates_spec (text_elements : list TextElement.t)
    (doc_stats : DocStats) (outline : list Candidate.t) :
  heading_candidates text_elements doc_stats = Some outline ->
  forall c, c ∈ outline <->
    exists elem score,
      elem ∈ text_elements
      /\ (2 <= length (strip (TextElement.text elem)))%nat
      /\ calculate_heading_score elem doc_stats = Some score
      /\ 0.7 <= score
      /\ c = Candidate.mk
               (determine_heading_level elem (size_thresholds doc_stats)
                  (strip (TextElement.text elem)))
               (strip (TextElement.text elem)) (TextElement.page elem) score.
Proof.
  revert outline.
  induction text_elements as [|e l IH]; intros outline; cbn [heading_candidates].
  - intros [= <-] c. split; [by intros ?%elem_of_nil|].
    by intros (? & ? & ?%elem_of_nil & _).
  - destruct (Nat.ltb_spec (length (strip (TextElement.text e))) 2) as [Hshort|Hlong].
    { intros H c. rewrite (IH _ H). split.
      - intros (elem & score & Hin & ?). exists elem, score.
        split; [by apply list_elem_of_further|done].
      - intros (elem & score & [->|Hin]%elem_of_cons & Hlen & ?); [lia|].
        by exists elem, score. }
    destruct (calculate_heading_score e doc_stats) as [s|] eqn:Hs; [|done].
    cbn [mbind option_bind].
    destruct (Qleb 0.7 s) eqn:Hcut.
    + destruct (heading_candidates l doc_stats) as [more|]; [|done].
      cbn [mbind option_bind]. intros [= <-] c. rewrite elem_of_cons, (IH more eq_refl).
      apply Qleb_le in Hcut. split.
      * intros [->|(elem & score & Hin & ?)].
        -- exists e, s. split; [apply list_elem_of_here|done].
        -- exists elem, score. split; [by apply list_elem_of_further|done].
      * intros (elem & score & [->|Hin]%elem_of_cons & Hlen & Hsc & Hge & ->).
        -- left. rewrite Hs in Hsc. by injection Hsc as ->.
        -- right. by exists elem, score.
    + intros H c. rewrite (IH _ H). split.
      * intros (elem & score & Hin & ?). exists elem, score.
        split; [by apply list_elem_of_further|done].
      * intros (elem & score & [->|Hin]%elem_of_cons & Hlen & Hsc & Hge & ->).
        -- rewrite Hs in Hsc. injection Hsc as ->.
           apply Qleb_le in Hge. congruence.
        -- by exists elem, score.
Qed.

Lemma heading_candidates_defined (text_elements : list TextElement.t)
    (doc_stats : DocStats) :
  ~ dominant_size doc_stats == 0 ->
  is_Some (heading_candidates text_elements doc_stats).
Proof.
  intros Hdom. induction text_elements as [|e l [more IH]]; cbn [heading_candidates].
  - by eexists.
  - rewrite IH. destruct (_ <? _)%nat; [by eexists|].
    destruct (heading_score_defined e doc_stats Hdom) as [s ->].
    cbn [mbind option_bind]. destruct (Qleb 0.7 s); by eexists.
Qed.

(** C5, as the code has it.  When the dominant size is not zero the
    outline before post-processing is defined, and an element is a
    heading candidate in it exactly when its trimmed text has at least
    2 characters and its score is at least 0.7. *)
Theorem heading_candidates_cutoff (text_elements : list TextElement.t)
    (doc_stats : DocStats) :
  ~ dominant_size doc_stats == 0 ->
  exists outline,
    heading_candidates text_elements doc_stats = Some outline
    /\ forall c, c ∈ outline <->
         exists elem score,
           elem ∈ text_elements
           /\ (2 <= length (strip (TextElement.text elem)))%nat
           /\ calculate_heading_score elem doc_stats = Some score
           /\ 0.7 <= score
           /\ c = Candidate.mk
                    (determine_heading_level elem (size_thresholds doc_stats)
                       (strip (TextElement.text elem)))
                    (strip (TextElement.text elem)) (TextElement.page elem) score.
Proof.
  intros Hdom.
  destruct (heading_candidates_defined text_elements doc_stats Hdom)
    as [outline Houtline].
  exists outline. split; [done|]. by apply heading_candidates_spec.
Qed.

(** The sample document, scored with its own statistics, has heading
    candidates. *)
Lemma heading_candidates_cutoff_witness :
  let doc_stats := analyze_document_statistics sample_document in
  ~ dominant_size doc_stats == 0
  /\ exists c rest,
       heading_candidates sample_document doc_stats = Some (c :: rest).
Proof.
  cbn zeta.
  assert (~ dominant_size (analyze_document_statistics sample_document) == 0)
    as H by (vm_compute; discriminate).
  split; [exact H|].
  destruct (heading_candidates_cutoff sample_document
              (analyze_document_statistics sample_document) H)
    as (outline & Houtline & _).
  destruct outline as [|c rest]; [by vm_compute in Houtline|].
  by exists c, rest.
Defined.

(** In a document whose dominant size is 12, the bold line "A" in size
    24 scores 0.85 with the statistics of the document, yet it is no
    heading candidate: the outline of the document is empty. *)
Lemma one_letter_not_candidate :
  let doc_stats :=
    analyze_document_statistics Round1AMore.one_letter_document in
  dominant_size doc_stats = 12
  /\ one_letter ∈ Round1AMore.one_letter_document
  /\ (exists score,
        calculate_heading_score one_letter doc_stats = Some score
        /\ score == 0.85 /\ 0.7 <= score)
  /\ heading_candidates Round1AMore.one_letter_document doc_stats = Some []
  /\ extract_document_outline Round1AMore.one_letter_document doc_stats
     = Some [].
Proof.
  cbn zeta. split; [by vm_compute|]. split; [apply list_elem_of_here|].
  split; [|split; by vm_compute].
  eexists. split; [vm_compute; reflexivity|].
  split; [reflexivity|]. apply Qle_bool_iff. reflexivity.
Qed.

End HeadingProofs.

(** ** [clean_title] and [extract_document_title] *)

Module TitleProofs.
Import PyStr Re Py PyFacts PyStrFacts Round1A HeadingProofs.
Local Open Scope Q_scope.

Lemma size_score_defined (elem : TextElement.t) (doc_stats : DocStats) :
  ~ dominant_size doc_stats == 0 ->
  is_Some (calculate_size_score elem doc_stats).
Proof.
  intros Hdom. unfold calculate_size_score.
  rewrite (div_Some _ _ Hdom). by eexists.
Qed.

Lemma title_candidates_none (i : nat) (l : list TextElement.t)
    (doc_stats : DocStats) :
  Forall (fun e => ~ title_text_valid e) l ->
  title_candidates i l doc_stats = Some [].
Proof.
  intros Hl. revert i. induction Hl as [|e l He _ IH]; intros i;
    cbn [title_candidates]; [done|].
  unfold title_text_valid in He.
  destruct (Nat.ltb_spec (length (strip (TextElement.text e))) 3); [|lia].
  apply IH.
Qed.

Lemma title_candidates_defined (i : nat) (l : list TextElement.t)
    (doc_stats : DocStats) :
  ~ dominant_size doc_stats == 0 ->
  is_Some (title_candidates i l doc_stats).
Proof.
  intros Hdom. revert i. induction l as [|e l IH]; intros i;
    cbn [title_candidates]; [by eexists|].
  destruct (_ <? _)%nat; [apply IH|].
  destruct (size_score_defined e doc_stats Hdom) as [s ->].
  cbn [mbind option_bind]. destruct (IH (S i)) as [more ->].
  cbn [mbind option_bind]. by eexists.
Qed.

Lemma title_candidates_spec (i : nat) (l : list TextElement.t)
    (doc_stats : DocStats) (cands : list (Q * list ascii)) :
  title_candidates i l doc_stats = Some cands ->
  (forall c, c ∈ cands ->
     exists e, e ∈ l /\ title_text_valid e /\ c.2 = strip (TextElement.text e))
  /\ (Exists title_text_valid l -> cands <> []).
Proof.
  revert i cands. induction l as [|e l IH]; intros i cands;
    cbn [title_candidates].
  - intros [= <-]. split; [by intros c ?%elem_of_nil|by intros ?%Exists_nil].
  - destruct (Nat.ltb_spec (length (strip (TextElement.text e))) 3) as [Hshort|Hok].
    + intros H. destruct (IH _ _ H) as [Hin Hex]. split.
      * intros c (e' & ? & ?)%Hin. exists e'.
        split; [by apply list_elem_of_further|done].
      * intros [Hv|Hl]%Exists_cons; [unfold title_text_valid in Hv; lia|].
        by apply Hex.
    + destruct (calculate_size_score e doc_stats) as [s|]; [|done].
      cbn [mbind option_bind].
      destruct (title_candidates (S i) l doc_stats) as [more|] eqn:E; [|done].
      cbn [mbind option_bind]. intros [= <-].
      destruct (IH _ _ E) as [Hin _]. split; [|done].
      intros c [->|(e' & ? & ?)%Hin]%elem_of_cons.
      * exists e. split; [apply list_elem_of_here|done].
      * exists e'. split; [by apply list_elem_of_further|done].
Qed.

(** The head of a descending sort is an element with the greatest key. *)
Lemma sort_reverse_head (cands : list (Q * list ascii)) (c : Q * list ascii)
    (rest : list (Q * list ascii)) :
  sort_reverse Qltb fst cands = c :: rest ->
  c ∈ cands /\ forall c', c' ∈ cands -> c'.1 <= c.1.
Proof.
  intros E.
  assert (sort_reverse Qltb fst cands ≡ₚ cands) as Hperm
    by apply sort_Permutation.
  assert (StronglySorted (precedes (fun a b => Qltb b a) fst)
            (sort_reverse Qltb fst cands)) as Hs.
  { apply sort_sorted.
    - intros a b Hab. apply Qltb_lt in Hab. apply Qltb_ge. lra.
    - intros a b d Hab Hbc. apply Qltb_ge in Hab, Hbc. apply Qltb_ge. lra. }
  rewrite E in Hperm, Hs. split.
  - rewrite <- Hperm. apply list_elem_of_here.
  - intros c' Hc'. rewrite <- Hperm in Hc'.
    apply StronglySorted_inv in Hs as [_ Hs].
    apply elem_of_cons in Hc' as [->|Hc']; [lra|].
    rewrite Forall_forall in Hs. specialize (Hs c' Hc').
    unfold precedes in Hs. by apply Qltb_ge in Hs.
Qed.

Lemma clean_title_short (title : list ascii) :
  let cleaned := join (chars " ") (split title) in
  (length cleaned <= 100)%nat ->
  clean_title title = if (3 <=? length cleaned)%nat then cleaned else Document.
Proof.
  cbn zeta. intros Hlen. unfold clean_title.
  rewrite strip_collapse_whitespace.
  by destruct (Nat.ltb_spec 100 (length (join (chars " ") (split title))));
    [lia|].
Qed.

Lemma clean_title_one_word (title : list ascii) :
  let cleaned := join (chars " ") (split title) in
  (100 < length cleaned)%nat ->
  (length (split (take 100 cleaned)) <= 1)%nat ->
  clean_title title = cleaned.
Proof.
  cbn zeta. intros Hlen Hone. unfold clean_title.
  rewrite strip_collapse_whitespace.
  destruct (Nat.ltb_spec 100 (length (join (chars " ") (split title))));
    [|lia].
  destruct (Nat.ltb_spec 1
    (length (split (take 100 (join (chars " ") (split title)))))); [lia|].
  by destruct (Nat.leb_spec 3 (length (join (chars " ") (split title))));
    [|lia].
Qed.

Lemma clean_title_truncated (title : list ascii) :
  let words := split title in
  let cleaned := join (chars " ") words in
  let first_words := split (take 100 cleaned) in
  let kept := join (chars " ") (take (length first_words - 1) words) in
  (100 < length cleaned)%nat ->
  (1 < length first_words)%nat ->
  (length kept < 100)%nat
  /\ clean_title title = if (3 <=? length kept)%nat then kept else Document.
Proof.
  cbn zeta. intros Hlen Hmany.
  pose proof (split_take_join (split title) 100 (split_words title)) as Hkept.
  split.
  - rewrite <- Hkept.
    pose proof (length_join_drop_last _ Hmany) as H1.
    pose proof (length_join_split
                  (take 100 (join (chars " ") (split title)))) as H2.
    rewrite length_take in H2. lia.
  - unfold clean_title. rewrite strip_collapse_whitespace.
    destruct (Nat.ltb_spec 100 (length (join (chars " ") (split title))));
      [|lia].
    destruct (Nat.ltb_spec 1
      (length (split (take 100 (join (chars " ") (split title)))))); [|lia].
    by rewrite Hkept.
Qed.

(** C6, as the code has it.  [clean_title] collapses whitespace: the
    cleaned text is the words of the title joined by single spaces.  A
    cleaned text of at most 100 characters is returned as it is.  A
    longer one is cut to the words of its first 100 characters without
    the last of them, which are leading words of the title and take
    fewer than 100 characters, when these first 100 characters hold
    more than one word; it is returned whole, longer than 100
    characters, when they hold one word.  A result shorter than 3
    characters is replaced by Document.  [extract_document_title]
    returns Document for the empty list and when no element of the
    first page has a valid text; otherwise it returns the cleaned text
    of a valid element of greatest total score. *)
Theorem title_extraction (text_elements : list TextElement.t)
    (doc_stats : DocStats) (title : list ascii) :
  let words := split title in
  let cleaned := join (chars " ") words in
  let first_words := split (take 100 cleaned) in
  let kept := join (chars " ") (take (length first_words - 1) words) in
  let window := first_page_elements text_elements in
  strip (collapse_whitespace title) = cleaned
  /\ ((length cleaned <= 100)%nat ->
      clean_title title
      = if (3 <=? length cleaned)%nat then cleaned else Document)
  /\ ((100 < length cleaned)%nat -> (length first_words <= 1)%nat ->
      clean_title title = cleaned)
  /\ ((100 < length cleaned)%nat -> (1 < length first_words)%nat ->
      (length kept < 100)%nat
      /\ clean_title title
         = if (3 <=? length kept)%nat then kept else Document)
  /\ extract_document_title [] doc_stats = Some Document
  /\ (Forall (fun e => ~ title_text_valid e) window ->
      extract_document_title text_elements doc_stats = Some Document)
  /\ (~ dominant_size doc_stats == 0 -> Exists title_text_valid window ->
      exists cands score best elem,
        title_candidates 0 window doc_stats = Some cands
        /\ (score, best) ∈ cands
        /\ (forall c, c ∈ cands -> c.1 <= score)
        /\ elem ∈ window /\ title_text_valid elem
        /\ best = strip (TextElement.text elem)
        /\ extract_document_title text_elements doc_stats
           = Some (clean_title best)).
Proof.
  cbn zeta.
  split; [apply strip_collapse_whitespace|].
  split; [apply clean_title_short|].
  split; [apply clean_title_one_word|].
  split; [apply clean_title_truncated|].
  split; [done|]. split.
  - intros Hnone. unfold extract_document_title.
    destruct text_elements as [|e0 l]; [done|].
    by rewrite title_candidates_none.
  - intros Hdom Hsome. unfold extract_document_title.
    destruct text_elements as [|e0 l].
    { by apply Exists_nil in Hsome. }
    destruct (title_candidates_defined 0
                (first_page_elements (e0 :: l)) doc_stats Hdom) as [cands E].
    rewrite E. cbn [mbind option_bind].
    destruct (title_candidates_spec _ _ _ _ E) as [Hin Hne].
    specialize (Hne Hsome).
    destruct (sort_reverse Qltb fst cands) as [|[score best] rest] eqn:Es.
    { exfalso. apply Hne. apply Permutation_nil_r.
      rewrite <- Es. symmetry. apply sort_Permutation. }
    apply sort_reverse_head in Es as [Hbest Hmax].
    destruct (Hin _ Hbest) as (elem & Helem & Hvalid & Htext).
    exists cands, score, best, elem. repeat split; done.
Qed.

(** The title made of one word of 101 letters is returned whole: the
    result is longer than 100 characters. *)
Lemma title_longer_than_100 :
  extract_document_title [one_long_word]
    (analyze_document_statistics [one_long_word])
  = Some (repeat "a"%char 101)
  /\ (100 < length (clean_title (repeat "a"%char 101)))%nat.
Proof. split; [by vm_compute|]. vm_compute. lia. Qed.

End TitleProofs.

(** ** [process_all_pdfs] *)

Module BatchProofs.
Import PyStr Re Py PyFacts Round1A OutlineFacts OutlineProofs HeadingProofs.
Local Open Scope Q_scope.

Lemma determine_heading_level_valid (elem : TextElement.t)
    (thresholds : Thresholds) (text : list ascii) :
  determine_heading_level elem thresholds text ∈ ["H1"; "H2"; "H3"]%string.
Proof.
  unfold determine_heading_level.
  repeat match goal with
         | |- context [if ?b then _ else _] => destruct b
         end;
    repeat first [apply list_elem_of_here | apply list_elem_of_further].
Qed.

Lemma post_process_subset (outline : list Candidate.t) (c : Candidate.t) :
  c ∈ post_process_outline outline -> c ∈ outline.
Proof.
  rewrite post_process_outline_unfold. intros Hc.
  eapply elem_of_sublist; [|apply (remove_duplicates_sublist ∅)].
  eapply elem_of_submseteq; [|apply limited_submseteq].
  eapply elem_of_submseteq; [exact Hc|apply global_limit_submseteq].
Qed.

Lemma extract_document_outline_levels (text_elements : list TextElement.t)
    (doc_stats : DocStats) (entries : list OutlineEntry.t) :
  extract_document_outline text_elements doc_stats = Some entries ->
  Forall (fun e => OutlineEntry.level e ∈ ["H1"; "H2"; "H3"]%string) entries.
Proof.
  unfold extract_document_outline.
  destruct (heading_candidates text_elements doc_stats) as [cands|] eqn:E;
    [|done].
  cbn [mbind option_bind]. intros [= <-].
  apply Forall_forall. intros e (c & -> & Hc)%list_elem_of_fmap.
  apply post_process_subset in Hc.
  apply (heading_candidates_spec _ _ _ E) in Hc
    as (elem & score & _ & _ & _ & _ & ->).
  simpl. apply determine_heading_level_valid.
Qed.

Section Batch.
Variable extract_formatted_text : list ascii -> option (list TextElement.t).

Lemma extract_document_structure_well_formed (pdf_path : list ascii)
    (result : Result) :
  extract_document_structure extract_formatted_text pdf_path = Some result ->
  well_formed result.
Proof.
  unfold extract_document_structure.
  destruct (extract_formatted_text pdf_path) as [elems|]; [|done].
  cbn [mbind option_bind].
  destruct (extract_document_title _ _) as [t|]; [|done].
  cbn [mbind option_bind].
  destruct (extract_document_outline _ _) as [entries|] eqn:E; [|done].
  cbn [mbind option_bind]. intros [= <-].
  unfold well_formed. simpl. by eapply extract_document_outline_levels.
Qed.

Lemma fallback_well_formed : well_formed fallback.
Proof. constructor. Qed.

(** C9.  [process_all_pdfs] writes one file for each PDF of the
    listing, in order; the content is the fallback, with the title
    Document and an empty outline, when the extraction of that document
    raises, and the extracted structure otherwise; every content is well
    formed. *)
Theorem process_all_pdfs_fallback (listing : list (list ascii)) :
  Forall2 (written_for extract_formatted_text)
    (List.filter (fun f => endswith f (chars ".pdf")) listing)
    (process_all_pdfs extract_formatted_text listing).
Proof.
  unfold process_all_pdfs.
  induction (List.filter _ listing) as [|f pdfs IH]; simpl; [constructor|].
  constructor; [|exact IH].
  unfold written_for, process_pdf.
  destruct (extract_document_structure extract_formatted_text f) as [r|] eqn:E;
    simpl; repeat split.
  - by eapply extract_document_structure_well_formed.
  - apply fallback_well_formed.
Qed.

End Batch.

End BatchProofs.

(** ** [rank_and_select] *)

Module RankerProofs.
Import PyStr Py PyFacts Round1B.
Local Open Scope Q_scope.

Lemma from_document_app doc l k :
  from_document doc (l ++ k) = from_document doc l ++ from_document doc k.
Proof. unfold from_document. by rewrite fmap_app, filter_app. Qed.

(** The loop keeps what is selected and adds sections of [ranked] in
    their order. *)
Lemma select_spec (ranked selected : list Section_.t) (counts : gmap string nat) :
  (length selected <= max_sections)%nat ->
  (forall doc, counts !!! doc = length (from_document doc selected)) ->
  (forall doc, (counts !!! doc <= max_per_doc)%nat) ->
  exists added,
    select ranked selected counts = selected ++ added
    /\ added `sublist_of` ranked
    /\ (length (selected ++ added) <= max_sections)%nat
    /\ (forall doc, (length (from_document doc (selected ++ added)) <= max_per_doc)%nat)
    /\ (forall s, s ∈ added -> min_score <= Section_.relevance_score s).
Proof.
  revert selected counts.
  induction ranked as [|x ranked IH]; intros selected counts Hlen Hcnt Hmax;
    cbn [select].
  - exists []. rewrite app_nil_r. repeat split; try done.
    + intros doc. rewrite <- Hcnt. apply Hmax.
    + by intros s ?%elem_of_nil.
  - destruct (Nat.leb_spec max_sections (length selected)) as [Hfull|Hroom].
    { exists []. rewrite app_nil_r. repeat split; try done.
      + apply sublist_nil_l.
      + intros doc. rewrite <- Hcnt. apply Hmax.
      + by intros s ?%elem_of_nil. }
    destruct (Qltb (Section_.relevance_score x) min_score) eqn:Hscore.
    { destruct (IH selected counts) as (added & -> & Hsub & ?); try done.
      exists added. split; [done|]. split; [by apply sublist_cons|done]. }
    destruct (Nat.leb_spec max_per_doc (counts !!! Section_.document x))
      as [Hdoc|Hdoc].
    { destruct (IH selected counts) as (added & -> & Hsub & ?); try done.
      exists added. split; [done|]. split; [by apply sublist_cons|done]. }
    destruct (IH (selected ++ [x])
                (<[Section_.document x:=(counts !!! Section_.document x + 1)%nat]> counts))
      as (added & -> & Hsub & Hlen' & Hdocs & Hmin).
    + rewrite length_app. simpl. lia.
    + intros doc. rewrite from_document_app, length_app.
      unfold from_document at 2. simpl. rewrite filter_cons, filter_nil.
      destruct (decide (Section_.document x = doc)) as [<-|Hne].
      * rewrite lookup_total_insert_eq, Hcnt. simpl. lia.
      * rewrite lookup_total_insert_ne, Hcnt by done. simpl. lia.
    + intros doc.
      destruct (decide (Section_.document x = doc)) as [<-|Hne].
      * rewrite lookup_total_insert_eq. lia.
      * rewrite lookup_total_insert_ne by done. apply Hmax.
    + exists (x :: added). rewrite <- app_assoc in *. simpl in *.
      repeat split; try done.
      * by apply sublist_skip.
      * intros s [->|Hs]%elem_of_cons; [|by apply Hmin].
        by apply Qltb_ge in Hscore.
Qed.

Lemma imap_set_rank_document (f : nat -> nat) (l : list Section_.t) :
  Section_.document <$> imap (fun i => set_rank (f i)) l = Section_.document <$> l.
Proof.
  revert f. induction l as [|x l IH]; intros f; simpl; [done|].
  f_equal. apply (IH (f ∘ S)).
Qed.

Lemma imap_set_rank_score (f : nat -> nat) (l : list Section_.t) :
  Section_.relevance_score <$> imap (fun i => set_rank (f i)) l
  = Section_.relevance_score <$> l.
Proof.
  revert f. induction l as [|x l IH]; intros f; simpl; [done|].
  f_equal. apply (IH (f ∘ S)).
Qed.

Lemma imap_set_rank_rank (k : nat) (l : list Section_.t) :
  Section_.rank <$> imap (fun i => set_rank (k + i)) l
  = Some <$> seq (k + 1) (length l).
Proof.
  revert k. induction l as [|x l IH]; intros k; simpl; [done|].
  f_equal; [f_equal; lia|].
  specialize (IH (S k)). replace (S k + 1)%nat with (S (k + 1)) in IH by lia.
  etrans; [|exact IH]. f_equal. apply imap_ext. intros i y _. simpl.
  unfold set_rank. do 2 f_equal. lia.
Qed.

Lemma score_desc_sorted (l : list Section_.t) :
  StronglySorted (precedes (fun a b => Qltb b a) Section_.relevance_score)
    (sort_reverse Qltb Section_.relevance_score l).
Proof.
  apply sort_sorted.
  - intros a b Hab. apply Qltb_lt in Hab. apply Qltb_ge. lra.
  - intros a b c Hab Hbc. apply Qltb_ge in Hab, Hbc. apply Qltb_ge. lra.
Qed.

(** C4.  [rank_and_select] returns at most 10 sections, at most 3 of
    any one document, none of relevance score below 0.3; the sections
    are in descending order of score and carry the ranks 1, 2, 3, ...
    in that order. *)
Theorem rank_and_select_limits (scored_sections : list Section_.t) :
  let selected := rank_and_select scored_sections in
  (length selected <= 10)%nat
  /\ (forall doc, (length (from_document doc selected) <= 3)%nat)
  /\ (forall s, s ∈ selected -> 0.3 <= Section_.relevance_score s)
  /\ Section_.rank <$> selected = Some <$> seq 1 (length selected)
  /\ StronglySorted (fun a b => b <= a) (Section_.relevance_score <$> selected).
Proof.
  simpl. unfold rank_and_select.
  destruct scored_sections as [|x0 l0].
  { simpl. repeat split; try done; try lia.
    - by intros s ?%elem_of_nil.
    - constructor. }
  set (scored := x0 :: l0).
  destruct (select_spec (sort_reverse Qltb Section_.relevance_score scored) [] ∅)
    as (added & Hsel & Hsub & Hlen & Hdoc & Hmin).
  { simpl. unfold max_sections. lia. }
  { intros doc. by rewrite lookup_total_empty. }
  { intros doc. rewrite lookup_total_empty. unfold max_per_doc.
    change (inhabitant : nat) with 0%nat. lia. }
  rewrite Hsel. change ([] ++ added) with added in *. clear Hsel.
  pose proof (imap_set_rank_document id added) as Edoc.
  pose proof (imap_set_rank_score id added) as Escore.
  pose proof (imap_set_rank_rank 0 added) as Erank.
  simpl in Edoc, Escore, Erank.
  change (imap (fun i => set_rank i) added) with (imap set_rank added)
    in Edoc, Escore, Erank.
  repeat split.
  - by rewrite length_imap.
  - intros doc. unfold from_document. rewrite Edoc. apply Hdoc.
  - intros s Hs.
    assert (Section_.relevance_score s ∈ Section_.relevance_score <$> imap set_rank added)
      as Hin by (by apply list_elem_of_fmap_2).
    rewrite Escore in Hin. apply list_elem_of_fmap in Hin as (y & -> & Hy).
    by apply Hmin.
  - by rewrite length_imap.
  - rewrite Escore.
    eapply StronglySorted_fmap;
      [|eapply StronglySorted_sublist; [exact Hsub|apply score_desc_sorted]].
    intros a b Hab. unfold precedes in Hab. by apply Qltb_ge in Hab.
Qed.

End RankerProofs.

(** ** The matcher *)

Module ReFacts.
Import PyStr Re.

(** A successful run reaches its continuation on a text that is not
    longer than the one it started on. *)
Lemma run_continues {A : Type} (r : regex) :
  forall (prev : option ascii) (s : list ascii)
         (k : option ascii -> list ascii -> option A) (x : A),
    run r prev s k = Some x ->
    exists prev' s', k prev' s' = Some x /\ length s' <= length s.
Proof.
  induction r as [|f|r1 IH1 r2 IH2|r1 IH1 r2 IH2|r1 IH1| | |];
    intros prev s k x; cbn [run].
  - intros H. by exists prev, s.
  - destruct s as [|c s']; [done|]. destruct (f c); [|done].
    intros H. exists (Some c), s'. split; [done|]. simpl. lia.
  - intros H. apply IH1 in H as (p1 & s1 & H1 & Hlen1).
    apply IH2 in H1 as (p2 & s2 & H2 & Hlen2).
    exists p2, s2. split; [done|lia].
  - destruct (run r1 prev s k) as [y|] eqn:E1.
    + intros [= <-]. by eapply IH1.
    + apply IH2.
  - generalize (length s) at 1. intros n. revert prev s.
    induction n as [|n IHn]; intros prev s.
    + intros H. by exists prev, s.
    + match goal with
      | |- context [run r1 prev s ?k'] =>
          destruct (run r1 prev s k') as [y|] eqn:E1
      end.
      * intros [= <-]. apply IH1 in E1 as (p1 & s1 & H1 & Hlen1).
        destruct (Nat.ltb_spec (length s1) (length s)); [|done].
        apply IHn in H1 as (p2 & s2 & H2 & Hlen2).
        exists p2, s2. split; [done|lia].
      * intros H. by exists prev, s.
  - destruct prev; [done|]. intros H. by exists None, s.
  - destruct s as [|c [|c' s']].
    + intros H. by exists prev, [].
    + destruct (bool_decide _); [|done]. intros H. by exists prev, [c].
    + done.
  - destruct (xorb _ _); [|done]. intros H. by exists prev, s.
Qed.

(** A match of [\b[a-zA-Z]{4,}\b] spans at least 4 characters. *)
Lemma long_word_span (prev : option ascii) (s rest : list ascii) :
  match_here Round1B.re_long_word prev s = Some rest ->
  4 + length rest <= length s.
Proof.
  unfold match_here, Round1B.re_long_word, AtLeast, azAZ.
  cbn [Seqs Repeat]. remember (Star _) as star eqn:Hstar.
  cbn [run]. destruct (xorb _ _); [|done].
  destruct s as [|c1 [|c2 [|c3 [|c4 s4]]]]; try done;
    repeat (match goal with
            | |- context [if ?b then _ else _] => destruct b; try done
            end).
  intros H. apply run_continues in H as (p1 & s1 & H1 & Hlen1).
  cbn [run] in H1. destruct (xorb _ _); [|done].
  injection H1 as <-. simpl. lia.
Qed.

Lemma findall_long_words (skip : nat) (prev : option ascii) (s : list ascii) :
  Forall (fun w => 4 <= length w)
    (findall_from Round1B.re_long_word skip prev s).
Proof.
  revert skip prev. induction s as [|c s IH]; intros skip prev;
    cbn [findall_from].
  - destruct skip; [|constructor].
    destruct (match_here _ _ _) as [rest|] eqn:E; [|constructor].
    apply long_word_span in E. simpl in E. lia.
  - destruct skip as [|skip]; [|apply IH].
    destruct (match_here _ _ _) as [rest|] eqn:E; [|apply IH].
    constructor; [|apply IH].
    apply long_word_span in E. rewrite length_take. lia.
Qed.

(** A pattern compiled with [re.I] matches wherever the pattern itself
    does. *)
Lemma run_ignore_case {A B : Type} (r : regex) :
  forall (prev : option ascii) (s : list ascii)
         (k : option ascii -> list ascii -> option A)
         (k' : option ascii -> list ascii -> option B),
    (forall p t, is_Some (k p t) -> is_Some (k' p t)) ->
    is_Some (run r prev s k) -> is_Some (run (ignore_case r) prev s k').
Proof.
  induction r as [|f|r1 IH1 r2 IH2|r1 IH1 r2 IH2|r1 IH1| | |];
    intros prev s k k' Hk; cbn [run ignore_case].
  - apply Hk.
  - destruct s as [|c s']; [done|]. destruct (f c); [|by intros [? ?]].
    simpl. apply Hk.
  - apply IH1. intros p t. by apply IH2.
  - destruct (run r1 prev s k) as [x|] eqn:E1.
    + intros _.
      destruct (IH1 prev s k k' Hk) as [y ->]; [by rewrite E1|by eexists].
    + intros H2%(IH2 prev s k k' Hk).
      by destruct (run (ignore_case r1) prev s k').
  - generalize (length s). intros n. revert prev s.
    induction n as [|n IHn]; intros prev s; [apply Hk|].
    match goal with
    | |- is_Some (match run r1 prev s ?K with _ => _ end) ->
         is_Some (match run (ignore_case r1) prev s ?K' with _ => _ end) =>
        destruct (run r1 prev s K) as [x|] eqn:E1;
        destruct (run (ignore_case r1) prev s K') as [y|] eqn:E2;
        try (intros _; by eexists); try (by apply Hk);
        assert (is_Some (run (ignore_case r1) prev s K')) as HS
    end.
    + eapply IH1; [|by rewrite E1]. intros p t. simpl.
      destruct (length t <? length s); [apply IHn|by intros [? ?]].
    + rewrite E2 in HS. by destruct HS.
  - destruct prev; [by intros [? ?]|]. apply Hk.
  - destruct s as [|c [|c' s']]; [apply Hk| |by intros [? ?]].
    destruct (bool_decide _); [apply Hk|by intros [? ?]].
  - destruct (xorb _ _); [apply Hk|by intros [? ?]].
Qed.

Lemma re_match_ignore_case (r : regex) (s : list ascii) :
  re_match r s = true -> re_match (ignore_case r) s = true.
Proof.
  unfold re_match, match_here. rewrite !bool_decide_eq_true.
  by apply run_ignore_case.
Qed.

End ReFacts.


(** ** [is_section_heading] *)

Module SegmenterProofs.
Import PyStr Re Py PyFacts ReFacts Round1B.
Local Open Scope Q_scope.

(** Whatever the heading test accepts as it is stated, the code
    accepts. *)
Lemma stated_test_accepted (elem : Element.t) (doc_analysis : DocAnalysis) :
  heading_test_as_stated elem doc_analysis = true ->
  is_section_heading elem doc_analysis = true.
Proof.
  unfold heading_test_as_stated, is_section_heading.
  destruct (Qleb _ _); [done|].
  destruct (Element.is_bold elem && _); [done|].
  cbn [orb patterns existsb]. rewrite !orb_true_iff.
  intros [[H|H]|H]; [left|right; left|right; right; left];
    try (by apply re_match_ignore_case); done.
Qed.

(** C2, at a failing input.  The line "hello world" is smaller than the
    heading threshold, not bold, and matches none of the three patterns
    as they are stated; [is_section_heading] still takes it for a
    heading, because the flag [re.I] is passed with every pattern and
    the all-caps pattern then accepts lowercase letters.  The other
    way round the code agrees with the statement: what the stated test
    accepts, [is_section_heading] accepts. *)
Theorem hello_world_is_heading :
  let doc_analysis := analyze_document_structure plain_page in
  let text := strip (Element.text hello_world) in
  is_section_heading hello_world doc_analysis = true
  /\ heading_test_as_stated hello_world doc_analysis = false
  /\ Qleb (heading_threshold doc_analysis) (Element.avg_size hello_world) = false
  /\ Element.is_bold hello_world = false
  /\ existsb (fun pattern => re_match pattern text) patterns = false
  /\ re_match (ignore_case re_all_caps) text = true
  /\ (forall elem analysis,
        heading_test_as_stated elem analysis = true ->
        is_section_heading elem analysis = true).
Proof.
  cbn zeta.
  split; [by vm_compute|]. split; [by vm_compute|]. split; [by vm_compute|].
  split; [done|]. split; [by vm_compute|]. split; [by vm_compute|].
  apply stated_test_accepted.
Qed.

End SegmenterProofs.

(** ** [extract_expertise_areas] *)

Module PersonaProofs.
Import PyStr Re Py ReFacts Round1B.

(** C10.  The stopword exclusion of [extract_expertise_areas] removes
    nothing: every stopword has 3 letters and every token has at least
    4 characters, so the tokens pass the filter unchanged; the
    expertise areas are the domain keywords together with all the
    tokens, and so hold each token. *)
Theorem stopword_filter_vacuous (persona : list ascii) :
  let words := re_findall re_long_word (lower persona) in
  Forall (fun w => length w = 3) common_words
  /\ Forall (fun w => 4 <= length w) words
  /\ List.filter (fun w => negb (bool_decide (w ∈ common_words))) words = words
  /\ extract_expertise_areas persona = list_to_set (domain_keywords persona ++ words)
  /\ Forall (fun w => w ∈ extract_expertise_areas persona) words.
Proof.
  cbn zeta.
  assert (Forall (fun w => length w = 3) common_words) as Hstop.
  { unfold common_words. simpl. repeat constructor. }
  pose proof (findall_long_words 0 None (lower persona)) as Hlong.
  fold (re_findall re_long_word (lower persona)) in Hlong.
  assert (List.filter (fun w => negb (bool_decide (w ∈ common_words)))
            (re_findall re_long_word (lower persona))
          = re_findall re_long_word (lower persona)) as Hfilter.
  { induction Hlong as [|w ws Hw _ IH]; simpl; [done|].
    rewrite bool_decide_eq_false_2; [simpl; by f_equal|].
    intros Hin. rewrite Forall_forall in Hstop. apply Hstop in Hin. lia. }
  repeat split; try done.
  { unfold extract_expertise_areas, expertise_keywords. by rewrite Hfilter. }
  apply Forall_forall. intros w Hw.
  unfold extract_expertise_areas, expertise_keywords.
  rewrite elem_of_list_to_set, Hfilter.
  apply elem_of_app. by right.
Qed.

End PersonaProofs.

(** ** The scenarios of the specification, run on the embedding *)

Module Scenarios.
Import PyStr Re Py Round1A.
Local Open Scope Q_scope.

(** A bold first line in twice the dominant size becomes the title. *)
Example scenario_title :
  extract_document_title sample_document
    (analyze_document_statistics sample_document)
  = Some (chars "Annual Report 2023").
Proof. by vm_compute. Qed.

(** The line "1. Introduction" in size 16, with the h2 threshold at 15,
    is a heading of level H2. *)
Example scenario_numbered_heading :
  option_map (map (fun c => (Candidate.level c, Candidate.text c)))
    (heading_candidates
       [TextElement.mk (chars "1. Introduction") 0 16 16 false false]
       plain_stats)
  = Some [("H2"%string, chars "1. Introduction")].
Proof. by vm_compute. Qed.

(** Two headings with the same text on the same page collapse to one. *)
Example scenario_duplicate :
  let c := Candidate.mk "H1" (chars "Conclusion") 3 0.8 in
  post_process_outline [c; c] = [c].
Proof. by vm_compute. Qed.

(** Of 12 sections of one document, all above the minimum score, the 3
    of greatest score are selected. *)
Example scenario_diversity :
  let section (n : nat) :=
    Round1B.Section_.mk (chars "t") (chars "c") "a.pdf" 0 "general"
      (inject_Z (Z.of_nat n) / 20) None in
  map (fun s => (Round1B.Section_.relevance_score s, Round1B.Section_.rank s))
    (Round1B.rank_and_select (map section (seq 7 12)))
  = [(inject_Z 18 / 20, Some 1%nat); (inject_Z 17 / 20, Some 2%nat);
     (inject_Z 16 / 20, Some 3%nat)].
Proof. by vm_compute. Qed.

End Scenarios.

(** ** [rank_and_select]: where the selection comes from *)

Module SelectionProofs.
Import PyStr Py PyFacts Round1B RankerProofs.
Local Open Scope Q_scope.

(** The loop only adds to what is selected. *)
Lemma select_prefix (ranked selected : list Section_.t)
    (counts : gmap string nat) :
  exists added,
    select ranked selected counts = selected ++ added
    /\ added `sublist_of` ranked.
Proof.
  revert selected counts.
  induction ranked as [|y ranked IH]; intros selected counts; cbn [select].
  - exists []. by rewrite app_nil_r.
  - destruct (_ <=? _)%nat.
    { exists []. rewrite app_nil_r. split; [done|apply sublist_nil_l]. }
    destruct (Qltb _ _).
    { destruct (IH selected counts) as (added & -> & ?).
      exists added. split; [done|by apply sublist_cons]. }
    destruct (_ <=? _)%nat.
    { destruct (IH selected counts) as (added & -> & ?).
      exists added. split; [done|by apply sublist_cons]. }
    destruct (IH (selected ++ [y])
                (<[Section_.document y:=(counts !!! Section_.document y + 1)%nat]>
                   counts)) as (added & -> & ?).
    exists (y :: added). rewrite <- app_assoc. split; [done|].
    by apply sublist_skip.
Qed.

(** Without the [break] having fired, an eligible section of the
    ranking is selected or its document has its three sections. *)
Lemma select_complete (ranked selected : list Section_.t)
    (counts : gmap string nat) :
  (forall doc, counts !!! doc = length (from_document doc selected)) ->
  (length (select ranked selected counts) < max_sections)%nat ->
  forall x, x ∈ ranked -> min_score <= Section_.relevance_score x ->
    x ∈ select ranked selected counts
    \/ (max_per_doc
        <= length (from_document (Section_.document x)
                     (select ranked selected counts)))%nat.
Proof.
  revert selected counts.
  induction ranked as [|y ranked IH]; intros selected counts Hcnt Hlen x Hx Hmin;
    [by apply elem_of_nil in Hx|].
  revert Hlen. cbn [select].
  destruct (Nat.leb_spec max_sections (length selected)) as [Hfull|Hroom];
    [lia|].
  destruct (Qltb (Section_.relevance_score y) min_score) eqn:Hscore.
  { intros Hlen. apply elem_of_cons in Hx as [->|Hx]; [|by apply IH].
    apply Qltb_lt in Hscore. lra. }
  destruct (Nat.leb_spec max_per_doc (counts !!! Section_.document y))
    as [Hdoc|Hdoc].
  { intros Hlen. apply elem_of_cons in Hx as [->|Hx]; [|by apply IH].
    right.
    destruct (select_prefix ranked selected counts) as (added & -> & _).
    rewrite from_document_app, length_app, <- Hcnt. lia. }
  intros Hlen.
  set (counts' := <[Section_.document y:=(counts !!! Section_.document y + 1)%nat]>
                    counts) in *.
  assert (forall doc, counts' !!! doc = length (from_document doc (selected ++ [y])))
    as Hcnt'.
  { intros doc. rewrite from_document_app, length_app.
    unfold from_document at 2. simpl. rewrite filter_cons, filter_nil.
    unfold counts'. destruct (decide (Section_.document y = doc)) as [<-|Hne].
    - rewrite lookup_total_insert_eq, Hcnt. simpl. lia.
    - rewrite lookup_total_insert_ne, Hcnt by done. simpl. lia. }
  apply elem_of_cons in Hx as [->|Hx]; [|by apply IH].
  left. destruct (select_prefix ranked (selected ++ [y]) counts')
    as (added & -> & _).
  rewrite !elem_of_app. left. right. apply list_elem_of_here.
Qed.

(** The first eligible section of the ranking opens the selection. *)
Lemma select_first (ranked : list Section_.t) (x : Section_.t) :
  x ∈ ranked -> min_score <= Section_.relevance_score x ->
  exists best rest,
    select ranked [] ∅ = best :: rest
    /\ best ∈ ranked /\ min_score <= Section_.relevance_score best
    /\ (StronglySorted
          (precedes (fun a b => Qltb b a) Section_.relevance_score) ranked ->
        forall s, s ∈ ranked ->
          Section_.relevance_score s <= Section_.relevance_score best).
Proof.
  induction ranked as [|y ranked IH]; [by intros ?%elem_of_nil|].
  intros Hx Hmin. cbn [select]. simpl length.
  change (max_sections <=? 0)%nat with false. cbn iota.
  destruct (Qltb (Section_.relevance_score y) min_score) eqn:Hscore.
  - apply elem_of_cons in Hx as [->|Hx].
    { apply Qltb_lt in Hscore. lra. }
    destruct (IH Hx Hmin) as (best & rest & -> & Hin & Hbest & Hmax).
    exists best, rest. split; [done|].
    split; [by apply list_elem_of_further|]. split; [done|].
    intros Hs s Hs'. apply StronglySorted_inv in Hs as [Hs Hy].
    apply elem_of_cons in Hs' as [->|Hs']; [|by apply Hmax].
    apply Qltb_lt in Hscore. lra.
  - rewrite lookup_total_empty. change (max_per_doc <=? inhabitant)%nat with false.
    cbn iota.
    destruct (select_prefix ranked ([] ++ [y])
                (<[Section_.document y:=(inhabitant + 1)%nat]> ∅))
      as (added & -> & _).
    exists y, added. split; [done|]. split; [apply list_elem_of_here|].
    split; [by apply Qltb_ge in Hscore|].
    intros Hs s Hs'. apply StronglySorted_inv in Hs as [_ Hy].
    apply elem_of_cons in Hs' as [->|Hs']; [lra|].
    rewrite Forall_forall in Hy. specialize (Hy s Hs').
    unfold precedes in Hy. by apply Qltb_ge in Hy.
Qed.

Lemma select_none (ranked selected : list Section_.t) (counts : gmap string nat) :
  (forall s, s ∈ ranked -> Section_.relevance_score s < min_score) ->
  select ranked selected counts = selected.
Proof.
  revert selected counts.
  induction ranked as [|y ranked IH]; intros selected counts Hlow;
    cbn [select]; [done|].
  destruct (_ <=? _)%nat; [done|].
  assert (Qltb (Section_.relevance_score y) min_score = true) as ->.
  { apply Qltb_lt, Hlow, list_elem_of_here. }
  apply IH. intros s Hs. by apply Hlow, list_elem_of_further.
Qed.

Lemma elem_of_imap_set_rank (l : list Section_.t) (s' : Section_.t) :
  s' ∈ imap set_rank l <-> exists i s, l !! i = Some s /\ s' = set_rank i s.
Proof.
  rewrite list_elem_of_lookup. split.
  - intros [i Hi]. rewrite list_lookup_imap in Hi.
    destruct (l !! i) as [s|] eqn:E; [|done].
    injection Hi as <-. by exists i, s.
  - intros (i & s & Hi & ->). exists i. by rewrite list_lookup_imap, Hi.
Qed.

Section Selection.
Variable scored_sections : list Section_.t.

Let ranked := sort_reverse Qltb Section_.relevance_score scored_sections.

Lemma ranked_elem (s : Section_.t) : s ∈ ranked <-> s ∈ scored_sections.
Proof. unfold ranked, sort_reverse. by rewrite sort_Permutation. Qed.

Lemma rank_and_select_unfold :
  rank_and_select scored_sections = imap set_rank (select ranked [] ∅).
Proof.
  unfold rank_and_select, ranked. destruct scored_sections; [done|done].
Qed.

Lemma rank_and_select_elem (s' : Section_.t) :
  s' ∈ rank_and_select scored_sections ->
  exists i s, s ∈ scored_sections /\ s' = set_rank i s.
Proof.
  rewrite rank_and_select_unfold.
  intros (i & s & Hi & ->)%elem_of_imap_set_rank.
  exists i, s. split; [|done]. apply ranked_elem.
  destruct (select_prefix ranked [] ∅) as (added & E & Hsub).
  rewrite E in Hi. eapply elem_of_sublist; [|exact Hsub].
  apply list_elem_of_lookup. by exists i.
Qed.

(** Every selected section is a scored section with its rank set:
    nothing is invented and no field but the rank changes. *)
Theorem rank_and_select_from_input (s' : Section_.t) :
  s' ∈ rank_and_select scored_sections ->
  exists i s, s ∈ scored_sections /\ s' = set_rank i s.
Proof. apply rank_and_select_elem. Qed.

(** The selection is empty exactly when no section reaches the minimum
    score; otherwise it opens, with rank 1, on a section of greatest
    score. *)
Theorem rank_and_select_best_first :
  (rank_and_select scored_sections = []
   <-> forall s, s ∈ scored_sections -> Section_.relevance_score s < 0.3)
  /\ (forall x, x ∈ scored_sections -> 0.3 <= Section_.relevance_score x ->
      exists best rest,
        rank_and_select scored_sections = set_rank 0 best :: rest
        /\ best ∈ scored_sections
        /\ forall s, s ∈ scored_sections ->
             Section_.relevance_score s <= Section_.relevance_score best).
Proof.
  assert (forall x, x ∈ scored_sections -> 0.3 <= Section_.relevance_score x ->
      exists best rest,
        rank_and_select scored_sections = set_rank 0 best :: rest
        /\ best ∈ scored_sections
        /\ forall s, s ∈ scored_sections ->
             Section_.relevance_score s <= Section_.relevance_score best) as Hfirst.
  { intros x Hx Hmin. rewrite rank_and_select_unfold.
    apply ranked_elem in Hx.
    destruct (select_first ranked x Hx Hmin)
      as (best & rest & -> & Hin & _ & Hmax).
    exists best, (imap (set_rank ∘ S) rest). split; [done|].
    split; [by apply ranked_elem|].
    intros s Hs. apply Hmax; [apply score_desc_sorted|by apply ranked_elem]. }
  split; [|exact Hfirst]. split.
  - intros Hnil s Hs.
    destruct (Qlt_le_dec (Section_.relevance_score s) 0.3) as [|Hge]; [done|].
    destruct (Hfirst s Hs Hge) as (best & rest & E & _). congruence.
  - intros Hlow. rewrite rank_and_select_unfold, select_none; [done|].
    intros s Hs. by apply Hlow, ranked_elem.
Qed.

(** With fewer than 10 sections selected, a section that reaches the
    minimum score is selected unless its document already has its 3. *)
Theorem rank_and_select_complete (x : Section_.t) :
  (length (rank_and_select scored_sections) < 10)%nat ->
  x ∈ scored_sections -> 0.3 <= Section_.relevance_score x ->
  (exists i, set_rank i x ∈ rank_and_select scored_sections)
  \/ length (from_document (Section_.document x)
               (rank_and_select scored_sections)) = 3%nat.
Proof.
  rewrite rank_and_select_unfold, length_imap. intros Hlen Hx Hmin.
  apply ranked_elem in Hx.
  destruct (select_complete ranked [] ∅) with (x := x) as [Hin|Hdoc];
    try done.
  - left. apply list_elem_of_lookup in Hin as [i Hi]. exists i.
    apply elem_of_imap_set_rank. by exists i, x.
  - right.
    pose proof (imap_set_rank_document id (select ranked [] ∅)) as Edoc.
    simpl in Edoc.
    change (imap (fun i => set_rank i) (select ranked [] ∅))
      with (imap set_rank (select ranked [] ∅)) in Edoc.
    unfold from_document in *. rewrite Edoc.
    destruct (select_spec ranked [] ∅) as (added & E & _ & _ & Hmax & _).
    { simpl. unfold max_sections. lia. }
    { intros doc. by rewrite lookup_total_empty. }
    { intros doc. rewrite lookup_total_empty. unfold max_per_doc.
      change (inhabitant : nat) with 0%nat. lia. }
    rewrite E in *. specialize (Hmax (Section_.document x)).
    unfold from_document, max_per_doc in *. lia.
Qed.

End Selection.

End SelectionProofs.

(** ** [extract_document_sections]: the sections of a document *)

Module SegmenterFacts.
Import PyStr Py Round1B DocumentProcessor.

Section Scan.
Variable doc_name : string.
Variable doc_analysis : DocAnalysis.

Lemma gathered_blank elem body :
  strip (Element.text elem.2) = [] -> gathered (elem :: body) = gathered body.
Proof. intros E. unfold gathered. cbn [map concat]. by rewrite E. Qed.

Lemma gathered_text elem body :
  strip (Element.text elem.2) <> [] ->
  gathered (elem :: body)
  = strip (Element.text elem.2) ++ chars " " ++ gathered body.
Proof.
  intros E. unfold gathered. cbn [map concat].
  destruct (strip (Element.text elem.2)); [done|]. by rewrite <- app_assoc.
Qed.

Lemma starts_section_blank elem :
  strip (Element.text elem.2) = [] -> starts_section doc_analysis elem = false.
Proof. intros E. unfold starts_section. by rewrite bool_decide_eq_true_2. Qed.

Lemma starts_section_text elem :
  strip (Element.text elem.2) <> [] ->
  starts_section doc_analysis elem = is_section_heading elem.2 doc_analysis.
Proof. intros E. unfold starts_section. by rewrite bool_decide_eq_false_2. Qed.

Lemma extended_nil section : extended section [] = section.
Proof.
  destruct section. unfold extended, gathered. cbn. by rewrite app_nil_r.
Qed.

Lemma elem_of_add_section sections current_section s :
  s ∈ add_section sections current_section
  <-> s ∈ sections
      \/ (current_section = Some s /\ strip (RawSection.content s) <> []).
Proof.
  unfold add_section, has_content.
  destruct current_section as [section|].
  - case_bool_decide as E; cbn [negb].
    + split; [by left|]. intros [?|[[= ->] ?]]; done.
    + rewrite elem_of_app, list_elem_of_singleton. split.
      * intros [?| ->]; [by left|by right].
      * intros [?|[[= ->] ?]]; [by left|by right].
  - split; [by left|]. by intros [?|[? _]].
Qed.

Lemma scan_closes (elements : list (nat * Element.t))
    (sections : list RawSection.t) (current_section : option RawSection.t)
    (s : RawSection.t) :
  s ∈ add_section (scan doc_name doc_analysis elements sections current_section).1
        (scan doc_name doc_analysis elements sections current_section).2
  <-> closes doc_name doc_analysis elements sections current_section s.
Proof.
  revert sections current_section.
  induction elements as [|[page_num elem] elements IH];
    intros sections current_section.
  - cbn [scan fst snd]. rewrite elem_of_add_section. unfold closes.
    split.
    + intros [?|[-> ?]]; [by left|]. right; left.
      exists s, [], []. rewrite extended_nil. by repeat split.
    + intros [?|[(section & body & after & -> & E & _ & _ & -> & ?)|
                 (before & ? & ? & ? & ? & E & _)]].
      * by left.
      * symmetry in E. apply app_eq_nil in E as [-> _].
        rewrite extended_nil in *. by right.
      * symmetry in E. by apply app_eq_nil in E as [_ ?].
  - cbn [scan].
    destruct (strip (Element.text elem)) as [|c text] eqn:Etext.
    + (* a blank element is passed over *)
      rewrite IH. unfold closes.
      assert (starts_section doc_analysis (page_num, elem) = false) as Hno
        by by apply starts_section_blank.
      split.
      * intros [?|[(section & body & after & -> & -> & Hbody & Hafter & -> & ?)|
                   (before & p & h & body & after & -> & ? & ? & ? & ? & ?)]].
        -- by left.
        -- right; left. exists section, ((page_num, elem) :: body), after.
           repeat split; [by constructor|done| |done].
           unfold extended. by rewrite gathered_blank.
        -- right; right. by exists ((page_num, elem) :: before), p, h, body, after.
      * intros [?|[(section & body & after & -> & E & Hbody & Hafter & -> & Hs)|
                   (before & p & h & body & after & E & Hh & ? & ? & ? & ?)]].
        -- by left.
        -- right; left. destruct body as [|e body].
           { cbn in E. subst after. cbn in Hafter. congruence. }
           injection E as <- ->. apply Forall_cons in Hbody as [_ Hbody].
           exists section, body, after.
           unfold extended in *. rewrite gathered_blank in * by done.
           by repeat split.
        -- right; right. destruct before as [|e before].
           { injection E as <- <- ->. congruence. }
           injection E as <- ->. by exists before, p, h, body, after.
    + assert (strip (Element.text (page_num, elem).2) <> []) as Htext
        by (cbn; by rewrite Etext).
      pose proof (starts_section_text _ Htext) as Hstart. cbn [snd] in Hstart.
      destruct (is_section_heading elem doc_analysis) eqn:Hheading.
      * (* a heading: the open section is saved, a new one starts *)
        rewrite IH. unfold closes. rewrite elem_of_add_section.
        split.
        -- intros [[?|[-> ?]]|
                   [(section & body & after & [= <-] & -> & ? & ? & -> & ?)|
                    (before & p & h & body & after & -> & ? & ? & ? & ? & ?)]].
           ++ by left.
           ++ right; left. exists s, [], ((page_num, elem) :: elements).
              rewrite extended_nil. by repeat split.
           ++ right; right. exists [], page_num, elem, body, after.
              repeat split; try done.
              unfold extended, section_of. cbn. by rewrite Etext.
           ++ right; right.
              by exists ((page_num, elem) :: before), p, h, body, after.
        -- intros [?|[(section & body & after & -> & E & Hbody & Hafter & -> & Hs)|
                      (before & p & h & body & after & E & Hh & ? & ? & ? & ?)]].
           ++ by left; left.
           ++ destruct body as [|e body].
              { left; right. by rewrite extended_nil in *. }
              injection E as <- ->. apply Forall_cons in Hbody as [? _].
              congruence.
           ++ destruct before as [|e before].
              { injection E as <- <- ->. right; left.
                eexists _, body, after. repeat split; try done.
                subst s. unfold extended, section_of. cbn.
                by rewrite Etext. }
              injection E as <- ->. right; right.
              by exists before, p, h, body, after.
      * (* any other element goes to the open section *)
        rewrite IH. unfold closes.
        split.
        -- intros [?|[(section & body & after & Hcur & -> & Hbody & Hafter & -> & Hs)|
                      (before & p & h & body & after & -> & ? & ? & ? & ? & ?)]].
           ++ by left.
           ++ destruct current_section as [section0|]; [|done].
              injection Hcur as <-.
              right; left. exists section0, ((page_num, elem) :: body), after.
              assert (extended (add_content section0 (c :: text)) body
                      = extended section0 ((page_num, elem) :: body)) as <-.
              { unfold extended, add_content. cbn [RawSection.title
                  RawSection.content RawSection.document RawSection.page
                  RawSection.section_type].
                rewrite gathered_text by done. cbn [snd]. rewrite Etext.
                by rewrite <- !app_assoc. }
              repeat split; try done. constructor; [congruence|done].
           ++ right; right.
              by exists ((page_num, elem) :: before), p, h, body, after.
        -- intros [?|[(section & body & after & -> & E & Hbody & Hafter & -> & Hs)|
                      (before & p & h & body & after & E & Hh & ? & ? & ? & ?)]].
           ++ by left.
           ++ destruct body as [|e body].
              { cbn in E. subst after. cbn in Hafter. congruence. }
              injection E as <- ->. apply Forall_cons in Hbody as [_ Hbody].
              right; left.
              exists (add_content section (c :: text)), body, after.
              assert (extended (add_content section (c :: text)) body
                      = extended section ((page_num, elem) :: body)) as Heq.
              { unfold extended, add_content. cbn [RawSection.title
                  RawSection.content RawSection.document RawSection.page
                  RawSection.section_type].
                rewrite gathered_text by done. cbn [snd]. rewrite Etext.
                by rewrite <- !app_assoc. }
              rewrite Heq. by repeat split.
           ++ destruct before as [|e before].
              { injection E as <- <- ->. congruence. }
              injection E as <- ->. right; right.
              by exists before, p, h, body, after.
Qed.

(** The loops save at most one section for each heading. *)
Lemma scan_length (elements : list (nat * Element.t))
    (sections : list RawSection.t) (current_section : option RawSection.t) :
  length (add_section
            (scan doc_name doc_analysis elements sections current_section).1
            (scan doc_name doc_analysis elements sections current_section).2)
  <= length sections + (if current_section is Some _ then 1 else 0)
     + length (List.filter (starts_section doc_analysis) elements).
Proof.
  assert (forall sections current_section,
            length (add_section sections current_section)
            <= length sections + (if current_section is Some _ then 1 else 0)) as Hadd.
  { intros l [section|]; unfold add_section; [|lia].
    destruct (has_content _); rewrite ?length_app; cbn; lia. }
  revert sections current_section.
  induction elements as [|[page_num elem] elements IH];
    intros sections current_section.
  - cbn [scan fst snd List.filter length].
    pose proof (Hadd sections current_section). lia.
  - cbn [scan List.filter].
    destruct (strip (Element.text elem)) as [|c text] eqn:Etext.
    + rewrite starts_section_blank by done. apply IH.
    + rewrite starts_section_text by (cbn; by rewrite Etext). cbn [snd].
      destruct (is_section_heading elem doc_analysis).
      * etrans; [apply IH|].
        pose proof (Hadd sections current_section). cbn [length]. lia.
      * etrans; [apply IH|]. destruct current_section; cbn; lia.
Qed.

End Scan.

Lemma elem_of_extract_document_sections (document : Doc) (s : RawSection.t) :
  let doc_analysis := analyze_document_structure (pages document) in
  s ∈ extract_document_sections document
  <-> exists before page_num heading body after,
        page_elements (pages document)
        = before ++ (page_num, heading) :: body ++ after
        /\ starts_section doc_analysis (page_num, heading) = true
        /\ Forall (fun elem => starts_section doc_analysis elem = false) body
        /\ next_starts doc_analysis after
        /\ s = section_of (name document) page_num heading body
        /\ strip (RawSection.content s) <> [].
Proof.
  cbn zeta. unfold extract_document_sections. cbn zeta.
  set (doc_analysis := analyze_document_structure _).
  set (elements := page_elements _).
  pose proof (scan_closes (name document) doc_analysis elements [] None s)
    as Hs.
  destruct (scan _ _ _ _ _) as [sections current_section].
  cbn [fst snd] in *. rewrite Hs. unfold closes. split.
  - intros [Hin|[(? & ? & ? & ? & _)|?]]; [|done..].
    by apply elem_of_nil in Hin.
  - intros ?. by right; right.
Qed.

Lemma length_extract_document_sections (document : Doc) :
  length (extract_document_sections document)
  <= length (List.filter
               (starts_section (analyze_document_structure (pages document)))
               (page_elements (pages document))).
Proof.
  unfold extract_document_sections. cbn zeta.
  set (doc_analysis := analyze_document_structure _).
  set (elements := page_elements _).
  pose proof (scan_length (name document) doc_analysis elements [] None) as Hl.
  by destruct (scan _ _ _ _ _) as [sections current_section].
Qed.

(** The sections of a document are exactly these: for each element
    that starts a section (its text is not blank and it passes
    [is_section_heading]), the section titled with its trimmed text, on
    its page, under the name of the document and with the type of the
    title, whose content is gathered from the elements up to the next
    one that starts a section, provided this content is not blank.
    So the text before the first heading belongs to no section, and
    there is at most one section for each heading. *)
Theorem extract_document_sections_segments (document : Doc) :
  let doc_analysis := analyze_document_structure (pages document) in
  let elements := page_elements (pages document) in
  (forall s,
     s ∈ extract_document_sections document
     <-> exists before page_num heading body after,
           elements = before ++ (page_num, heading) :: body ++ after
           /\ starts_section doc_analysis (page_num, heading) = true
           /\ Forall (fun elem => starts_section doc_analysis elem = false)
                body
           /\ next_starts doc_analysis after
           /\ s = section_of (name document) page_num heading body
           /\ strip (RawSection.content s) <> [])
  /\ length (extract_document_sections document)
     <= length (List.filter (starts_section doc_analysis) elements).
Proof.
  cbn zeta. split.
  - intros s. apply elem_of_extract_document_sections.
  - apply length_extract_document_sections.
Qed.

End SegmenterFacts.

(** ** [generate_output], [extract_documents], [process_document_collection] *)

Module AnalyzerProofs.
Import PyStr Py PyFacts Round1B RankerProofs SelectionProofs SegmenterFacts.
Import PersonaAnalyzer DocumentProcessor RelevanceScorer PersonaDrivenAnalyzer.
Local Open Scope Q_scope.

Lemma length_refine (content : list ascii) : (length (refine content) <= 503)%nat.
Proof.
  unfold refine. destruct (Nat.ltb_spec 500 (length content)); [|lia].
  rewrite length_app, length_take. change (length (chars "...")) with 3%nat.
  lia.
Qed.

(** The entries made from ranked sections carry the ranks in order. *)
Lemma mapM_extracted_section (k : nat) (l : list Section_.t) :
  exists extracted,
    mapM extracted_section (imap (fun i => set_rank (k + i)) l) = Some extracted
    /\ ExtractedSection.importance_rank <$> extracted = seq (k + 1) (length l)
    /\ ExtractedSection.document <$> extracted = Section_.document <$> l
    /\ ExtractedSection.section_title <$> extracted = Section_.title <$> l
    /\ ExtractedSection.page_number <$> extracted = Section_.page <$> l.
Proof.
  revert k. induction l as [|s l IH]; intros k.
  - exists []. by repeat split.
  - destruct (IH (S k)) as (extracted & E & Hrank & Hdoc & Htitle & Hpage).
    exists (ExtractedSection.mk (Section_.document s) (Section_.page s)
              (Section_.title s) (k + 0 + 1) :: extracted).
    rewrite imap_cons. cbn [mapM]. 
    replace (imap ((fun i => set_rank (k + i)) ∘ S) l)
      with (imap (fun i => set_rank (S k + i)) l).
    2:{ apply imap_ext. intros i y _. simpl.
        by replace (k + S i)%nat with (S (k + i)) by lia. }
    rewrite E. cbn. split; [done|]. rewrite Hrank, Hdoc, Htitle, Hpage.
    split; [|done]. f_equal; lia.
Qed.

Lemma imap_set_rank_title (f : nat -> nat) (l : list Section_.t) :
  Section_.title <$> imap (fun i => set_rank (f i)) l = Section_.title <$> l.
Proof.
  revert f. induction l as [|x l IH]; intros f; simpl; [done|].
  f_equal. apply (IH (f ∘ S)).
Qed.

Section Analyzer.
Variable now : string.
Variable load_configuration : option Config.
Variable path_exists : string -> bool.
Variable extract_pdf_content :
  string -> option (list (nat * list Round1B.Element.t)).

Lemma generate_output_selected (config : Config)
    (scored_sections : list Section_.t) :
  let selected := rank_and_select scored_sections in
  exists output,
    generate_output now config selected = Some output
    /\ ExtractedSection.importance_rank <$> extracted_sections output
       = seq 1 (length selected)
    /\ ExtractedSection.document <$> extracted_sections output
       = Section_.document <$> selected
    /\ ExtractedSection.section_title <$> extracted_sections output
       = Section_.title <$> selected
    /\ (length (extracted_sections output) <= 10)%nat
    /\ length (sub_section_analysis output) = Nat.min 5 (length selected)
    /\ Forall (fun s => (length (SubSection.refined_text s) <= 503)%nat)
         (sub_section_analysis output)
    /\ input_documents (metadata output) = documents config.
Proof.
  cbn zeta. rewrite rank_and_select_unfold.
  set (chosen := select _ _ _).
  destruct (mapM_extracted_section 0 chosen)
    as (extracted & E & Hrank & Hdoc & Htitle & _).
  simpl in E.
  change (imap (fun i => set_rank i) chosen) with (imap set_rank chosen) in E.
  unfold generate_output. rewrite E. cbn [mbind option_bind].
  eexists. split; [done|]. cbn [extracted_sections sub_section_analysis metadata
                                 input_documents].
  pose proof (imap_set_rank_document id chosen) as Edoc.
  simpl in Edoc.
  change (imap (fun i => set_rank i) chosen) with (imap set_rank chosen) in Edoc.
  pose proof (imap_set_rank_title id chosen) as Etitle.
  simpl in Etitle.
  change (imap (fun i => set_rank i) chosen) with (imap set_rank chosen)
    in Etitle.
  rewrite length_imap, Edoc, Etitle.
  split; [done|]. split; [done|]. split; [done|]. split.
  - assert (length extracted = length chosen) as ->.
    { by rewrite <- (length_fmap ExtractedSection.importance_rank), Hrank,
        length_seq. }
    destruct (select_spec
                (sort_reverse Qltb Section_.relevance_score scored_sections) [] ∅)
      as (added & Esel & _ & Hlen & _).
    { simpl. unfold max_sections. lia. }
    { intros doc. by rewrite lookup_total_empty. }
    { intros doc. rewrite lookup_total_empty. unfold max_per_doc.
      change (inhabitant : nat) with 0%nat. lia. }
    subst chosen. rewrite Esel. unfold max_sections in Hlen. exact Hlen.
  - split; [by rewrite length_map, length_take, length_imap|].
    split; [|done].
    apply Forall_forall. intros s Hs.
    apply list_elem_of_In, in_map_iff in Hs as (x & <- & _).
    apply length_refine.
Qed.

Lemma mapM_extracted_section_page (l : list Section_.t)
    (extracted : list ExtractedSection.t) :
  mapM extracted_section l = Some extracted ->
  ExtractedSection.page_number <$> extracted = Section_.page <$> l.
Proof.
  revert extracted. induction l as [|s l IH]; intros extracted; cbn [mapM].
  - cbn. by intros [= <-].
  - destruct (extracted_section s) as [entry|] eqn:Eentry; [|done].
    cbn [mbind option_bind].
    destruct (mapM extracted_section l) as [more|]; [|done].
    cbn. intros [= <-]. cbn. f_equal; [|by apply IH].
    unfold extracted_section in Eentry.
    destruct (Section_.rank s); [|done]. by injection Eentry as <-.
Qed.

(** [generate_output] never fails on what [rank_and_select] returns:
    every section has its rank.  The entries of [extracted_sections]
    are the selected sections in order, each with its document, page
    and title, with the ranks 1, 2, ..., at most 10 of them.  The
    entries of [sub_section_analysis] are the first 5 selected
    sections in order, each with its document, its page and its
    content, cut after 500 characters and followed by "..." when it is
    longer, so of at most 503 characters.  The metadata echoes the
    documents of the configuration. *)
Theorem generate_output_ranked (config : Config)
    (scored_sections : list Section_.t) :
  let selected := rank_and_select scored_sections in
  exists output,
    generate_output now config selected = Some output
    /\ ExtractedSection.importance_rank <$> extracted_sections output
       = seq 1 (length selected)
    /\ ExtractedSection.document <$> extracted_sections output
       = Section_.document <$> selected
    /\ ExtractedSection.section_title <$> extracted_sections output
       = Section_.title <$> selected
    /\ (length (extracted_sections output) <= 10)%nat
    /\ length (sub_section_analysis output) = Nat.min 5 (length selected)
    /\ Forall (fun s => (length (SubSection.refined_text s) <= 503)%nat)
         (sub_section_analysis output)
    /\ input_documents (metadata output) = documents config
    /\ ExtractedSection.page_number <$> extracted_sections output
       = Section_.page <$> selected
    /\ Forall2 (fun section entry =>
                  SubSection.document entry = Section_.document section
                  /\ SubSection.page_number entry = Section_.page section
                  /\ SubSection.refined_text entry
                     = if (500 <? length (Section_.content section))%nat
                       then take 500 (Section_.content section) ++ chars "..."
                       else Section_.content section)
         (take 5 selected) (sub_section_analysis output).
Proof.
  cbn zeta.
  destruct (generate_output_selected config scored_sections)
    as (output & E & Hrank & Hdoc & Htitle & Hlen & Hsub & Htext & Hdocs).
  exists output. do 8 (split; [done|]).
  unfold generate_output in E.
  destruct (mapM extracted_section (rank_and_select scored_sections))
    as [extracted|] eqn:Emap; [|done].
  cbn [mbind option_bind] in E. injection E as <-.
  cbn [extracted_sections sub_section_analysis]. split.
  - by apply mapM_extracted_section_page.
  - change (map sub_section ?l) with (sub_section <$> l).
    apply Forall2_fmap_r, Forall_Forall2_diag, Forall_forall.
    by intros section _.
Qed.

Lemma extract_documents_names (document_list : list string) :
  name <$> extract_documents path_exists extract_pdf_content document_list
  = List.filter (readable path_exists extract_pdf_content) document_list.
Proof.
  unfold readable.
  induction document_list as [|doc_name rest IH];
    cbn [extract_documents List.filter]; [done|].
  destruct (path_exists doc_name && endswith _ _); [|done].
  destruct (extract_pdf_content doc_name) as [content|] eqn:E; cbn; [|done].
  by f_equal.
Qed.

(** [rank_and_select] keeps at most 3 sections of a document. *)
Lemma rank_and_select_per_document (scored_sections : list Section_.t)
    (doc_name : string) :
  (length (from_document doc_name (rank_and_select scored_sections)) <= 3)%nat.
Proof.
  rewrite rank_and_select_unfold.
  set (ranked := sort_reverse Qltb Section_.relevance_score scored_sections).
  pose proof (imap_set_rank_document id (select ranked [] ∅)) as Edoc.
  simpl in Edoc.
  change (imap (fun i => set_rank i) (select ranked [] ∅))
    with (imap set_rank (select ranked [] ∅)) in Edoc.
  unfold from_document. rewrite Edoc.
  destruct (select_spec ranked [] ∅) as (added & E & _ & _ & Hmax & _).
  { simpl. unfold max_sections. lia. }
  { intros doc. by rewrite lookup_total_empty. }
  { intros doc. rewrite lookup_total_empty. unfold max_per_doc.
    change (inhabitant : nat) with 0%nat. lia. }
  rewrite E. apply Hmax.
Qed.

(** [extract_documents] returns the readable documents of its list, in
    the order of the list, each with the content extracted from it: a
    document that is missing, is no PDF or fails to extract is left out
    and the ones after it are still read. *)
Theorem extract_documents_readable (document_list : list string) :
  name <$> extract_documents path_exists extract_pdf_content document_list
  = List.filter (readable path_exists extract_pdf_content) document_list
  /\ Forall (fun doc => extract_pdf_content (name doc) = Some (pages doc))
       (extract_documents path_exists extract_pdf_content document_list).
Proof.
  unfold readable.
  induction document_list as [|doc_name rest [IH1 IH2]];
    cbn [extract_documents List.filter]; [done|].
  destruct (path_exists doc_name && endswith _ _); [|done].
  destruct (extract_pdf_content doc_name) as [content|] eqn:E; cbn.
  - split; [by f_equal|]. by constructor.
  - done.
Qed.

(** When the configuration loads, every extracted section of the
    output comes from a document of the configuration that could be
    read: it carries the name of this document, has a title that is
    not empty, and no document has more than 3 of the extracted
    sections. *)
Theorem analysis_sections_from_documents (config : Config) :
  load_configuration = Some config ->
  let result :=
    process_document_collection now load_configuration path_exists
      extract_pdf_content in
  Forall (fun entry =>
            ExtractedSection.document entry
            ∈ List.filter (readable path_exists extract_pdf_content)
                (documents config)
            /\ ExtractedSection.section_title entry <> [])
    (extracted_sections result)
  /\ forall doc_name,
       (length (filter (fun name => name = doc_name)
                  (ExtractedSection.document <$> extracted_sections result))
        <= 3)%nat.
Proof.
  intros Hload. cbn zeta. unfold process_document_collection, analyze.
  rewrite Hload. cbn [mbind option_bind].
  set (docs := extract_documents _ _ _).
  set (profile := create_persona_profile _ _).
  set (all_sections := concat _).
  set (scored := score_sections _ _).
  destruct (generate_output_selected config scored)
    as (output & E & _ & Hdoc & Htitle & _).
  rewrite E. split.
  - assert (Forall (fun s => Section_.document s
                             ∈ List.filter (readable path_exists
                                              extract_pdf_content)
                                 (documents config)
                             /\ Section_.title s <> [])
              (rank_and_select scored)) as Hsel.
    { apply Forall_forall. intros s' Hs'.
      apply rank_and_select_elem in Hs' as (i & s & Hs & ->).
      cbn [set_rank Section_.document Section_.title].
      apply list_elem_of_fmap in Hs as (raw & -> & Hraw).
      cbn [with_score Section_.document Section_.title].
      apply list_elem_of_In, in_concat in Hraw as (l & Hl & Hraw).
      apply in_map_iff in Hl as (doc & <- & Hdocs).
      apply list_elem_of_In, elem_of_extract_document_sections in Hraw
        as (before & page_num & heading & body & after
            & _ & Hstart & _ & _ & -> & _).
      cbn [section_of RawSection.document RawSection.title]. split.
      - rewrite <- extract_documents_names.
        apply list_elem_of_fmap. exists doc.
        split; [done|by apply list_elem_of_In].
      - unfold starts_section in Hstart.
        apply andb_true_iff in Hstart as [Hne _].
        apply negb_true_iff in Hne. by apply bool_decide_eq_false in Hne. }
    apply Forall_forall. intros entry Hentry.
    apply list_elem_of_lookup in Hentry as [i Hi].
    assert (Section_.document <$> rank_and_select scored !! i
            = Some (ExtractedSection.document entry)) as Hd
      by by rewrite <- list_lookup_fmap, <- Hdoc, list_lookup_fmap, Hi.
    assert (Section_.title <$> rank_and_select scored !! i
            = Some (ExtractedSection.section_title entry)) as Ht
      by by rewrite <- list_lookup_fmap, <- Htitle, list_lookup_fmap, Hi.
    destruct (rank_and_select scored !! i) as [s|] eqn:Es; [|done].
    injection Hd as <-. injection Ht as <-.
    eapply Forall_forall in Hsel; [exact Hsel|].
    apply list_elem_of_lookup. by exists i.
  - intros doc_name. rewrite Hdoc.
    apply (rank_and_select_per_document scored doc_name).
Qed.

End Analyzer.

(** A configuration that loads, for the evidence that the hypothesis
    above can hold. *)
Lemma analysis_sections_from_documents_witness :
  let result :=
    process_document_collection "2025-07-28T10:00:00" (Some sample_config)
      (fun _ => true) (fun _ => Some plain_page) in
  Some sample_config = Some sample_config
  /\ forall doc_name,
       (length (filter (fun name => name = doc_name)
                  (ExtractedSection.document <$> extracted_sections result))
        <= 3)%nat.
Proof.
  cbn zeta. split; [reflexivity|].
  exact (proj2 (analysis_sections_from_documents "2025-07-28T10:00:00"
                  (Some sample_config) (fun _ => true)
                  (fun _ => Some plain_page) sample_config eq_refl)).
Defined.

End AnalyzerProofs.

(** ** [process_document_collection] on the configuration as loaded *)

Module ConfigProofs.
Import PyStr Py PyFacts Round1B RankerProofs SelectionProofs.
Import PersonaAnalyzer DocumentProcessor RelevanceScorer AnalyzerProofs.
Import JsonConfig.

Section Analyzer.
Variable now : string.
Variable load_configuration : option json.
Variable path_exists : string -> bool.
Variable extract_pdf_content :
  string -> option (list (nat * list Round1B.Element.t)).

(** On strings the loop of [extract_documents] does not raise, and
    gives the documents that can be read. *)
Lemma extract_items_strings (items : list json) :
  Forall is_string items ->
  extract_items path_exists extract_pdf_content items
  = Some (PersonaDrivenAnalyzer.extract_documents path_exists
            extract_pdf_content (strings items)).
Proof.
  induction 1 as [|item items [doc_name ->] _ IH]; [done|].
  cbn [extract_items]. rewrite IH. cbn [mbind option_bind].
  unfold strings. cbn [omap list_omap]. fold (strings items).
  cbn [PersonaDrivenAnalyzer.extract_documents].
  destruct (path_exists doc_name && endswith _ _); [|done].
  by destruct (extract_pdf_content doc_name).
Qed.

(** An item that is no string makes the loop raise. *)
Lemma extract_items_raises (items : list json) :
  is_Some (extract_items path_exists extract_pdf_content items) ->
  Forall is_string items.
Proof.
  induction items as [|item items IH]; [constructor|].
  cbn [extract_items]. destruct item as [| | |doc_name| |];
    try (by intros [? ?]).
  destruct (extract_items path_exists extract_pdf_content items);
    [|by intros [? ?]].
  intros _. constructor; [by exists doc_name|]. by apply IH.
Qed.

(** The documents entry of a configuration can be gone through
    exactly when it is a list of strings, a string or a dict. *)
Lemma extract_documents_defined (document_list : json) :
  is_Some (extract_documents path_exists extract_pdf_content document_list)
  <-> match document_list with
      | JArray items => Forall is_string items
      | JString _ | JObject _ => True
      | JNull | JBool _ | JNumber _ => False
      end.
Proof.
  unfold extract_documents.
  destruct document_list as [| | |s|items|entries]; cbn [iterate];
    cbn [mbind option_bind]; try (split; [by intros [? ?]|done]).
  - split; [done|]. intros _. rewrite extract_items_strings; [by eexists|].
    apply Forall_forall. intros item Hin.
    apply list_elem_of_In, in_map_iff in Hin as (c & <- & _). by eexists.
  - split; [apply extract_items_raises|].
    intros Hitems. rewrite extract_items_strings by done. by eexists.
  - split; [done|]. intros _. rewrite extract_items_strings; [by eexists|].
    apply Forall_forall. intros item Hin.
    apply list_elem_of_In, in_map_iff in Hin as (entry & <- & _). by eexists.
Qed.

Lemma extract_documents_typed (document_list : json)
    (documents : list Doc) :
  extract_documents path_exists extract_pdf_content document_list
  = Some documents ->
  documents
  = PersonaDrivenAnalyzer.extract_documents path_exists extract_pdf_content
      (names document_list).
Proof.
  unfold extract_documents, names.
  destruct (iterate document_list) as [items|]; [|done].
  cbn [mbind option_bind default]. intros Hitems.
  rewrite extract_items_strings in Hitems; [by injection Hitems|].
  apply extract_items_raises. by rewrite Hitems.
Qed.

(** The analysis returns a result only on a configuration it can
    read. *)
Lemma analyze_readable (config : json) (result : Output) :
  load_configuration = Some config ->
  analyze now load_configuration path_exists extract_pdf_content = Some result ->
  readable_config config.
Proof.
  intros Hload. unfold analyze. rewrite Hload. cbn [mbind option_bind].
  destruct config as [| | | | |entries]; try done. cbn [subscript].
  destruct (lookup_entry entries "documents") as [documents|] eqn:Edocs;
    [|done].
  cbn [mbind option_bind].
  destruct (extract_documents _ _ documents) as [docs|] eqn:Eextract;
    [|done].
  cbn [mbind option_bind].
  destruct (lookup_entry entries "persona") as [persona|] eqn:Epersona;
    [|done].
  cbn [mbind option_bind].
  destruct (lookup_entry entries "job_to_be_done") as [job|] eqn:Ejob;
    [|done].
  cbn [mbind option_bind]. unfold create_persona_profile.
  destruct persona as [| | |persona| |]; try done.
  destruct job as [| | |job| |]; try done.
  intros _. exists entries, documents, persona, job.
  do 4 (split; [done|]).
  apply extract_documents_defined. by rewrite Eextract.
Qed.

(** On a configuration it can read the analysis does not raise: it is
    the analysis of the configuration with its entries read, under the
    metadata of the configuration as loaded. *)
Lemma analyze_typed (config : json) :
  load_configuration = Some config -> readable_config config ->
  exists result typed_result,
    analyze now load_configuration path_exists extract_pdf_content
    = Some result
    /\ PersonaDrivenAnalyzer.analyze now (Some (typed config)) path_exists
         extract_pdf_content = Some typed_result
    /\ subscript config "documents" = Some (input_documents (metadata result))
    /\ subscript config "persona" = Some (metadata_persona (metadata result))
    /\ subscript config "job_to_be_done"
       = Some (metadata_job_to_be_done (metadata result))
    /\ extracted_sections result
       = PersonaDrivenAnalyzer.extracted_sections typed_result
    /\ sub_section_analysis result
       = PersonaDrivenAnalyzer.sub_section_analysis typed_result
    /\ PersonaDrivenAnalyzer.ExtractedSection.importance_rank
         <$> extracted_sections result
       = seq 1 (length (extracted_sections result))
    /\ (length (extracted_sections result) <= 10)%nat
    /\ (length (sub_section_analysis result) <= 5)%nat.
Proof.
  intros Hload
    (entries & documents & persona & job & -> & Edocs & Epersona & Ejob & Hdocs).
  apply extract_documents_defined in Hdocs as [docs Eextract].
  pose proof (extract_documents_typed _ _ Eextract) as Hnames.
  unfold analyze, PersonaDrivenAnalyzer.analyze. rewrite Hload.
  cbn [mbind option_bind subscript]. rewrite Edocs. cbn [mbind option_bind].
  rewrite Eextract. cbn [mbind option_bind]. rewrite Epersona, Ejob.
  cbn [mbind option_bind create_persona_profile].
  unfold typed. cbn [subscript PersonaDrivenAnalyzer.documents
    PersonaDrivenAnalyzer.persona PersonaDrivenAnalyzer.job_to_be_done].
  rewrite Edocs, Epersona, Ejob. cbn [default id]. rewrite <- Hnames.
  set (profile := PersonaAnalyzer.create_persona_profile _ _).
  set (scored := score_sections _ profile).
  set (typed_config := {| PersonaDrivenAnalyzer.documents := _ |}).
  destruct (generate_output_selected now typed_config scored)
    as (output & E & Hrank & _ & _ & Hlen & Hsub & _).
  unfold PersonaDrivenAnalyzer.generate_output in E |- *.
  unfold generate_output. cbn [subscript]. rewrite Edocs, Epersona, Ejob.
  cbn [mbind option_bind].
  destruct (mapM PersonaDrivenAnalyzer.extracted_section
              (rank_and_select scored)) as [extracted|]; [|done].
  cbn [mbind option_bind] in E |- *. injection E as <-.
  cbn [PersonaDrivenAnalyzer.extracted_sections
       PersonaDrivenAnalyzer.sub_section_analysis] in *.
  eexists _, _. split; [reflexivity|]. split; [reflexivity|].
  cbn [metadata input_documents metadata_persona metadata_job_to_be_done
       extracted_sections sub_section_analysis
       PersonaDrivenAnalyzer.extracted_sections
       PersonaDrivenAnalyzer.sub_section_analysis].
  do 5 (split; [done|]). split.
  - rewrite Hrank. f_equal.
    by rewrite <- (length_fmap
                     PersonaDrivenAnalyzer.ExtractedSection.importance_rank),
      Hrank, length_seq.
  - split; [done|]. rewrite Hsub. lia.
Qed.

(** The analysis raises, and the fallback output is written, exactly
    when loading the configuration raises or the configuration loaded
    is not one the analysis can read: it is no dict, an entry is
    missing, the persona or the job is no string, or the documents are
    no list of strings, string or dict.  A document that is missing or
    cannot be extracted never makes it raise.  On a configuration it
    can read, the analysis writes the sections of the analysis of the
    configuration with its entries read, at most 10 extracted sections
    ranked 1, 2, ... and at most 5 sub-section entries, under the
    documents, persona and job of the configuration as loaded. *)
Theorem process_document_collection_fallback :
  let analysis :=
    analyze now load_configuration path_exists extract_pdf_content in
  let result :=
    process_document_collection now load_configuration path_exists
      extract_pdf_content in
  (analysis = None
   <-> load_configuration = None
       \/ exists config,
            load_configuration = Some config /\ ~ readable_config config)
  /\ (analysis = None -> result = create_fallback_output now)
  /\ (forall config,
        load_configuration = Some config -> readable_config config ->
        exists typed_result,
          analysis = Some result
          /\ PersonaDrivenAnalyzer.analyze now (Some (typed config))
               path_exists extract_pdf_content = Some typed_result
          /\ subscript config "documents"
             = Some (input_documents (metadata result))
          /\ subscript config "persona"
             = Some (metadata_persona (metadata result))
          /\ subscript config "job_to_be_done"
             = Some (metadata_job_to_be_done (metadata result))
          /\ extracted_sections result
             = PersonaDrivenAnalyzer.extracted_sections typed_result
          /\ sub_section_analysis result
             = PersonaDrivenAnalyzer.sub_section_analysis typed_result
          /\ PersonaDrivenAnalyzer.ExtractedSection.importance_rank
               <$> extracted_sections result
             = seq 1 (length (extracted_sections result))
          /\ (length (extracted_sections result) <= 10)%nat
          /\ (length (sub_section_analysis result) <= 5)%nat).
Proof.
  cbn zeta. split; [|split].
  - split.
    + intros Hnone. destruct load_configuration as [config|] eqn:Hload;
        [right|by left].
      exists config. split; [done|]. intros Hreadable.
      destruct (analyze_typed config Hload Hreadable) as (result & ? & E & _).
      rewrite Hload in E. congruence.
    + intros [Hload|(config & Hload & Hbad)].
      * unfold analyze. by rewrite Hload.
      * destruct (analyze now load_configuration path_exists
                    extract_pdf_content) as [result|] eqn:E; [|done].
        exfalso. apply Hbad. by eapply analyze_readable.
  - intros Hnone. unfold process_document_collection. by rewrite Hnone.
  - intros config Hload Hreadable.
    destruct (analyze_typed config Hload Hreadable)
      as (result & typed_result & E & Etyped & H).
    unfold process_document_collection. rewrite E.
    by exists typed_result.
Qed.

End Analyzer.

(** A configuration whose persona is [null] loads, yet the fallback
    is written. *)
Example scenario_null_persona :
  process_document_collection "2025-07-28T10:00:00"
    (Some null_persona_config) (fun _ => true) (fun _ => None)
  = create_fallback_output "2025-07-28T10:00:00".
Proof. reflexivity. Qed.

(** A configuration the analysis can read, one of whose documents
    cannot be extracted: no fallback, the output echoes the
    configuration. *)
Example scenario_unreadable_document :
  readable_config sample_json_config
  /\ exists result,
       analyze "2025-07-28T10:00:00" (Some sample_json_config)
         (fun _ => true) (fun _ => None) = Some result
       /\ input_documents (metadata result) = JArray [JString "report.pdf"]
       /\ extracted_sections result = [].
Proof.
  split.
  - eexists _, _, _, _. split; [reflexivity|]. do 3 (split; [reflexivity|]).
    constructor; [by eexists|constructor].
  - eexists. split; [by vm_compute|]. by split.
Qed.

End ConfigProofs.

(** ** [RelevanceScorer]: the ranges of the scores *)

Module ScorerProofs.
Import PyStr Py PyFacts Round1B.
Import PersonaAnalyzer DocumentProcessor RelevanceScorer.
Local Open Scope Q_scope.

Lemma ratio_nonneg (n m : nat) : (0 < m)%nat -> 0 <= ratio n m.
Proof.
  intros Hm. unfold ratio.
  apply Qle_shift_div_l.
  - change 0 with (inject_Z 0). rewrite <- Zlt_Qlt. lia.
  - rewrite Qmult_0_l. change 0 with (inject_Z 0). rewrite <- Zle_Qle. lia.
Qed.

(** [min(x, 1.0)] of a number that is not negative lies in (0, 1). *)
Lemma min2_unit (x : Q) : 0 <= x -> 0 <= min2 x 1.0 /\ min2 x 1.0 <= 1.
Proof.
  intros Hx. destruct (min2_spec x 1.0) as [[-> ?]|[-> ?]]; split; lra.
Qed.

Lemma keyword_score_range (section : RawSection.t) (profile : Profile) :
  0 <= calculate_keyword_score section profile
  /\ calculate_keyword_score section profile <= 1.
Proof.
  unfold calculate_keyword_score. cbn zeta.
  set (text := lower _).
  assert (forall keywords,
            0 <= ratio (count_matches keywords text)
                   (Nat.max (size keywords) 1)) as Hratio
    by (intros keywords; apply ratio_nonneg; lia).
  pose proof (min2_unit _ (Hratio (expertise_areas profile))).
  pose proof (min2_unit _ (Hratio (job_priorities profile))).
  split;
  lra.
Qed.

Lemma dict_get_range (preferences : list (string * Q)) (key : string)
    (lo hi default : Q) :
  Forall (fun e => lo <= e.2 /\ e.2 <= hi) preferences ->
  lo <= default /\ default <= hi ->
  lo <= dict_get preferences key default
  /\ dict_get preferences key default <= hi.
Proof.
  intros Hall Hdefault.
  induction Hall as [|[k v] preferences Hv _ IH]; cbn [dict_get]; [done|].
  by destruct (bool_decide _).
Qed.

Lemma section_type_score_range (section : RawSection.t) (profile : Profile) :
  0.5 <= calculate_section_type_score section profile
  /\ calculate_section_type_score section profile <= 0.9.
Proof.
  unfold calculate_section_type_score, type_preferences. cbn zeta.
  cbn [dict_get].
  repeat destruct (bool_decide (_ = persona_type profile));
    (apply dict_get_range; [|split; lra]);
    repeat (apply Forall_cons; split; [cbn; split; lra|]); constructor.
Qed.

Lemma content_depth_score_range (section : RawSection.t) :
  0.3 <= calculate_content_depth_score section
  /\ calculate_content_depth_score section <= 1.
Proof.
  unfold calculate_content_depth_score. cbn zeta.
  repeat destruct (_ <? _)%nat; lra.
Qed.

Lemma quantitative_score_range (section : RawSection.t) :
  0 <= calculate_quantitative_score section
  /\ calculate_quantitative_score section <= 1.
Proof.
  unfold calculate_quantitative_score. cbn zeta.
  apply min2_unit. apply Qle_shift_div_l; [lra|].
  rewrite Qmult_0_l. change 0 with (inject_Z 0). rewrite <- Zle_Qle. lia.
Qed.

Lemma position_score_range (section : RawSection.t) :
  0.4 <= calculate_position_score section
  /\ calculate_position_score section <= 1.
Proof.
  unfold calculate_position_score. cbn zeta.
  destruct (_ =? _)%nat; repeat destruct (_ <=? _)%nat; lra.
Qed.

(** Whatever the persona type, each weight lies between 0.15 and 0.35;
    the weights add up to 1, except for an academic researcher, where
    they add up to 1.05, and for a business analyst, where they add up
    to 1.2. *)
Theorem relevance_weights_total (persona_type : string) :
  let weights := calculate_relevance_weights persona_type in
  let total :=
    keyword_match weights + section_type weights + content_depth weights
    + quantitative_content weights + position_importance weights in
  Forall (fun weight => 0.15 <= weight /\ weight <= 0.35)
    [keyword_match weights; section_type weights; content_depth weights;
     quantitative_content weights; position_importance weights]
  /\ total ==
     (if bool_decide (persona_type = "academic_researcher"%string) then 1.05
      else if bool_decide (persona_type = "business_analyst"%string) then 1.2
      else 1).
Proof.
  cbn zeta. unfold calculate_relevance_weights.
  repeat destruct (bool_decide _); cbn;
    (split; [repeat (apply Forall_cons; split; [lra|]); constructor
            |reflexivity]).
Qed.

(** With weights that are not negative the relevance score of a
    section lies between 0 and 1. *)
Lemma relevance_score_unit (section : RawSection.t) (profile : Profile) :
  let weights := relevance_weights profile in
  0 <= keyword_match weights -> 0 <= section_type weights ->
  0 <= content_depth weights -> 0 <= quantitative_content weights ->
  0 <= position_importance weights ->
  0 <= calculate_relevance_score section profile
  /\ calculate_relevance_score section profile <= 1.
Proof.
  cbn zeta. intros Hk Ht Hd Hq Hp.
  unfold calculate_relevance_score. cbn zeta.
  apply min2_unit.
  pose proof (keyword_score_range section profile) as [? _].
  pose proof (section_type_score_range section profile) as [? _].
  pose proof (content_depth_score_range section) as [? _].
  pose proof (quantitative_score_range section) as [? _].
  pose proof (position_score_range section) as [? _].
  pose proof (Qmult_le_0_compat (calculate_keyword_score section profile)
                _ ltac:(lra) Hk).
  pose proof (Qmult_le_0_compat (calculate_section_type_score section profile)
                _ ltac:(lra) Ht).
  pose proof (Qmult_le_0_compat (calculate_content_depth_score section)
                _ ltac:(lra) Hd).
  pose proof (Qmult_le_0_compat (calculate_quantitative_score section)
                _ ltac:(lra) Hq).
  pose proof (Qmult_le_0_compat (calculate_position_score section)
                _ ltac:(lra) Hp).
  lra.
Qed.

Lemma relevance_score_floor (section : RawSection.t) (profile : Profile) :
  relevance_weights profile
  = calculate_relevance_weights (persona_type profile) ->
  0.22 <= calculate_relevance_score section profile
  /\ calculate_relevance_score section profile <= 1.
Proof.
  intros Hweights. unfold calculate_relevance_score. cbn zeta.
  pose proof (keyword_score_range section profile).
  pose proof (section_type_score_range section profile).
  pose proof (content_depth_score_range section).
  pose proof (quantitative_score_range section).
  pose proof (position_score_range section).
  set (k := calculate_keyword_score _ _) in *.
  set (t := calculate_section_type_score _ _) in *.
  set (d := calculate_content_depth_score _) in *.
  set (q := calculate_quantitative_score _) in *.
  set (p := calculate_position_score _) in *.
  clearbody k t d q p.
  rewrite Hweights. clear Hweights.
  generalize (persona_type profile) as type. intros type.
  unfold calculate_relevance_weights.
  destruct (bool_decide (type = _));
    [|destruct (bool_decide (type = _))];
    cbn [keyword_match section_type content_depth quantitative_content
         position_importance];
    match goal with |- context [min2 ?x 1.0] =>
      destruct (min2_spec x 1.0) as [[-> ?]|[-> ?]] end; split; lra.
Qed.

(** For the profile made of a persona and a job every section gets a
    relevance score between 0.22 and 1: the list of the scored sections
    has the sections in their order, each with its score and no rank. *)
Theorem score_sections_range (sections : list RawSection.t)
    (persona job_to_be_done : list ascii) :
  let profile := create_persona_profile persona job_to_be_done in
  let scored := score_sections sections profile in
  Forall2 (fun section scored_section =>
             scored_section
             = with_score section (Section_.relevance_score scored_section)
             /\ 0.22 <= Section_.relevance_score scored_section
             /\ Section_.relevance_score scored_section <= 1)
    sections scored.
Proof.
  cbn zeta. unfold score_sections.
  induction sections as [|section sections IH]; cbn [map]; constructor;
    [|exact IH].
  cbn [with_score Section_.relevance_score]. split; [reflexivity|].
  apply relevance_score_floor. unfold create_persona_profile.
  cbn [relevance_weights persona_type]. reflexivity.
Qed.

End ScorerProofs.

(** ** [extract_formatted_text] and [extract_pdf_content] *)

Module LayoutProofs.
Import PyStr Py PyFacts PyStrFacts StatisticsProofs Layout.
Local Open Scope Q_scope.

Lemma lstrip_head (s : list ascii) :
  lstrip s = [] \/ exists c s', lstrip s = c :: s' /\ isspace c = false.
Proof.
  induction s as [|c s IH]; cbn [lstrip]; [by left|].
  destruct (isspace c) eqn:E; [done|]. right. by exists c, s.
Qed.

Lemma lstrip_app_nonspace (l r : list ascii) (c : ascii) :
  isspace c = false -> lstrip (l ++ c :: r) = lstrip l ++ c :: r.
Proof.
  intros Hc. induction l as [|a l IH]; cbn [lstrip app]; [by rewrite Hc|].
  by destruct (isspace a).
Qed.

Lemma rstrip_cons (c : ascii) (s : list ascii) :
  isspace c = false -> rstrip (c :: s) = c :: rstrip s.
Proof.
  intros Hc. unfold rstrip. cbn [rev]. change (rev s ++ [c]) with (rev s ++ c :: []).
  rewrite lstrip_app_nonspace by done. by rewrite rev_app_distr.
Qed.

Lemma lstrip_idemp (s : list ascii) : lstrip (lstrip s) = lstrip s.
Proof.
  destruct (lstrip_head s) as [->|(c & s' & -> & Hc)]; [done|].
  cbn [lstrip]. by rewrite Hc.
Qed.

(** A trimmed text is empty or begins and ends with a character that
    is no whitespace. *)
Lemma strip_ends (s : list ascii) :
  strip s = []
  \/ (exists c t, strip s = c :: t /\ isspace c = false)
     /\ (exists t c, strip s = t ++ [c] /\ isspace c = false).
Proof.
  unfold strip.
  destruct (lstrip_head s) as [->|(c & s' & -> & Hc)]; [by left|].
  right. split.
  - rewrite rstrip_cons by done. by eexists _, _.
  - unfold rstrip.
    destruct (lstrip_head (rev (c :: s'))) as [E|(a & t & E & Ha)].
    + exfalso. cbn [rev] in E.
      change (rev s' ++ [c]) with (rev s' ++ c :: []) in E.
      rewrite lstrip_app_nonspace in E by done.
      by destruct (lstrip (rev s')).
    + rewrite E. cbn [rev]. by exists (rev t), a.
Qed.

Lemma strip_idemp (s : list ascii) : strip (strip s) = strip s.
Proof.
  destruct (strip_ends s) as [->|[(c & t & E & Hc) _]]; [done|].
  unfold strip at 1. rewrite E. cbn [lstrip]. rewrite Hc, <- E.
  unfold strip, rstrip. rewrite rev_involutive. by rewrite lstrip_idemp.
Qed.

Lemma spaced_cons (text : list ascii) (texts : list (list ascii)) :
  spaced (text :: texts) = text ++ chars " " ++ spaced texts.
Proof. unfold spaced. cbn [map concat]. by rewrite <- app_assoc. Qed.

Lemma rstrip_spaced (pre : list ascii) (texts : list (list ascii)) :
  texts <> [] ->
  Forall (fun text => exists t c, text = t ++ [c] /\ isspace c = false) texts ->
  rstrip (pre ++ spaced texts) = pre ++ join (chars " ") texts.
Proof.
  intros Hne Hall. revert pre.
  induction Hall as [|text texts (t & c & -> & Hc) Hall IH]; [done|].
  intros pre. destruct texts as [|text2 texts].
  - rewrite spaced_cons. unfold spaced. cbn [map concat join].
    rewrite app_nil_r. change (chars " ") with [" "%char]. rewrite !app_assoc.
    rewrite rstrip_snoc. replace (isspace " "%char) with true by done.
    by rewrite rstrip_snoc, Hc.
  - rewrite spaced_cons.
    replace (pre ++ (t ++ [c]) ++ chars " " ++ spaced (text2 :: texts))
      with ((pre ++ (t ++ [c]) ++ chars " ") ++ spaced (text2 :: texts))
      by by rewrite <- !app_assoc.
    rewrite IH by done. rewrite (join_cons _ (t ++ [c])) by done.
    by rewrite <- !app_assoc.
Qed.

Lemma strip_spaced (texts : list (list ascii)) :
  Forall (fun text => text <> [] /\ strip text = text) texts ->
  strip (spaced texts) = join (chars " ") texts.
Proof.
  intros Hall. destruct texts as [|text texts]; [done|].
  assert (Forall (fun text => exists t c, text = t ++ [c] /\ isspace c = false)
            (text :: texts)) as Hends.
  { eapply Forall_impl; [exact Hall|]. intros u [Hu E]. cbn beta.
    destruct (strip_ends u) as [E'|[_ ?]]; [congruence|]. by rewrite <- E. }
  apply Forall_cons in Hall as [[Hne E] _].
  destruct (strip_ends text) as [E'|[(c & t & E' & Hc) _]]; [congruence|].
  rewrite E in E'. subst text.
  unfold strip.
  assert (lstrip (spaced ((c :: t) :: texts)) = spaced ((c :: t) :: texts))
    as ->.
  { rewrite spaced_cons. cbn [app lstrip]. by rewrite Hc. }
  by apply (rstrip_spaced []).
Qed.

Lemma text_of_stripped (span : Span) : strip (text_of span) = text_of span.
Proof. apply strip_idemp. Qed.

(** The loop over the spans reads the spans that are not blank. *)
Lemma read_spans_nonblank (line : Line) :
  read_spans (spans line)
  = (spaced (text_of <$> nonblank_spans line),
     size_of <$> nonblank_spans line,
     flags_of <$> nonblank_spans line).
Proof.
  unfold nonblank_spans. induction (spans line) as [|span l IH]; [done|].
  cbn [read_spans List.filter]. rewrite IH.
  case_bool_decide as E; cbn [negb].
  - by rewrite E.
  - destruct (text_of span) eqn:E'; [done|]. rewrite <- E'.
    cbn [fmap list_fmap]. by rewrite spaced_cons.
Qed.

Lemma join_nonempty (text : list ascii) (texts : list (list ascii)) :
  text <> [] -> join (chars " ") (text :: texts) <> [].
Proof.
  intros Hne. cbn [join]. destruct texts; [done|]. by destruct text.
Qed.

Lemma fold_sum_le (rest : list Q) (first bound : Q) :
  Forall (fun x => x <= bound) rest ->
  fold_left Qplus rest first
  <= first + inject_Z (Z.of_nat (length rest)) * bound.
Proof.
  intros Hall. revert first.
  induction Hall as [|x rest Hx _ IH]; intros first; cbn [fold_left length].
  - change (inject_Z (Z.of_nat 0)) with 0. lra.
  - eapply Qle_trans; [apply IH|].
    rewrite Nat2Z.inj_succ, <- Z.add_1_r, inject_Z_plus.
    change (inject_Z 1) with 1. lra.
Qed.

(** The mean of the sizes is at most their maximum. *)
Lemma mean_le_max (first : Q) (rest : list Q) :
  mean first rest <= max_list first rest.
Proof.
  destruct (max_list_spec first rest) as [_ Hmax].
  unfold mean. apply Qle_shift_div_r.
  - change 0 with (inject_Z 0). rewrite <- Zlt_Qlt. lia.
  - eapply Qle_trans; [apply (fold_sum_le rest first (max_list first rest))|].
    + apply Forall_forall. intros x Hx. apply Hmax. by right.
    + pose proof (Hmax first ltac:(left)).
      rewrite Nat2Z.inj_succ, <- Z.add_1_r, inject_Z_plus.
      change (inject_Z 1) with 1. lra.
Qed.

(** [flag & 2**n] is not zero exactly when bit [n] of [flag] is set. *)
Lemma land_pow2 (flag n : Z) :
  (0 <= n)%Z ->
  negb (Z.land flag (2 ^ n) =? 0)%Z = Z.testbit flag n.
Proof.
  intros Hn. destruct (Z.testbit flag n) eqn:E.
  - apply negb_true_iff, Z.eqb_neq. intros H0.
    assert (Z.testbit (Z.land flag (2 ^ n)) n = false) as Hbit
      by (rewrite H0; apply Z.bits_0).
    rewrite Z.land_spec, E, Z.pow2_bits_true in Hbit by done. done.
  - apply negb_false_iff, Z.eqb_eq. apply Z.bits_inj'. intros m Hm.
    rewrite Z.land_spec, Z.bits_0.
    destruct (decide (n = m)) as [<-|Hne]; [by rewrite E|].
    rewrite Z.pow2_bits_false by done. apply andb_false_r.
Qed.

Lemma any_flag_spec (n : Z) (shown : list Span) :
  (0 <= n)%Z ->
  any_flag n (flags_of <$> shown) = true
  <-> exists span, span ∈ shown /\ Z.testbit (flags_of span) n = true.
Proof.
  intros Hn. unfold any_flag. rewrite existsb_exists. split.
  - intros (flag & Hin & Hflag). apply list_elem_of_In in Hin.
    apply list_elem_of_fmap in Hin as (span & -> & Hspan).
    exists span. by rewrite <- land_pow2.
  - intros (span & Hspan & Hbit). exists (flags_of span). split.
    + apply list_elem_of_In, list_elem_of_fmap. by exists span.
    + by rewrite land_pow2.
Qed.

Lemma nonblank_spans_texts (line : Line) :
  Forall (fun text => text <> [] /\ strip text = text)
    (text_of <$> nonblank_spans line).
Proof.
  apply Forall_fmap, Forall_forall. intros span Hin. cbn.
  split; [|apply text_of_stripped].
  apply list_elem_of_In, filter_In in Hin as [_ Hne].
  apply negb_true_iff in Hne. by apply bool_decide_eq_false in Hne.
Qed.

(** What a line gives: nothing when all its spans are blank, else the
    element made of the spans that are not blank. *)
Lemma line_element_spec (page_num : nat) (line : Line) :
  match nonblank_spans line with
  | [] => line_element page_num line = None
  | first :: rest =>
      line_element page_num line
      = Some (Round1A.TextElement.mk
                (join (chars " ") (text_of <$> nonblank_spans line))
                page_num
                (mean (size_of first) (size_of <$> rest))
                (max_list (size_of first) (size_of <$> rest))
                (any_flag 4 (flags_of <$> nonblank_spans line))
                (any_flag 6 (flags_of <$> nonblank_spans line)))
  end.
Proof.
  unfold line_element. rewrite read_spans_nonblank.
  rewrite strip_spaced by apply nonblank_spans_texts.
  pose proof (nonblank_spans_texts line) as Htexts.
  destruct (nonblank_spans line) as [|first rest]; [done|].
  apply Forall_cons in Htexts as [[Hne _] _].
  pose proof (join_nonempty _ (text_of <$> rest) Hne) as Hjoin.
  cbn [fmap list_fmap] in *.
  by destruct (join _ _).
Qed.

Lemma line_element_page (page_num : nat) (line : Line)
    (elem : Round1A.TextElement.t) :
  line_element page_num line = Some elem ->
  Round1A.TextElement.page elem = page_num.
Proof.
  pose proof (line_element_spec page_num line) as Hspec.
  destruct (nonblank_spans line); rewrite Hspec; [done|]. by intros [= <-].
Qed.

Lemma elem_of_extract_formatted_text (doc : list Page)
    (elem : Round1A.TextElement.t) :
  elem ∈ extract_formatted_text doc
  <-> exists page_num page line,
        doc !! page_num = Some page /\ line ∈ page_lines page
        /\ line_element page_num line = Some elem.
Proof.
  unfold extract_formatted_text.
  rewrite list_elem_of_In, in_concat. split.
  - intros (l & Hl & Hin). apply list_elem_of_In in Hl, Hin.
    apply elem_of_lookup_imap in Hl as (page_num & page & -> & Hpage).
    apply list_elem_of_omap in Hin as (line & Hline & Helem).
    by exists page_num, page, line.
  - intros (page_num & page & line & Hpage & Hline & Helem).
    exists (omap (line_element page_num) (page_lines page)).
    rewrite <- !list_elem_of_In. split.
    + by apply (elem_of_lookup_imap_2
                  (fun page_num page =>
                     omap (line_element page_num) (page_lines page))).
    + apply list_elem_of_omap. by exists line.
Qed.

(** The elements of the pages from number [k] on come page by page. *)
Lemma pages_ascending (k : nat) (doc : list Page) :
  let pages :=
    Round1A.TextElement.page
      <$> concat (imap (fun i page =>
                          omap (line_element (k + i)) (page_lines page)) doc) in
  Forall (fun p => (k <= p)%nat) pages /\ StronglySorted le pages.
Proof.
  cbn zeta. revert k. induction doc as [|page doc IH]; intros k.
  - split; constructor.
  - rewrite imap_cons. cbn [concat]. rewrite fmap_app.
    assert (Forall (fun p => p = k)
              (Round1A.TextElement.page
                 <$> omap (line_element (k + 0)) (page_lines page))) as Hhere.
    { apply Forall_fmap, Forall_forall. intros elem Hin.
      apply list_elem_of_omap in Hin as (line & _ & Hline).
      apply line_element_page in Hline. cbn. lia. }
    replace (imap ((fun i page => omap (line_element (k + i)) (page_lines page))
                   ∘ S) doc)
      with (imap (fun i page => omap (line_element (S k + i)) (page_lines page))
              doc).
    2:{ apply imap_ext. intros i y _. cbn.
        by replace (k + S i)%nat with (S (k + i)) by lia. }
    destruct (IH (S k)) as [Hge Hsorted]. split.
    + apply Forall_app. split.
      * eapply Forall_impl; [exact Hhere|]. cbn. lia.
      * eapply Forall_impl; [exact Hge|]. cbn. lia.
    + induction Hhere as [|p here -> Hhere IHhere]; [done|].
      cbn [app]. constructor; [done|].
      apply Forall_app. split.
      * eapply Forall_impl; [exact Hhere|]. cbn. lia.
      * eapply Forall_impl; [exact Hge|]. cbn. lia.
Qed.

(** Every element [extract_formatted_text] returns is read from a line
    of the page it names, a line with at least one span that is not
    blank: its text is the trimmed texts of these spans joined by
    single spaces, so it is not empty and is itself trimmed; its
    greatest size is the size of one of these spans and no smaller
    than any of them, so the default 12 is only ever the size of a span
    that has none; its average size is at most its greatest size; it is
    bold or italic when bit 4 or bit 6 is set in the flags of one of
    these spans.  Every such line gives an element, and the elements
    come page by page. *)
Theorem extract_formatted_text_lines (doc : list Page) :
  let text_elements := extract_formatted_text doc in
  Forall (fun elem =>
            exists page line,
              doc !! Round1A.TextElement.page elem = Some page
              /\ line ∈ page_lines page
              /\ nonblank_spans line <> []
              /\ Round1A.TextElement.text elem
                 = join (chars " ") (text_of <$> nonblank_spans line)
              /\ Round1A.TextElement.text elem <> []
              /\ strip (Round1A.TextElement.text elem)
                 = Round1A.TextElement.text elem
              /\ Round1A.TextElement.max_size elem
                 ∈ size_of <$> nonblank_spans line
              /\ (forall span, span ∈ nonblank_spans line ->
                  size_of span <= Round1A.TextElement.max_size elem)
              /\ Round1A.TextElement.avg_size elem
                 <= Round1A.TextElement.max_size elem
              /\ (Round1A.TextElement.is_bold elem = true
                  <-> exists span, span ∈ nonblank_spans line
                        /\ Z.testbit (flags_of span) 4 = true)
              /\ (Round1A.TextElement.is_italic elem = true
                  <-> exists span, span ∈ nonblank_spans line
                        /\ Z.testbit (flags_of span) 6 = true))
    text_elements
  /\ (forall page_num page line,
        doc !! page_num = Some page -> line ∈ page_lines page ->
        nonblank_spans line <> [] ->
        exists elem,
          elem ∈ text_elements
          /\ Round1A.TextElement.page elem = page_num
          /\ Round1A.TextElement.text elem
             = join (chars " ") (text_of <$> nonblank_spans line))
  /\ StronglySorted le (Round1A.TextElement.page <$> text_elements).
Proof.
  cbn zeta. split; [|split].
  - apply Forall_forall. intros elem Hin.
    apply elem_of_extract_formatted_text in Hin
      as (page_num & page & line & Hpage & Hline & Helem).
    pose proof (line_element_spec page_num line) as Hspec.
    pose proof (nonblank_spans_texts line) as Htexts.
    destruct (nonblank_spans line) as [|first rest] eqn:Eshown;
      rewrite Helem in Hspec; [done|].
    apply (inj Some) in Hspec. subst elem. cbn [Round1A.TextElement.page
      Round1A.TextElement.text Round1A.TextElement.max_size
      Round1A.TextElement.avg_size Round1A.TextElement.is_bold
      Round1A.TextElement.is_italic].
    exists page, line. rewrite Eshown.
    apply Forall_cons in Htexts as [[Hne _] Hrest].
    destruct (max_list_spec (size_of first) (size_of <$> rest))
      as [Hmax_in Hmax].
    split; [done|]. split; [done|]. split; [done|]. split; [done|].
    split; [by apply join_nonempty|]. split.
    { rewrite <- (strip_spaced (text_of <$> first :: rest));
        [apply strip_idemp|].
      constructor; [|done]. split; [done|apply text_of_stripped]. }
    split; [done|]. split.
    { intros span Hspan. apply Hmax.
      change (size_of first :: (size_of <$> rest))
        with (size_of <$> first :: rest).
      apply list_elem_of_fmap. by exists span. }
    split; [apply mean_le_max|].
    split; by apply any_flag_spec.
  - intros page_num page line Hpage Hline Hshown.
    pose proof (line_element_spec page_num line) as Hspec.
    destruct (nonblank_spans line) as [|first rest] eqn:Eshown; [done|].
    eexists. split; [|split].
    + apply elem_of_extract_formatted_text. by exists page_num, page, line.
    + done.
    + done.
  - by apply (pages_ascending 0).
Qed.

Lemma page_element_line_element (page_num : nat) (line : Line) :
  page_element page_num line = to_element <$> line_element page_num line.
Proof.
  unfold page_element, line_element.
  destruct (read_spans (spans line)) as [[line_text font_sizes] style_flags].
  by destruct (strip line_text).
Qed.

Lemma page_elements_from (k : nat) (doc : list Page) :
  DocumentProcessor.page_elements
    (imap (fun i page =>
             ((k + i)%nat, omap (page_element (k + i)) (page_lines page))) doc)
  = (fun elem => (Round1A.TextElement.page elem, to_element elem))
      <$> concat (imap (fun i page =>
                          omap (line_element (k + i)) (page_lines page)) doc).
Proof.
  unfold DocumentProcessor.page_elements. revert k.
  induction doc as [|page doc IH]; intros k; [done|].
  rewrite !imap_cons. cbn [map concat fst snd]. rewrite fmap_app.
  f_equal.
  - induction (page_lines page) as [|line lines IHlines]; [done|].
    cbn [omap list_omap]. rewrite page_element_line_element.
    destruct (line_element (k + 0) line) as [elem|] eqn:E; cbn; [|done].
    apply line_element_page in E. rewrite E. f_equal. apply IHlines.
  - specialize (IH (S k)).
    erewrite (imap_ext _ (fun i page => ((S k + i)%nat, _))).
    + erewrite IH. f_equal. f_equal. apply imap_ext. intros i y _. cbn.
      by replace (k + S i)%nat with (S (k + i)) by lia.
    + intros i y _. cbn.
      by replace (k + S i)%nat with (S (k + i)) by lia.
Qed.

(** Round 1B reads a document as Round 1A does: [extract_pdf_content]
    numbers the pages 0, 1, ... in order, and the elements of its
    pages, each with the number of its page, are the elements of
    [extract_formatted_text] in the same order, with the same text,
    average size, styles and page. *)
Theorem extract_pdf_content_same_lines (doc : list Page) :
  (extract_pdf_content doc).*1 = seq 0 (length doc)
  /\ DocumentProcessor.page_elements (extract_pdf_content doc)
     = (fun elem => (Round1A.TextElement.page elem, to_element elem))
         <$> extract_formatted_text doc.
Proof.
  split.
  - unfold extract_pdf_content. rewrite fmap_imap.
    rewrite (imap_ext _ (fun i _ => id i)) by done.
    by rewrite imap_seq_0, list_fmap_id.
  - apply (page_elements_from 0).
Qed.

End LayoutProofs.

(** ** Round 1A: the outline returned and the failure of the extraction *)

Module PipelineProofs.
Import PyStr Re Py PyFacts PyStrFacts Round1A.
Import OutlineFacts OutlineProofs StatisticsProofs HeadingProofs TitleProofs.
Import BatchProofs Round1AMore.
Local Open Scope Q_scope.

(** An element whose trimmed text has at least 2 characters: the ones
    [extract_document_outline] scores. *)
Lemma heading_candidates_short (l : list TextElement.t) (doc_stats : DocStats) :
  Forall (fun e => ~ heading_text_valid e) l ->
  heading_candidates l doc_stats = Some [].
Proof.
  intros Hl. induction Hl as [|e l He _ IH]; cbn [heading_candidates]; [done|].
  unfold heading_text_valid in He.
  by destruct (Nat.ltb_spec (length (strip (TextElement.text e))) 2); [|lia].
Qed.

Lemma heading_candidates_raises (l : list TextElement.t) (doc_stats : DocStats) :
  dominant_size doc_stats == 0 -> Exists heading_text_valid l ->
  heading_candidates l doc_stats = None.
Proof.
  intros Hdom Hex.
  induction Hex as [e l He|e l _ IH]; cbn [heading_candidates].
  - unfold heading_text_valid in He.
    destruct (Nat.ltb_spec (length (strip (TextElement.text e))) 2); [lia|].
    unfold calculate_heading_score. by rewrite (div_None _ _ Hdom).
  - destruct (_ <? _)%nat; [done|].
    unfold calculate_heading_score. by rewrite (div_None _ _ Hdom).
Qed.

Lemma title_candidates_raises (i : nat) (l : list TextElement.t)
    (doc_stats : DocStats) :
  title_candidates i l doc_stats = None -> Exists title_text_valid l.
Proof.
  revert i. induction l as [|e l IH]; intros i; cbn [title_candidates];
    [done|].
  destruct (Nat.ltb_spec (length (strip (TextElement.text e))) 3) as [|Hlen].
  - intros Hnone. apply Exists_cons_tl. by eapply IH.
  - intros _. by apply Exists_cons_hd.
Qed.

Lemma first_page_elements_subset (text_elements : list TextElement.t)
    (elem : TextElement.t) :
  elem ∈ first_page_elements text_elements -> elem ∈ text_elements.
Proof.
  unfold first_page_elements.
  intros (i & Hi & _)%elem_of_take. apply list_elem_of_lookup_2 in Hi.
  by apply list_elem_of_filter in Hi as [_ ?].
Qed.

Lemma extract_document_title_raises (text_elements : list TextElement.t)
    (doc_stats : DocStats) :
  extract_document_title text_elements doc_stats = None ->
  dominant_size doc_stats == 0 /\ Exists heading_text_valid text_elements.
Proof.
  unfold extract_document_title.
  destruct text_elements as [|e l]; [done|].
  set (text_elements := e :: l).
  destruct (title_candidates 0 (first_page_elements text_elements) doc_stats)
    as [cands|] eqn:E.
  { cbn [mbind option_bind]. by destruct (sort_reverse _ _ _) as [|[? ?] ?]. }
  intros _. split.
  - destruct (Qeq_dec (dominant_size doc_stats) 0) as [|Hdom]; [done|].
    destruct (title_candidates_defined 0 (first_page_elements text_elements)
                doc_stats Hdom) as [? E'].
    congruence.
  - apply title_candidates_raises in E.
    apply Exists_exists in E as (elem & Hin & Hvalid).
    apply Exists_exists. exists elem.
    split; [by apply first_page_elements_subset|].
    unfold title_text_valid in Hvalid. unfold heading_text_valid. lia.
Qed.

Lemma length_on_page_pop (p : nat) (l : list Candidate.t) :
  length (filter (fun e => OutlineEntry.page e = p) (pop_confidence <$> l))
  = length (on_page p l).
Proof.
  unfold on_page. induction l as [|c l IH]; [done|].
  cbn [fmap list_fmap]. rewrite !filter_cons.
  change (OutlineEntry.page (pop_confidence c)) with (Candidate.page c).
  destruct (decide (Candidate.page c = p)); cbn [length]; by rewrite <- IH.
Qed.

Section Batch.
Variable extract_formatted_text : list ascii -> option (list TextElement.t).

(** The extraction of the structure of a document raises exactly when
    the most common font size of its lines is 0 and one of the lines
    has at least 2 characters: the size ratio then divides by zero, and
    [process_all_pdfs] writes the fallback for the document.  With
    font sizes above 0 it returns a result. *)
Theorem extract_document_structure_raises (pdf_path : list ascii)
    (text_elements : list TextElement.t) :
  extract_formatted_text pdf_path = Some text_elements ->
  let doc_stats := analyze_document_statistics text_elements in
  (extract_document_structure extract_formatted_text pdf_path = None
   <-> dominant_size doc_stats == 0
       /\ Exists heading_text_valid text_elements)
  /\ (extract_document_structure extract_formatted_text pdf_path = None ->
      process_pdf extract_formatted_text pdf_path
      = (replace pdf_path (chars ".pdf") (chars ".json"), fallback))
  /\ (Forall (fun e => 0 < TextElement.max_size e) text_elements ->
      is_Some (extract_document_structure extract_formatted_text pdf_path)).
Proof.
  intros Hread. cbn zeta.
  set (doc_stats := analyze_document_statistics text_elements).
  assert (extract_document_structure extract_formatted_text pdf_path = None
          <-> dominant_size doc_stats == 0
              /\ Exists heading_text_valid text_elements) as Hiff.
  { unfold extract_document_structure. rewrite Hread.
    cbn [mbind option_bind]. fold doc_stats. split.
    - destruct (extract_document_title text_elements doc_stats) as [title|]
        eqn:Etitle; [|intros _; by apply extract_document_title_raises].
      cbn [mbind option_bind]. unfold extract_document_outline.
      destruct (heading_candidates text_elements doc_stats) as [outline|]
        eqn:Eoutline; [done|].
      intros _. split.
      + destruct (Qeq_dec (dominant_size doc_stats) 0) as [|Hdom]; [done|].
        destruct (heading_candidates_defined text_elements doc_stats Hdom)
          as [? E'].
        congruence.
      + destruct (Exists_dec heading_text_valid text_elements) as [|Hno];
          [done|].
        apply not_Exists_Forall in Hno; [|apply _].
        rewrite (heading_candidates_short _ _ Hno) in Eoutline. done.
    - intros [Hdom Hex].
      destruct (extract_document_title text_elements doc_stats); [|done].
      cbn [mbind option_bind]. unfold extract_document_outline.
      by rewrite (heading_candidates_raises _ _ Hdom Hex). }
  split; [exact Hiff|]. split.
  - intros Hnone. unfold process_pdf. by rewrite Hnone.
  - intros Hpos.
    destruct (decide (extract_document_structure extract_formatted_text
                        pdf_path = None)) as [E|E];
      [|by destruct (extract_document_structure _ _)].
    apply Hiff in E as [Hdom Hex]. exfalso.
    destruct text_elements as [|e l]; [by apply Exists_nil in Hex|].
    pose proof (dominant_size_elem (e :: l) ltac:(done)) as Hin.
    fold doc_stats in Hin.
    apply list_elem_of_fmap in Hin as (elem & Heq & Hin).
    eapply Forall_forall in Hpos; [|exact Hin]. cbn beta in Hpos.
    rewrite <- Heq, Hdom in Hpos. lra.
Qed.

End Batch.

(** A document whose lines have sizes above 0 has its structure
    extracted. *)
Lemma extract_document_structure_raises_witness :
  let read := fun _ : list ascii => Some sample_document in
  read (chars "report.pdf") = Some sample_document
  /\ is_Some (extract_document_structure read (chars "report.pdf")).
Proof.
  cbn zeta. split; [reflexivity|].
  apply (extract_document_structure_raises (fun _ => Some sample_document)
           (chars "report.pdf") sample_document eq_refl).
  unfold sample_document.
  repeat (apply Forall_cons_2; [reflexivity|]). apply Forall_nil_2.
Defined.

(** The outline [extract_document_outline] returns has at most 20
    entries and at most 5 on a page, in ascending order of the pages,
    no two with the same page and the same text up to case and outer
    whitespace; each entry is the trimmed text, of at least 2
    characters, of a line of the document on the page of this line,
    whose heading score is at least 0.7, with the level of this line,
    one of H1, H2 and H3. *)
Theorem extract_document_outline_final (text_elements : list TextElement.t)
    (doc_stats : DocStats) (entries : list OutlineEntry.t) :
  extract_document_outline text_elements doc_stats = Some entries ->
  (length entries <= 20)%nat
  /\ (forall p,
        (length (filter (fun e => OutlineEntry.page e = p) entries) <= 5)%nat)
  /\ StronglySorted le (OutlineEntry.page <$> entries)
  /\ NoDup ((fun e => (strip (lower (OutlineEntry.text e)),
                       OutlineEntry.page e)) <$> entries)
  /\ Forall (fun e =>
               OutlineEntry.level e ∈ ["H1"; "H2"; "H3"]%string
               /\ exists elem score,
                    elem ∈ text_elements
                    /\ heading_text_valid elem
                    /\ calculate_heading_score elem doc_stats = Some score
                    /\ 0.7 <= score
                    /\ e = OutlineEntry.mk
                             (determine_heading_level elem
                                (size_thresholds doc_stats)
                                (strip (TextElement.text elem)))
                             (strip (TextElement.text elem))
                             (TextElement.page elem))
      entries.
Proof.
  unfold extract_document_outline.
  destruct (heading_candidates text_elements doc_stats) as [outline|] eqn:E;
    [|done].
  cbn [mbind option_bind]. intros [= <-].
  split; [|split; [|split; [|split]]].
  - rewrite length_fmap. apply post_process_length.
  - intros p. rewrite length_on_page_pop. apply post_process_page.
  - rewrite <- list_fmap_compose.
    eapply StronglySorted_fmap; [|apply post_process_sorted].
    intros x y Hxy. apply precedes_sort_key in Hxy. cbn. lia.
  - rewrite <- list_fmap_compose. apply post_process_NoDup.
  - apply Forall_fmap, Forall_forall. intros c Hc. cbn.
    apply post_process_subset in Hc.
    apply (heading_candidates_spec _ _ _ E) in Hc
      as (elem & score & Hin & Hlen & Hscore & Hmin & ->).
    split; [apply determine_heading_level_valid|].
    by exists elem, score.
Qed.

(** The outline of the sample document. *)
Lemma extract_document_outline_final_witness :
  extract_document_outline sample_document
    (analyze_document_statistics sample_document) = Some sample_outline
  /\ (length sample_outline <= 20)%nat.
Proof.
  assert (extract_document_outline sample_document
            (analyze_document_statistics sample_document)
          = Some sample_outline) as H by (vm_compute; reflexivity).
  split; [exact H|].
  exact (proj1 (extract_document_outline_final sample_document
                  (analyze_document_statistics sample_document)
                  sample_outline H)).
Defined.

End PipelineProofs.

(** ** Round 1A: statistics, post-processing, title and heading score *)

Module StructureProofs.
Import PyStr Re Py PyFacts PyStrFacts Round1A.
Import OutlineFacts OutlineProofs StatisticsProofs HeadingProofs TitleProofs.
Local Open Scope Q_scope.

(** The dominant size of a document with at least one line is one of
    the greatest sizes of its lines, and no size occurs more often
    among them. *)
Theorem dominant_size_most_common (text_elements : list TextElement.t) :
  text_elements <> [] ->
  let sizes := TextElement.max_size <$> text_elements in
  let dominant := dominant_size (analyze_document_statistics text_elements) in
  dominant ∈ sizes
  /\ forall x, (occurrences x sizes <= occurrences dominant sizes)%nat.
Proof.
  intros Hne. cbn zeta. split; [by apply dominant_size_elem|].
  intros x. by apply dominant_size_mode.
Qed.

Lemma dominant_size_most_common_witness :
  sample_document <> []
  /\ dominant_size (analyze_document_statistics sample_document)
     ∈ TextElement.max_size <$> sample_document.
Proof.
  assert (sample_document <> []) as H by done.
  split; [exact H|exact (proj1 (dominant_size_most_common sample_document H))].
Defined.

(** Post-processing only removes entries: what it returns is part of
    the outline it is given, each entry no more often than there.  An
    outline that respects the limits already, with no duplicate, at
    most 5 entries on a page, every confidence at least 0.7 and at most
    20 entries, is returned whole, sorted by page and, on a page, by
    descending confidence. *)
Theorem post_process_outline_within_limits (outline : list Candidate.t) :
  post_process_outline outline ⊆+ outline
  /\ (NoDup (dedup_key <$> outline) ->
      (forall p, (length (on_page p outline) <= 5)%nat) ->
      (forall c, c ∈ outline -> 0.7 <= Candidate.confidence c) ->
      (length outline <= 20)%nat ->
      post_process_outline outline = sort pair_ltb sort_key outline).
Proof.
  rewrite post_process_outline_unfold. split.
  - etrans; [apply global_limit_submseteq|].
    etrans; [apply limited_submseteq|].
    apply sublist_submseteq, remove_duplicates_sublist.
  - intros Hnd Hpage Hconf Hlen.
    rewrite (remove_duplicates_id ∅ outline Hnd)
      by (intros; apply not_elem_of_empty).
    pose proof (sort_Permutation pair_ltb sort_key outline) as Hperm.
    rewrite apply_limits_id.
    + unfold global_limit. rewrite (Permutation_length Hperm).
      by destruct (Nat.ltb_spec 20 (length outline)); [lia|].
    + intros p. rewrite lookup_total_empty. unfold on_page.
      rewrite Hperm. apply Hpage.
    + intros c Hc. rewrite Hperm in Hc. by apply Hconf.
Qed.

Lemma split_join (ws : list (list ascii)) :
  Forall is_token ws -> split (join (chars " ") ws) = ws.
Proof.
  induction 1 as [|w ws Hw Hws IH]; [done|].
  destruct ws as [|w' ws]; [by apply split_word|].
  rewrite join_cons by done.
  change (w ++ chars " " ++ ?s) with (w ++ " "%char :: s).
  rewrite split_word_space by done. f_equal. by apply IH.
Qed.

(** What [clean_title] returns has at least 3 characters, has its
    words separated by single spaces with no space around them, and is
    left as it is by [clean_title]. *)
Lemma clean_title_normal (title : list ascii) :
  let cleaned := clean_title title in
  (3 <= length cleaned)%nat
  /\ join (chars " ") (split cleaned) = cleaned
  /\ clean_title cleaned = cleaned.
Proof.
  assert ((3 <= length Document)%nat
          /\ join (chars " ") (split Document) = Document
          /\ clean_title Document = Document) as Hdoc
    by (split; [vm_compute; lia|split; by vm_compute]).
  assert (forall ws, Forall is_token ws ->
            join (chars " ") (split (join (chars " ") ws))
            = join (chars " ") ws) as Hnorm
    by (intros ws Hws; by rewrite split_join).
  pose proof (split_words title) as Htokens.
  cbn zeta.
  destruct (le_lt_dec (length (join (chars " ") (split title))) 100)
    as [Hshort|Hlong].
  - rewrite (clean_title_short title Hshort).
    destruct (Nat.leb_spec 3 (length (join (chars " ") (split title))));
      [|done].
    split; [done|]. split; [by apply Hnorm|].
    pose proof (clean_title_short (join (chars " ") (split title))) as Hagain.
    cbn zeta in Hagain. rewrite Hnorm in Hagain by done.
    rewrite (Hagain Hshort).
    by destruct (Nat.leb_spec 3 (length (join (chars " ") (split title))));
      [|lia].
  - destruct (le_lt_dec
                (length (split (take 100 (join (chars " ") (split title)))))
                1) as [Hone|Hmore].
    + rewrite (clean_title_one_word title Hlong Hone).
      split; [lia|]. split; [by apply Hnorm|].
      pose proof (clean_title_one_word (join (chars " ") (split title)))
        as Hagain.
      cbn zeta in Hagain. rewrite Hnorm in Hagain by done.
      by apply Hagain.
    + destruct (clean_title_truncated title Hlong Hmore) as [Hkept ->].
      set (kept := join (chars " ") (take _ (split title))) in *.
      destruct (Nat.leb_spec 3 (length kept)); [|done].
      assert (join (chars " ") (split kept) = kept) as Hkept_norm
        by (apply Hnorm; by apply Forall_take).
      split; [done|]. split; [done|].
      pose proof (clean_title_short kept) as Hagain.
      cbn zeta in Hagain. rewrite Hkept_norm in Hagain.
      rewrite Hagain by lia.
      by destruct (Nat.leb_spec 3 (length kept)); [|lia].
Qed.

(** The title [extract_document_title] returns is never blank: it has
    at least 3 characters, its words are separated by single spaces
    with no space around them, and cleaning it again changes
    nothing. *)
Theorem extract_document_title_clean (text_elements : list TextElement.t)
    (doc_stats : DocStats) (title : list ascii) :
  extract_document_title text_elements doc_stats = Some title ->
  (3 <= length title)%nat
  /\ join (chars " ") (split title) = title
  /\ clean_title title = title.
Proof.
  assert ((3 <= length Document)%nat
          /\ join (chars " ") (split Document) = Document
          /\ clean_title Document = Document) as Hdoc
    by (split; [vm_compute; lia|split; by vm_compute]).
  unfold extract_document_title.
  destruct text_elements as [|e l]; [by intros [= <-]|].
  destruct (title_candidates _ _ _) as [cands|]; [|done].
  cbn [mbind option_bind].
  destruct (sort_reverse _ _ _) as [|[score best] rest]; intros [= <-];
    [done|].
  apply clean_title_normal.
Qed.

Lemma extract_document_title_clean_witness :
  extract_document_title sample_document
    (analyze_document_statistics sample_document)
  = Some (chars "Annual Report 2023")
  /\ (3 <= length (chars "Annual Report 2023"))%nat.
Proof.
  assert (extract_document_title sample_document
            (analyze_document_statistics sample_document)
          = Some (chars "Annual Report 2023")) as H by by vm_compute.
  split; [exact H|exact (proj1 (extract_document_title_clean _ _ _ H))].
Defined.

Lemma Qleb_gt (x y : Q) : Qleb x y = false <-> y < x.
Proof.
  unfold Qleb. rewrite <- not_true_iff_false, Qle_bool_iff. split.
  - apply Qnot_le_lt.
  - apply Qlt_not_le.
Qed.

Ltac compare_all :=
  repeat match goal with
         | |- context [Qleb ?a ?b] =>
             let E := fresh "E" in
             destruct (Qleb a b) eqn:E;
             [apply Qleb_le in E|apply Qleb_gt in E]
         end.

Ltac stage2 x y :=
  assert (x <= y)%Q by (subst x y; split_ifs; lra);
  clearbody x y.

(** A greater font size never lowers the heading score of a line, nor
    does bold type: of two lines with the same text, the one that is
    no smaller and is bold if the other is scores no less.  So it is a
    heading candidate if the other is. *)
Theorem heading_score_monotone (elem elem' : TextElement.t)
    (doc_stats : DocStats) :
  0 < dominant_size doc_stats ->
  TextElement.text elem' = TextElement.text elem ->
  TextElement.max_size elem <= TextElement.max_size elem' ->
  (TextElement.is_bold elem = true -> TextElement.is_bold elem' = true) ->
  exists score score',
    calculate_heading_score elem doc_stats = Some score
    /\ calculate_heading_score elem' doc_stats = Some score'
    /\ score <= score'.
Proof.
  intros Hdom Htext Hsize Hbold.
  assert (~ dominant_size doc_stats == 0) as Hdom' by lra.
  unfold calculate_heading_score. rewrite Htext, !(div_Some _ _ Hdom').
  cbn [mbind option_bind]. cbv beta zeta.
  eexists _, _. split; [reflexivity|]. split; [reflexivity|].
  set (r := TextElement.max_size elem / dominant_size doc_stats).
  set (r' := TextElement.max_size elem' / dominant_size doc_stats).
  assert (r <= r') as Hr.
  { unfold r, r', Qdiv. apply Qmult_le_compat_r; [done|].
    apply Qinv_le_0_compat. lra. }
  clearbody r r'.
  set (text := strip (TextElement.text elem)).
  set (word_count := length (split text)).
  set (a1 := if Qleb 2.0 r then _ else _).
  set (b1 := if Qleb 2.0 r' then _ else _).
  assert (a1 <= b1) by (subst a1 b1; compare_all; lra).
  clearbody a1 b1.
  set (a2 := if TextElement.is_bold elem then _ else _).
  set (b2 := if TextElement.is_bold elem' then _ else _).
  assert (a2 <= b2).
  { subst a2 b2. destruct (TextElement.is_bold elem).
    - rewrite Hbold by done. lra.
    - destruct (TextElement.is_bold elem'); lra. }
  clearbody a2 b2.
  set (a3 := if re_match re_multi_level text then a2 + _ else _).
  set (b3 := if re_match re_multi_level text then b2 + _ else _).
  stage2 a3 b3.
  set (a4 := if isupper text && _ && _ then a3 + _ else _).
  set (b4 := if isupper text && _ && _ then b3 + _ else _).
  stage2 a4 b4.
  set (a5 := if (1 <=? word_count)%nat && _ then a4 + _ else _).
  set (b5 := if (1 <=? word_count)%nat && _ then b4 + _ else _).
  stage2 a5 b5.
  set (a6 := if endswith text (chars ":") then a5 + _ else _).
  set (b6 := if endswith text (chars ":") then b5 + _ else _).
  stage2 a6 b6.
  destruct (min2_spec a6 1.0) as [[-> ?]|[-> ?]];
    destruct (min2_spec b6 1.0) as [[-> ?]|[-> ?]]; lra.
Qed.

End StructureProofs.

(** ** The remaining functions: document analysis, title scores, file
    names, and the outline of a document read from its pages *)

Module MoreProofs.
Import PyStr Re Py PyFacts PyStrFacts Round1A.
Import OutlineFacts OutlineProofs StatisticsProofs HeadingProofs TitleProofs.
Import BatchProofs Round1AMore Layout LayoutProofs SelectionProofs.
Import PersonaDrivenAnalyzer.
Local Open Scope Q_scope.

(** *** [analyze_document_structure] *)

(** The first entry of greatest count of the counter of a list is an
    element of the list that no element occurs more often than. *)
Lemma most_common_mode (first : Q) (rest : list Q) :
  let sizes := first :: rest in
  let mode := match Counter sizes with
              | e :: c => (most_common1 e c).1
              | [] => first
              end in
  mode ∈ sizes
  /\ forall x, (occurrences x sizes <= occurrences mode sizes)%nat.
Proof.
  cbn zeta. set (sizes := first :: rest).
  pose proof (Counter_NoDup sizes) as Hnd.
  pose proof (Counter_keys sizes) as Hkeys.
  destruct (Counter sizes) as [|e c] eqn:E.
  - split; [apply list_elem_of_here|].
    intros x. rewrite <- !counter_get_Counter, E. simpl. lia.
  - split; [apply Hkeys, most_common1_elem|].
    intros x. rewrite <- !counter_get_Counter, E.
    rewrite (counter_get_entry (e :: c) (most_common1 e c) Hnd)
      by apply most_common1_elem.
    apply counter_get_le. intros e' He'. by apply most_common1_max.
Qed.

(** The primary size of a document is the average size that most of
    its lines have, and the heading threshold is 1.2 times the primary
    size; a document without lines has the primary size 12 and the
    threshold 14.  So, the primary size being above 0, a line no
    larger than the primary size is never a heading by its size. *)
Theorem analyze_document_structure_primary
    (pages_content : list (nat * list Round1B.Element.t)) :
  let sizes := Round1B.Element.avg_size <$> concat (snd <$> pages_content) in
  let analysis := Round1B.analyze_document_structure pages_content in
  (sizes = [] ->
   Round1B.primary_size analysis = 12
   /\ Round1B.heading_threshold analysis = 14)
  /\ (sizes <> [] ->
      Round1B.primary_size analysis ∈ sizes
      /\ (forall x,
            (occurrences x sizes
             <= occurrences (Round1B.primary_size analysis) sizes)%nat)
      /\ Round1B.heading_threshold analysis
         = Round1B.primary_size analysis * 1.2)
  /\ (forall elem,
        0 < Round1B.primary_size analysis ->
        Round1B.Element.avg_size elem <= Round1B.primary_size analysis ->
        Qleb (Round1B.heading_threshold analysis)
          (Round1B.Element.avg_size elem) = false).
Proof.
  cbn zeta. unfold Round1B.analyze_document_structure.
  change (map Round1B.Element.avg_size (concat (map snd pages_content)))
    with (Round1B.Element.avg_size <$> concat (snd <$> pages_content)).
  destruct (Round1B.Element.avg_size <$> concat (snd <$> pages_content))
    as [|first rest].
  - cbn [Round1B.primary_size Round1B.heading_threshold].
    split; [done|]. split; [done|].
    intros elem _ Hsize. apply StructureProofs.Qleb_gt. lra.
  - cbn [Round1B.primary_size Round1B.heading_threshold].
    destruct (most_common_mode first rest) as [Hin Hmode].
    split; [done|]. split; [done|].
    intros elem Hpos Hsize. apply StructureProofs.Qleb_gt. lra.
Qed.

(** *** The scores of the title candidates *)

Lemma content_score_range (text : list ascii) :
  0 <= calculate_content_score text /\ calculate_content_score text <= 0.8.
Proof.
  unfold calculate_content_score. cbv beta zeta.
  set (word_count := length (split text)).
  set (s1 := if (3 <=? word_count)%nat && _ then _ else _). stage s1 0 0.5.
  set (s2 := if istitle text then _ else _). stage s2 0 0.8.
  set (s3 := if re_match re_numbered_item text || _ || _ then _ else _).
  stage s3 (-0.5) 0.8.
  destruct (max2_spec 0 s3) as [[-> ?]|[-> ?]]; split; lra.
Qed.

(** Every title candidate has a score of at least 0.14 and below
    0.93: the size counts for at least 0.2 and the position for at
    least 0.3, and the content and the style for at most 0.8 each.  In
    exact arithmetic the greatest score is 0.92; the bound 0.93 leaves
    room for the rounding of the floating-point sum, which reaches
    0.9200000000000002. *)
Theorem title_scores_range (i : nat) (first_page_elements : list TextElement.t)
    (doc_stats : DocStats) (candidates : list (Q * list ascii)) :
  title_candidates i first_page_elements doc_stats = Some candidates ->
  Forall (fun candidate => 0.14 <= candidate.1 /\ candidate.1 <= 0.93)
    candidates.
Proof.
  revert i candidates.
  induction first_page_elements as [|elem rest IH]; intros i candidates;
    cbn [title_candidates].
  - intros [= <-]. constructor.
  - destruct (_ <? _)%nat; [apply IH|].
    destruct (calculate_size_score elem doc_stats) as [size_score|] eqn:Esize;
      [|done].
    cbn [mbind option_bind].
    destruct (title_candidates (S i) rest doc_stats) as [more|] eqn:Emore;
      [|done].
    cbn [mbind option_bind]. intros [= <-].
    constructor; [|by eapply IH]. cbn [fst].
    assert (0.2 <= size_score /\ size_score <= 1) as Hsize.
    { revert Esize. unfold calculate_size_score.
      destruct (div _ _) as [size_ratio|]; [|done].
      cbn [mbind option_bind]. intros [= <-]. split_ifs; split; lra. }
    assert (0.3 <= calculate_position_score i
            /\ calculate_position_score i <= 1) as Hposition.
    { unfold calculate_position_score. split_ifs; split; lra. }
    pose proof (content_score_range (strip (TextElement.text elem)))
      as Hcontent.
    assert (0 <= calculate_style_score elem
            /\ calculate_style_score elem <= 0.8) as Hstyle.
    { unfold calculate_style_score. cbv zeta. split_ifs; split; lra. }
    split; lra.
Qed.

Lemma title_scores_range_witness :
  title_candidates 0 sample_document
    (analyze_document_statistics sample_document)
  = Some sample_title_candidates
  /\ Forall (fun candidate => 0.14 <= candidate.1 /\ candidate.1 <= 0.93)
       sample_title_candidates.
Proof.
  assert (title_candidates 0 sample_document
            (analyze_document_statistics sample_document)
          = Some sample_title_candidates) as H by (vm_compute; reflexivity).
  split; [exact H|].
  exact (title_scores_range 0 sample_document
           (analyze_document_statistics sample_document)
           sample_title_candidates H).
Defined.

(** *** The name of the file written *)

Section Batch.
Variable extract_formatted_text : list ascii -> option (list TextElement.t).

(** For a file named by a stem without a dot followed by .pdf, the
    file is read and its result is written under the stem followed by
    .json. *)
Theorem output_file_name (stem : list ascii) :
  "."%char ∉ stem ->
  endswith (stem ++ chars ".pdf") (chars ".pdf") = true
  /\ (process_pdf extract_formatted_text (stem ++ chars ".pdf")).1
     = stem ++ chars ".json".
Proof.
  intros Hstem. split.
  - unfold endswith. rewrite rev_app_distr.
    assert (forall s, startswith s [] = true) as Hnil by by intros [].
    change (rev (chars ".pdf")) with ["f"; "d"; "p"; "."]%char.
    cbn [app startswith]. rewrite !bool_decide_eq_true_2 by done.
    apply Hnil.
  - assert ((process_pdf extract_formatted_text (stem ++ chars ".pdf")).1
            = replace (stem ++ chars ".pdf") (chars ".pdf") (chars ".json"))
      as -> by (unfold process_pdf; by destruct (extract_document_structure _ _)).
    unfold replace. induction stem as [|c stem IH]; [done|].
    apply not_elem_of_cons in Hstem as [Hc Hstem].
    cbn [app replace_aux startswith chars list_ascii_of_string].
    rewrite bool_decide_eq_false_2 by done. cbn [andb]. f_equal.
    by apply IH.
Qed.

End Batch.

Lemma output_file_name_witness :
  ("."%char ∉ chars "report")
  /\ (process_pdf (fun _ => None) (chars "report" ++ chars ".pdf")).1
     = chars "report" ++ chars ".json".
Proof.
  assert ("."%char ∉ chars "report") as H.
  { intros Hin. by repeat (apply elem_of_cons in Hin as [?|Hin]; [done|]);
      apply elem_of_nil in Hin. }
  split; [exact H|].
  exact (proj2 (output_file_name (fun _ => None) (chars "report") H)).
Defined.

(** *** The structure of a document read from its pages *)

(** When the structure of a document is extracted from the pages
    [doc], every entry of the outline is a line of the page it names:
    its text is the text of the spans of this line that are not blank,
    joined by single spaces.  The title is "Document" or the cleaned
    text of such a line of the first page. *)
Theorem extract_document_structure_pages (doc : list Page)
    (pdf_path : list ascii) (result : Result) :
  extract_document_structure (fun _ => Some (extract_formatted_text doc))
    pdf_path = Some result ->
  Forall (fun entry =>
            exists page line,
              doc !! OutlineEntry.page entry = Some page
              /\ line ∈ page_lines page
              /\ OutlineEntry.text entry
                 = join (chars " ") (text_of <$> nonblank_spans line))
    (outline result)
  /\ (title result = Document
      \/ exists page line,
           doc !! 0%nat = Some page
           /\ line ∈ page_lines page
           /\ title result
              = clean_title
                  (join (chars " ") (text_of <$> nonblank_spans line))).
Proof.
  assert (forall elem, elem ∈ extract_formatted_text doc ->
            exists page line,
              doc !! TextElement.page elem = Some page
              /\ line ∈ page_lines page
              /\ strip (TextElement.text elem)
                 = join (chars " ") (text_of <$> nonblank_spans line))
    as Hline.
  { intros elem Hin.
    apply elem_of_extract_formatted_text in Hin
      as (page_num & page & line & Hpage & Hin & Helem).
    pose proof (line_element_spec page_num line) as Hspec.
    pose proof (nonblank_spans_texts line) as Htexts.
    destruct (nonblank_spans line) as [|first rest] eqn:Eshown;
      rewrite Helem in Hspec; [done|].
    apply (inj Some) in Hspec. subst elem.
    cbn [TextElement.page TextElement.text].
    exists page, line. rewrite Eshown. split; [done|]. split; [done|].
    rewrite <- (strip_spaced (text_of <$> first :: rest)) by done.
    apply strip_idemp. }
  unfold extract_document_structure. cbn [mbind option_bind].
  set (text_elements := extract_formatted_text doc) in *.
  set (doc_stats := analyze_document_statistics text_elements).
  destruct (extract_document_title text_elements doc_stats) as [found|]
    eqn:Etitle; [|done].
  cbn [mbind option_bind].
  destruct (extract_document_outline text_elements doc_stats) as [entries|]
    eqn:Eoutline; [|done].
  cbn [mbind option_bind]. intros [= <-]. cbn [outline title]. split.
  - unfold extract_document_outline in Eoutline.
    destruct (heading_candidates text_elements doc_stats) as [candidates|]
      eqn:Ecandidates; [|done].
    cbn [mbind option_bind] in Eoutline. injection Eoutline as <-.
    apply Forall_fmap, Forall_forall. intros c Hc. cbn.
    apply post_process_subset in Hc.
    apply (heading_candidates_spec _ _ _ Ecandidates) in Hc
      as (elem & score & Hin & _ & _ & _ & ->).
    cbn [Candidate.page Candidate.text]. by apply Hline.
  - unfold extract_document_title in Etitle.
    destruct text_elements as [|e l] eqn:Eelements;
      [left; by injection Etitle as <-|].
    rewrite <- Eelements in *.
    destruct (title_candidates 0 (first_page_elements text_elements) doc_stats)
      as [candidates|] eqn:Ecandidates; [|done].
    cbn [mbind option_bind] in Etitle.
    destruct (sort_reverse Qltb fst candidates) as [|[score best] rest] eqn:Esort;
      injection Etitle as <-; [by left|right].
    apply sort_reverse_head in Esort as [Hbest _].
    apply (title_candidates_spec _ _ _ _ Ecandidates) in Hbest
      as (elem & Hin & _ & Hbest).
    cbn [snd] in Hbest. subst best.
    assert (TextElement.page elem = 0%nat /\ elem ∈ text_elements)
      as [Hpage Helem].
    { unfold first_page_elements in Hin.
      apply elem_of_take in Hin as (k & Hk & _).
      apply list_elem_of_lookup_2 in Hk.
      by apply list_elem_of_filter in Hk. }
    destruct (Hline elem Helem) as (page & line & Hdoc & Hin' & ->).
    rewrite Hpage in Hdoc. by exists page, line.
Qed.

Lemma extract_document_structure_pages_witness :
  extract_document_structure
    (fun _ => Some (extract_formatted_text sample_pdf)) (chars "report.pdf")
  = Some sample_result
  /\ (title sample_result = Document
      \/ exists page line,
           sample_pdf !! 0%nat = Some page
           /\ line ∈ page_lines page
           /\ title sample_result
              = clean_title
                  (join (chars " ") (text_of <$> nonblank_spans line))).
Proof.
  assert (extract_document_structure
            (fun _ => Some (extract_formatted_text sample_pdf))
            (chars "report.pdf")
          = Some sample_result) as H by (vm_compute; reflexivity).
  split; [exact H|].
  exact (proj2 (extract_document_structure_pages sample_pdf
                  (chars "report.pdf") sample_result H)).
Defined.

(** *** Evidence for the hypotheses of the theorems on the selection
    and on the heading score *)

Lemma rank_and_select_from_input_witness :
  let s' := Round1B.set_rank 0
              (Round1B.Section_.mk (chars "Methods")
                 (chars "We measure 3 samples. ") "report.pdf" 0 "methodology"
                 0.5 None) in
  s' ∈ Round1B.rank_and_select sample_sections
  /\ exists i s, s ∈ sample_sections /\ s' = Round1B.set_rank i s.
Proof.
  cbn zeta.
  assert (Round1B.set_rank 0 (Round1B.Section_.mk (chars "Methods")
            (chars "We measure 3 samples. ") "report.pdf" 0 "methodology"
            0.5 None)
          ∈ Round1B.rank_and_select sample_sections) as H
    by (vm_compute; apply list_elem_of_here).
  split; [exact H|].
  exact (rank_and_select_from_input sample_sections _ H).
Defined.

Lemma rank_and_select_complete_witness :
  let x := Round1B.Section_.mk (chars "Methods")
             (chars "We measure 3 samples. ") "report.pdf" 0 "methodology"
             0.5 None in
  (length (Round1B.rank_and_select sample_sections) < 10)%nat
  /\ x ∈ sample_sections
  /\ 0.3 <= Round1B.Section_.relevance_score x
  /\ ((exists i,
         Round1B.set_rank i x ∈ Round1B.rank_and_select sample_sections)
      \/ length (Round1B.from_document (Round1B.Section_.document x)
                   (Round1B.rank_and_select sample_sections)) = 3%nat).
Proof.
  cbn zeta.
  assert (length (Round1B.rank_and_select sample_sections) < 10)%nat as Hlen
    by (vm_compute; lia).
  assert (Round1B.Section_.mk (chars "Methods")
            (chars "We measure 3 samples. ") "report.pdf" 0 "methodology"
            0.5 None ∈ sample_sections) as Hin
    by apply list_elem_of_here.
  assert (0.3 <= 0.5) as Hscore by lra.
  split; [exact Hlen|]. split; [exact Hin|]. split; [exact Hscore|].
  exact (rank_and_select_complete sample_sections _ Hlen Hin Hscore).
Defined.

Lemma heading_score_monotone_witness :
  0 < dominant_size plain_stats
  /\ exists score score',
       calculate_heading_score numbered_heading plain_stats = Some score
       /\ calculate_heading_score numbered_heading_bold plain_stats
          = Some score'
       /\ score <= score'.
Proof.
  assert (0 < dominant_size plain_stats) as Hdom by reflexivity.
  assert (TextElement.max_size numbered_heading
          <= TextElement.max_size numbered_heading_bold) as Hsize
    by (cbn; lra).
  split; [exact Hdom|].
  exact (StructureProofs.heading_score_monotone numbered_heading
           numbered_heading_bold plain_stats Hdom eq_refl Hsize
           (fun _ => eq_refl)).
Defined.

End MoreProofs.

(** ** [PersonaAnalyzer]: the keywords of a profile *)

Module ProfileProofs.
Import PyStr Re Py ReFacts Round1B PersonaAnalyzer.

(** A run of [f*] passes characters of the class [f] only. *)
Lemma run_star_class {A : Type} (f : ascii -> bool) (prev : option ascii)
    (s : list ascii) (k : option ascii -> list ascii -> option A) (x : A) :
  run (Star (Chr f)) prev s k = Some x ->
  exists m s' prev',
    s = m ++ s' /\ Forall (fun c => f c = true) m /\ k prev' s' = Some x.
Proof.
  cbn [run]. generalize (length s) at 1. intros n. revert prev s.
  induction n as [|n IH]; intros prev s.
  - intros H. by exists [], s, prev.
  - destruct s as [|c s']; [intros H; by exists [], [], prev|].
    destruct (f c) eqn:Hc; [|intros H; by exists [], (c :: s'), prev].
    destruct (Nat.ltb_spec (length s') (length (c :: s'))) as [_|Hlen];
      [|simpl in Hlen; lia].
    match goal with
    | |- match ?loop with _ => _ end = _ -> _ =>
        destruct loop as [y|] eqn:E
    end.
    + intros [= <-]. apply IH in E as (m & s'' & prev' & -> & Hm & Hk).
      exists (c :: m), s'', prev'. split; [done|]. split; [|done].
      by constructor.
    + intros H. by exists [], (c :: s'), prev.
Qed.

(** A run of [f+] passes at least one character, of the class [f]. *)
Lemma run_plus_class {A : Type} (f : ascii -> bool) (prev : option ascii)
    (s : list ascii) (k : option ascii -> list ascii -> option A) (x : A) :
  run (Plus (Chr f)) prev s k = Some x ->
  exists m s' prev',
    s = m ++ s' /\ m <> [] /\ Forall (fun c => f c = true) m
    /\ k prev' s' = Some x.
Proof.
  unfold Plus. remember (Star (Chr f)) as star eqn:Hstar. cbn [run].
  destruct s as [|c s']; [done|]. destruct (f c) eqn:Hc; [|done].
  subst star. intros (m & s'' & prev' & -> & Hm & Hk)%run_star_class.
  exists (c :: m), s'', prev'. split; [done|]. split; [done|].
  split; [by constructor|done].
Qed.

(** With or without [re.I] the class [\w] is the same. *)
Lemma isword_ignore_case (c : ascii) :
  isword c || isword (lower_char c) || isword (upper_char c) = isword c.
Proof. destruct c as [[] [] [] [] [] [] [] []]; by vm_compute. Qed.

(** The text of the group of a match of [pre(\w+)] is a word. *)
Lemma match_group_word (pre : regex) (prev : option ascii)
    (s s1 s2 : list ascii) :
  match_group_here pre (ignore_case (Plus w)) prev s = Some (s1, s2) ->
  exists word,
    s1 = word ++ s2 /\ word <> []
    /\ Forall (fun c => isword c = true) word.
Proof.
  unfold match_group_here.
  intros (p1 & t1 & H & _)%run_continues.
  change (ignore_case (Plus w))
    with (Plus (Chr (fun c => isword c || isword (lower_char c)
                              || isword (upper_char c)))) in H.
  apply run_plus_class in H as (m & t2 & _ & -> & Hne & Hm & [= <- <-]).
  exists m. split; [done|]. split; [done|].
  eapply Forall_impl; [exact Hm|]. intros c. cbn beta.
  by rewrite isword_ignore_case.
Qed.

Lemma findall_group_words (pre : regex) (skip : nat) (prev : option ascii)
    (s : list ascii) :
  Forall (fun word => word <> [] /\ Forall (fun c => isword c = true) word)
    (findall_group_from pre (ignore_case (Plus w)) skip prev s).
Proof.
  assert (forall prev s s1 s2,
            match_group_here pre (ignore_case (Plus w)) prev s = Some (s1, s2) ->
            take (length s1 - length s2) s1 <> []
            /\ Forall (fun c => isword c = true)
                 (take (length s1 - length s2) s1)) as Hword.
  { intros p t s1 s2 (word & -> & Hne & Hword)%match_group_word.
    rewrite length_app.
    replace (length word + length s2 - length s2) with (length word) by lia.
    by rewrite take_app_length. }
  revert skip prev. induction s as [|c s IH]; intros skip prev;
    cbn [findall_group_from].
  - destruct skip; [|constructor].
    destruct (match_group_here _ _ _ _) as [[s1 s2]|] eqn:E; [|constructor].
    constructor; [by eapply Hword|constructor].
  - destruct skip as [|skip]; [|apply IH].
    destruct (match_group_here _ _ _ _) as [[s1 s2]|] eqn:E; [|apply IH].
    constructor; [by eapply Hword|apply IH].
Qed.

Lemma domain_keywords_long (persona : list ascii) :
  Forall (fun keyword => 4 <= length keyword) (domain_keywords persona).
Proof.
  unfold domain_keywords. cbv zeta.
  destruct (re_search (ignore_case re_biology) persona);
    destruct (re_search (ignore_case re_finance) persona);
    destruct (re_search (ignore_case re_chemistry) persona);
    cbn [app map]; repeat (constructor; [vm_compute; lia|]); constructor.
Qed.

(** No keyword of the profile of a persona and a job is empty: every
    expertise area has at least 4 characters, and every job priority
    is a word, of at least one character, all of the class [\w].  So no
    keyword is found in every text. *)
Theorem profile_keywords_words (persona job_to_be_done : list ascii) :
  let profile := create_persona_profile persona job_to_be_done in
  (forall keyword, keyword ∈ expertise_areas profile -> 4 <= length keyword)
  /\ (forall priority, priority ∈ job_priorities profile ->
        priority <> [] /\ Forall (fun c => isword c = true) priority).
Proof.
  cbn zeta. unfold create_persona_profile. cbn zeta.
  cbn [expertise_areas job_priorities]. split.
  - intros keyword. unfold extract_expertise_areas, expertise_keywords.
    rewrite elem_of_list_to_set, elem_of_app.
    intros [Hin|Hin].
    + pose proof (domain_keywords_long persona) as Hlong.
      rewrite Forall_forall in Hlong. by apply Hlong.
    + apply list_elem_of_In, filter_In in Hin as [Hin _].
      pose proof (findall_long_words 0 None (lower persona)) as Hlong.
      rewrite Forall_forall in Hlong. by apply Hlong, list_elem_of_In.
  - intros priority. unfold analyze_job_priorities.
    rewrite elem_of_list_to_set. unfold job_priorities_list. cbv zeta.
    cbn [fold_left action_patterns]. rewrite !elem_of_app.
    assert (forall pre,
              priority ∈ re_findall_group pre (ignore_case (Plus w))
                           job_to_be_done ->
              priority <> [] /\ Forall (fun c => isword c = true) priority)
      as Hgroup.
    { intros pre Hin.
      pose proof (findall_group_words pre 0 None job_to_be_done) as Hwords.
      rewrite Forall_forall in Hwords. by apply Hwords. }
    assert (forall fixed : list string,
              Forall (fun keyword =>
                        chars keyword <> []
                        /\ forallb isword (chars keyword) = true) fixed ->
              priority ∈ map chars fixed ->
              priority <> [] /\ Forall (fun c => isword c = true) priority)
      as Hfixed.
    { intros fixed Hall Hin.
      apply list_elem_of_fmap in Hin as (keyword & -> & Hin).
      rewrite Forall_forall in Hall. destruct (Hall _ Hin) as [Hne Hw].
      split; [done|]. apply Forall_forall. intros c Hc.
      rewrite forallb_forall in Hw. by apply Hw, list_elem_of_In. }
    intros [[[Hin|Hin]|Hin]|Hin]; [|by eapply Hgroup..].
    revert Hin.
    destruct (contains _ (chars "literature review"));
      destruct (contains _ (chars "revenue trends"));
      destruct (contains _ (chars "exam preparation"));
      rewrite ?app_nil_l, <- ?map_app; try (by intros ?%elem_of_nil);
      apply Hfixed; repeat (constructor; [by vm_compute|]); constructor.
Qed.

End ProfileProofs.
